(** * proxy_server.py: the request-lifecycle engine

    A shallow embedding of the request registry
    ([PersistentRequestManager]), the agent link handler
    ([websocket_endpoint]), the stream translator ([stream_generator]),
    the payload translator ([create_lmarena_request_body]) and the
    admission path ([chat_completions]) of [src/proxy_server.py].

    Conventions of the embedding.
    - A Python [str] is a [string]; one [ascii] stands for one character.
    - A value decoded from JSON (or a dict literal built by the server) is
      a [json]; a Python [dict] read with [.get] is its list of fields.
    - [time.time()] readings are whole milliseconds in [Z].
    - [json.loads], [str()] of a non-string value and [uuid.uuid4()] are
      library calls: they are Section variables of the code that uses them.
    - Logging, Prometheus gauges and the monitor broadcast are left out:
      they never feed back into the state modelled here. *)

From Stdlib Require Import ZArith Ascii String List Lia Bool.
From stdpp Require Import gmap strings list fin_maps.

Local Open Scope Z_scope.
Set Warnings "-register-all".
#[local] Arguments String.append !s1 s2 : simpl nomatch.

(** ** JSON values *)

Inductive json : Type :=
| JNull
| JBool (b : bool)
| JNum (z : Z)
| JStr (s : string)
| JList (items : list json)
| JDict (fields : list (string * json)).

(** [d.get(key)] on the fields of a dict. *)
Fixpoint dict_get (fields : list (string * json)) (key : string) : option json :=
  match fields with
  | [] => None
  | (k, v) :: rest => if String.eqb k key then Some v else dict_get rest key
  end.

(** [key in d]. *)
Definition dict_has (fields : list (string * json)) (key : string) : bool :=
  match dict_get fields key with Some _ => true | None => false end.

(** [d.get(key, default)]. *)
Definition dict_get_default (fields : list (string * json)) (key : string) (default : json) : json :=
  match dict_get fields key with Some v => v | None => default end.

(** [d[key] = v]: an existing key keeps its place, a new key goes last. *)
Fixpoint dict_set (fields : list (string * json)) (key : string) (v : json) : list (string * json) :=
  match fields with
  | [] => [(key, v)]
  | (k, w) :: rest => if String.eqb k key then (k, v) :: rest else (k, w) :: dict_set rest key v
  end.

(** Python truthiness of a JSON value ([if v:], [v or default]). *)
Definition truthy (v : json) : bool :=
  match v with
  | JNull => false
  | JBool b => b
  | JNum z => negb (z =? 0)
  | JStr s => negb (String.eqb s "")
  | JList l => match l with [] => false | _ => true end
  | JDict f => match f with [] => false | _ => true end
  end.

(** [v == "text"] for a JSON value [v]. *)
Definition is_str (v : json) (text : string) : bool :=
  match v with JStr s => String.eqb s text | _ => false end.

(** A value that can be a dict key or be looked up in a dict: a list
    or a dict cannot ([TypeError: unhashable type]). *)
Definition hashable (v : json) : bool :=
  match v with JList _ | JDict _ => false | _ => true end.

(** The characters of a string, each a string of length one (code
    points up to 255, one character each). *)
Fixpoint characters (s : string) : list json :=
  match s with
  | EmptyString => []
  | String c rest => JStr (String c EmptyString) :: characters rest
  end.

(** The keys of a dict, each once, in the order of their first
    entries. *)
Fixpoint dict_keys (fields : list (string * json)) : list string :=
  match fields with
  | [] => []
  | (key, _) :: rest => key :: List.filter (fun k => negb (String.eqb k key)) (dict_keys rest)
  end.

(** What [for x in v] visits, and what [len(v)] counts: the items of a
    list, the characters of a string, the keys of a dict; [None] is the
    TypeError for a value that is not iterable (null, a number, a
    boolean). *)
Definition py_iter (v : json) : option (list json) :=
  match v with
  | JList items => Some items
  | JStr s => Some (characters s)
  | JDict fields => Some (JStr <$> dict_keys fields)
  | _ => None
  end.

(** ** String helpers *)

(** [str.isspace] on one character (code points up to 255). *)
Definition py_isspace (c : ascii) : bool :=
  let n := nat_of_ascii c in
  ((9 <=? n) && (n <=? 13))%nat || ((28 <=? n) && (n <=? 32))%nat
  || (n =? 133)%nat || (n =? 160)%nat.

Fixpoint lstrip (s : string) : string :=
  match s with
  | String c rest => if py_isspace c then lstrip rest else s
  | EmptyString => EmptyString
  end.

(** [s.rstrip()]: drop the trailing run of whitespace. *)
Fixpoint rstrip (s : string) : string :=
  match s with
  | EmptyString => EmptyString
  | String c rest =>
      match rstrip rest with
      | EmptyString => if py_isspace c then EmptyString else String c EmptyString
      | r => String c r
      end
  end.

(** [s.strip()]. *)
Definition strip (s : string) : string := rstrip (lstrip s).

(** [s.startswith(c)] for a one-character prefix. *)
Definition startswith_char (s : string) (c : ascii) : bool :=
  match s with String d _ => Ascii.eqb c d | EmptyString => false end.

(** [s.split(sep, 1)] for a one-character separator: [None] when the
    separator does not occur (the list has one element and the tuple
    unpacking [prefix, content = ...] raises ValueError). *)
Fixpoint split_once (sep : ascii) (s : string) : option (string * string) :=
  match s with
  | EmptyString => None
  | String c rest =>
      if Ascii.eqb c sep then Some (EmptyString, rest)
      else match split_once sep rest with
           | Some (a, b) => Some (String c a, b)
           | None => None
           end
  end.

(** [sep.join(parts)]. *)
Fixpoint join (sep : string) (parts : list string) : string :=
  match parts with
  | [] => ""
  | [p] => p
  | p :: rest => p +:+ sep +:+ join sep rest
  end.

(** [str(n)] for a natural number. *)
Definition digit_char (d : nat) : ascii := ascii_of_nat (48 + d).

Fixpoint decimal_aux (fuel n : nat) (acc : string) : string :=
  match fuel with
  | O => acc
  | S fuel' =>
      let acc' := String (digit_char (n mod 10)) acc in
      if (n <? 10)%nat then acc' else decimal_aux fuel' (n / 10) acc'
  end.

Definition decimal (n : nat) : string := decimal_aux (S n) n "".

(** ** Stream translator: [stream_generator]

    One run of the consumer loop sees a sequence of [queue_event]s: each
    [asyncio.wait_for(queue.get(), timeout=0.1)] either returns the next
    queue entry or raises [TimeoutError]; [now] is the clock reading taken
    while that event is handled. *)

Inductive queue_event : Type :=
| Got (raw_data : json) (now : Z)
| TimedOut (now : Z).

(** What the generator yields. [SseData j] is the text
    ["data: " + json.dumps(j) + "\n\n"], [SseDone] is ["data: [DONE]\n\n"],
    [Body j] is the bare [json.dumps(j)] of a non-streaming response. *)
Inductive frame : Type :=
| SseData (payload : json)
| SseDone
| Body (payload : json).

(** The local variables of the loop. [uuids] counts the [uuid.uuid4()]
    draws made so far for [system_fingerprint]. *)
Record gen_state : Type := GenState {
  accumulated_content : string;
  media_urls : list json;
  finish_reason : option json;
  streaming_buffer : string;
  last_chunk_time : Z;
  uuids : nat
}.

Definition MIN_CHUNK_SIZE : nat := 40.
Definition MAX_BUFFER_TIME : Z := 500.

(** How one iteration of [while True] ends. The emitted frames carry the
    clock reading of the event that produced them. *)
Inductive step_result : Type :=
| Continue (st : gen_state) (out : list (Z * frame))
| Break (st : gen_state) (now : Z)
| Return (out : list (Z * frame))
| Raise.

(** How the [while True] loop ends: [break] on the sentinel, [return]
    after an error entry, an exception that no [except] of the loop
    catches, or a consumer that has read every event given and is still
    polling its queue. *)
Inductive loop_end : Type :=
| Broke (st : gen_state) (now : Z)
| Returned
| Raised
| Starved (st : gen_state).

(** How the generator ends. [Waiting] is a consumer that has read all the
    events given and is still polling its queue. *)
Inductive outcome : Type :=
| Finished (out : list (Z * frame))
| Errored (out : list (Z * frame))
| Crashed (out : list (Z * frame))
| Waiting (st : gen_state) (out : list (Z * frame)).

Section StreamGenerator.

Variable json_loads : string -> option json.
Variable py_str : json -> string.
Variable uuid4_hex : nat -> string.

Variable response_id : string.
Variable model : string.
Variable is_streaming : bool.
Variable model_type : string.

Definition is_chat : bool := String.eqb model_type "chat".
Definition is_image : bool := String.eqb model_type "image".
Definition is_media : bool := String.eqb model_type "image" || String.eqb model_type "video".

(** [f"fp_{uuid.uuid4().hex[:8]}"] for the [n]-th draw. *)
Definition system_fingerprint (n : nat) : json :=
  JStr ("fp_" +:+ String.substring 0 8 (uuid4_hex n)).

(** [int(time.time())] from a reading in milliseconds. *)
Definition created (now : Z) : json := JNum (Z.quot now 1000).

(** The chunk dict shared by every [chat.completion.chunk]. *)
Definition make_chunk (now : Z) (delta : json) (finish : json) (n : nat) : json :=
  JDict [("id", JStr response_id);
         ("object", JStr "chat.completion.chunk");
         ("created", created now);
         ("model", JStr model);
         ("choices", JList [JDict [("index", JNum 0);
                                   ("delta", delta);
                                   ("finish_reason", finish)]]);
         ("system_fingerprint", system_fingerprint n)].

(** The chunk that flushes the streaming buffer. *)
Definition content_chunk (now : Z) (content : string) (n : nat) : json :=
  make_chunk now (JDict [("role", JStr "assistant"); ("content", JStr content)]) JNull n.

(** [str(v)]: a string is itself, anything else goes through [py_str]. *)
Definition to_str (v : json) : string :=
  match v with JStr s => s | _ => py_str v end.

(** [{"error": {"message": str(v), "type": "server_error", "code": None}}]. *)
Definition wrap_error (v : json) : json :=
  JDict [("error", JDict [("message", JStr (to_str v));
                          ("type", JStr "server_error");
                          ("code", JNull)])].

(** The yield of an error: one SSE text holding the error and the
    sentinel when streaming, the bare JSON otherwise. *)
Definition yield_error (now : Z) (openai_error : json) : list (Z * frame) :=
  if is_streaming then [(now, SseData openai_error); (now, SseDone)]
  else [(now, Body openai_error)].

(** [except asyncio.TimeoutError:] branch. *)
Definition on_timeout (st : gen_state) (now : Z) : step_result :=
  if is_streaming && is_chat && negb (String.eqb (streaming_buffer st) "") then
    if MAX_BUFFER_TIME <=? now - last_chunk_time st then
      Continue
        {| accumulated_content := accumulated_content st;
           media_urls := media_urls st;
           finish_reason := finish_reason st;
           streaming_buffer := "";
           last_chunk_time := now;
           uuids := S (uuids st) |}
        [(now, SseData (content_chunk now (streaming_buffer st) (uuids st)))]
    else Continue st []
  else Continue st [].

(** [for item in media_data_list]: [None] when an item has no [.get]. *)
Fixpoint collect_urls (items : list json) (acc : list json) : option (list json) :=
  match items with
  | [] => Some acc
  | JDict f :: rest =>
      let url := dict_get_default f (if is_image then "image" else "url") JNull in
      collect_urls rest (if truthy url then acc ++ [url] else acc)
  | _ :: _ => None
  end.

(** The [a2] branch. Iterating a list visits its items; an empty dict or
    string has nothing to visit; a non-empty dict or string yields keys or
    characters, which have no [.get]; anything else is not iterable. *)
Definition on_a2 (st : gen_state) (content : string) : step_result :=
  match json_loads content with
  | None => Continue st []
  | Some (JList items) =>
      match collect_urls items (media_urls st) with
      | Some urls =>
          Continue
            {| accumulated_content := accumulated_content st;
               media_urls := urls;
               finish_reason := finish_reason st;
               streaming_buffer := streaming_buffer st;
               last_chunk_time := last_chunk_time st;
               uuids := uuids st |} []
      | None => Raise
      end
  | Some (JDict []) => Continue st []
  | Some (JStr EmptyString) => Continue st []
  | Some _ => Raise
  end.

(** The [a0] branch. *)
Definition on_a0 (st : gen_state) (content : string) (now : Z) : step_result :=
  match json_loads content with
  | None => Continue st []
  | Some (JStr delta) =>
      if is_streaming then
        let buffer := streaming_buffer st +:+ delta in
        let time_since_last := now - last_chunk_time st in
        if (MIN_CHUNK_SIZE <=? String.length buffer)%nat
           || (negb (String.eqb buffer "") && (MAX_BUFFER_TIME <=? time_since_last)) then
          Continue
            {| accumulated_content := accumulated_content st +:+ buffer;
               media_urls := media_urls st;
               finish_reason := finish_reason st;
               streaming_buffer := "";
               last_chunk_time := now;
               uuids := S (uuids st) |}
            [(now, SseData (content_chunk now buffer (uuids st)))]
        else
          Continue
            {| accumulated_content := accumulated_content st;
               media_urls := media_urls st;
               finish_reason := finish_reason st;
               streaming_buffer := buffer;
               last_chunk_time := last_chunk_time st;
               uuids := uuids st |} []
      else
        Continue
          {| accumulated_content := accumulated_content st +:+ delta;
             media_urls := media_urls st;
             finish_reason := finish_reason st;
             streaming_buffer := streaming_buffer st;
             last_chunk_time := last_chunk_time st;
             uuids := uuids st |} []
  | Some _ => Raise
  end.

(** The [ad] branch. *)
Definition on_ad (st : gen_state) (content : string) : step_result :=
  match json_loads content with
  | None => Continue st []
  | Some (JDict f) =>
      Continue
        {| accumulated_content := accumulated_content st;
           media_urls := media_urls st;
           finish_reason := Some (dict_get_default f "finishReason" (JStr "stop"));
           streaming_buffer := streaming_buffer st;
           last_chunk_time := last_chunk_time st;
           uuids := uuids st |} []
  | Some _ => Raise
  end.

(** [prefix, content = raw_data.split(":", 1)] and the dispatch on the tag. *)
Definition on_tagged (st : gen_state) (raw : string) (now : Z) : step_result :=
  match split_once ":" raw with
  | None => Continue st []
  | Some (prefix, content) =>
      if is_media && String.eqb prefix "a2" then on_a2 st content
      else if is_chat && String.eqb prefix "a0" then on_a0 st content now
      else if String.eqb prefix "ad" then on_ad st content
      else Continue st []
  end.

(** A string entry that looks like a JSON object: the agent's own error
    report. [None] when the entry is not one (normal parsing goes on).
    [json.loads] of a text that starts with a brace returns a dict or
    raises; a decoder that returns anything else makes ["error" in
    error_data] fail. *)
Definition server_error (raw : string) (now : Z) : option step_result :=
  if startswith_char (strip raw) "{" then
    match json_loads (strip raw) with
    | None => None
    | Some (JDict f) =>
        match dict_get f "error" with
        | None => None
        | Some (JDict e) =>
            if dict_has e "message" then Some (Return (yield_error now (JDict [("error", JDict e)])))
            else Some (Return (yield_error now (wrap_error (JDict e))))
        | Some v => Some (Return (yield_error now (wrap_error v)))
        end
    | Some _ => Some Raise
    end
  else None.

(** One queue entry. *)
Definition on_data (st : gen_state) (raw_data : json) (now : Z) : step_result :=
  if is_str raw_data "[DONE]" then Break st now
  else
    match raw_data with
    | JDict f =>
        match dict_get f "error" with
        | Some v => Return (yield_error now (wrap_error v))
        | None => Continue st []
        end
    | JStr raw =>
        match server_error raw now with
        | Some r => r
        | None => on_tagged st raw now
        end
    | _ => Continue st []
    end.

Definition loop_step (st : gen_state) (ev : queue_event) : step_result :=
  match ev with
  | TimedOut now => on_timeout st now
  | Got raw_data now => on_data st raw_data now
  end.

(** The [while True] loop over the events of one run: the frames yielded
    inside the loop, and how the loop ended. *)
Fixpoint run_loop (st : gen_state) (events : list queue_event) : list (Z * frame) * loop_end :=
  match events with
  | [] => ([], Starved st)
  | ev :: rest =>
      match loop_step st ev with
      | Continue st' out => let (more, e) := run_loop st' rest in (out ++ more, e)
      | Break st' now => ([], Broke st' now)
      | Return out => (out, Returned)
      | Raise => ([], Raised)
      end
  end.

(** [finish_reason or "stop"]. *)
Definition finish_or_stop (fr : option json) : json :=
  match fr with
  | Some v => if truthy v then v else JStr "stop"
  | None => JStr "stop"
  end.

(** The strings of a list, [None] when an item is not a string
    (["\n".join] raises TypeError on it). *)
Fixpoint all_strings (l : list json) : option (list string) :=
  match l with
  | [] => Some []
  | JStr s :: rest =>
      match all_strings rest with Some r => Some (s :: r) | None => None end
  | _ :: _ => None
  end.

(** The content of an image or video response, [None] when joining raises. *)
Definition media_content (urls : list json) : option string :=
  if String.eqb model_type "video" then
    match all_strings urls with Some l => Some (join (String "010" "") l) | None => None end
  else
    Some (join (String "010" "")
            (List.map (fun url => "![Generated Image](" +:+ to_str url +:+ ")") urls)).

(** The non-streaming [chat.completion] object. *)
Definition complete_response (now : Z) (content : string) (finish : json) (n : nat) : json :=
  JDict [("id", JStr response_id);
         ("object", JStr "chat.completion");
         ("created", created now);
         ("model", JStr model);
         ("choices", JList [JDict [("index", JNum 0);
                                   ("message", JDict [("role", JStr "assistant");
                                                      ("content", JStr content)]);
                                   ("finish_reason", finish)]]);
         ("usage", JDict [("prompt_tokens", JNum 0);
                          ("completion_tokens", JNum 0);
                          ("total_tokens", JNum 0)]);
         ("system_fingerprint", system_fingerprint n)].

(** The flush of the residual buffer after the loop. *)
Definition final_flush (st : gen_state) (now : Z) : list (Z * frame) :=
  if is_streaming && is_chat && negb (String.eqb (streaming_buffer st) "") then
    [(now, SseData (content_chunk now (streaming_buffer st) (uuids st)))]
  else [].

(** Everything after the loop ("Final Response Generation"): the frames
    yielded, and [false] when an exception cut them short. *)
Definition final_response (st : gen_state) (now : Z) : list (Z * frame) * bool :=
  let flushing := is_streaming && is_chat && negb (String.eqb (streaming_buffer st) "") in
  let n := if flushing then S (uuids st) else uuids st in
  let accumulated :=
    if flushing then accumulated_content st +:+ streaming_buffer st
    else accumulated_content st in
  let content := if is_media then media_content (media_urls st) else Some accumulated in
  match content with
  | None => (final_flush st now, false)
  | Some content =>
      let finish := finish_or_stop (finish_reason st) in
      if is_streaming then
        (final_flush st now
           ++ (if is_media
               then [(now, SseData (make_chunk now (JDict [("role", JStr "assistant");
                                                            ("content", JStr content)]) finish n))]
               else [])
           ++ (if is_chat then [(now, SseData (make_chunk now (JDict []) finish n))] else [])
           ++ [(now, SseDone)], true)
      else (final_flush st now ++ [(now, Body (complete_response now content finish n))], true)
  end.

(** The state at [while True]: [last_chunk_time = time.time()] is the
    clock reading [start] taken just before the loop. *)
Definition initial_state (start : Z) : gen_state :=
  {| accumulated_content := "";
     media_urls := [];
     finish_reason := None;
     streaming_buffer := "";
     last_chunk_time := start;
     uuids := O |}.

(** The generator, once its queue has been found. *)
Definition stream_generator (start : Z) (events : list queue_event) : outcome :=
  match run_loop (initial_state start) events with
  | (out, Broke st now) =>
      match final_response st now with
      | (closing, true) => Finished (out ++ closing)
      | (closing, false) => Crashed (out ++ closing)
      end
  | (out, Returned) => Errored out
  | (out, Raised) => Crashed out
  | (out, Starved st) => Waiting st out
  end.

End StreamGenerator.

(** ** What a client reads off the stream *)

(** Concatenation of a list of strings. *)
Definition cat (parts : list string) : string := fold_right String.append "" parts.

(** [choices[0].delta.content] of a yielded [chat.completion.chunk];
    [None] for any other frame and for a chunk whose delta has no content. *)
Definition delta_content (f : frame) : option string :=
  match f with
  | SseData (JDict fields) =>
      if is_str (dict_get_default fields "object" JNull) "chat.completion.chunk" then
        match dict_get fields "choices" with
        | Some (JList (JDict choice :: _)) =>
            match dict_get choice "delta" with
            | Some (JDict delta) =>
                match dict_get delta "content" with
                | Some (JStr c) => Some c
                | _ => None
                end
            | _ => None
            end
        | _ => None
        end
      else None
  | _ => None
  end.

(** The delta contents of a run, in emission order, each with the clock
    reading of its emission. *)
Fixpoint content_chunks (out : list (Z * frame)) : list (Z * string) :=
  match out with
  | [] => []
  | (t, f) :: rest =>
      match delta_content f with
      | Some c => (t, c) :: content_chunks rest
      | None => content_chunks rest
      end
  end.

(** The text a client assembles from the stream. *)
Definition emitted_text (out : list (Z * frame)) : string :=
  cat (List.map snd (content_chunks out)).

(** The decoded payload of an [a0] frame: the entry is a string, its tag
    (the text before the first colon) is [a0], and the rest decodes to a
    string. *)
Definition a0_payload (json_loads : string -> option json) (ev : queue_event) : option string :=
  match ev with
  | Got (JStr raw) _ =>
      match split_once ":" raw with
      | Some (prefix, content) =>
          if String.eqb prefix "a0" then
            match json_loads content with
            | Some (JStr delta) => Some delta
            | _ => None
            end
          else None
      | None => None
      end
  | _ => None
  end.

(** The events up to the [DONE] sentinel. *)
Fixpoint before_done (events : list queue_event) : list queue_event :=
  match events with
  | [] => []
  | Got raw now :: rest =>
      if is_str raw "[DONE]" then [] else Got raw now :: before_done rest
  | ev :: rest => ev :: before_done rest
  end.

(** The text the agent sent: the [a0] payloads in arrival order. *)
Definition received_text (json_loads : string -> option json) (events : list queue_event) : string :=
  cat (omap (a0_payload json_loads) (before_done events)).

(** Coalescing, with the timer running from [since]: each chunk is at
    least [MIN_CHUNK_SIZE] long or comes [MAX_BUFFER_TIME] or more after
    [since]; the timer restarts at each chunk. *)
Fixpoint coalesced (since : Z) (chunks : list (Z * string)) : Prop :=
  match chunks with
  | [] => True
  | (t, c) :: rest =>
      ((MIN_CHUNK_SIZE <= String.length c)%nat \/ MAX_BUFFER_TIME <= t - since)
      /\ coalesced t rest
  end.

(** Coalescing measured from the previous flush only: a chunk with no
    flush before it has no timer to appeal to. *)
Fixpoint coalesced_since_flush (previous : option Z) (chunks : list (Z * string)) : Prop :=
  match chunks with
  | [] => True
  | (t, c) :: rest =>
      ((MIN_CHUNK_SIZE <= String.length c)%nat
       \/ exists p, previous = Some p /\ MAX_BUFFER_TIME <= t - p)
      /\ coalesced_since_flush (Some t) rest
  end.

Definition dquote : ascii := ascii_of_nat 34.
Definition backslash : ascii := ascii_of_nat 92.

(** A decoder for the JSON fragment of the literal scenarios: a string
    literal without escapes, and an object with one string field. *)
Fixpoint read_quoted_body (s : string) : option (string * string) :=
  match s with
  | EmptyString => None
  | String c rest =>
      if Ascii.eqb c dquote then Some (EmptyString, rest)
      else if Ascii.eqb c backslash then None
      else match read_quoted_body rest with
           | Some (b, r) => Some (String c b, r)
           | None => None
           end
  end.

Definition read_quoted (s : string) : option (string * string) :=
  match s with
  | String c rest => if Ascii.eqb c dquote then read_quoted_body rest else None
  | EmptyString => None
  end.

Definition scenario_loads (s : string) : option json :=
  match read_quoted s with
  | Some (b, EmptyString) => Some (JStr b)
  | Some _ => None
  | None =>
      match s with
      | String "{" r =>
          match read_quoted r with
          | Some (k, String ":" r2) =>
              match read_quoted r2 with
              | Some (v, String "}" EmptyString) => Some (JDict [(k, JStr v)])
              | _ => None
              end
          | _ => None
          end
      | _ => None
      end
  end.

(** [str()] for the scenarios, where only strings are printed. *)
Definition scenario_str (v : json) : string :=
  match v with JStr s => s | _ => "" end.

(** A supply of distinct uuids for the scenarios. *)
Definition scenario_uuid (n : nat) : string := "uuid" +:+ decimal n.

(** A JSON string literal: the text between double quotes. *)
Definition quoted (s : string) : string := String dquote (s +:+ String dquote "").

(** ** Facts: the stream translator *)

Lemma append_nil_r (s : string) : s +:+ "" = s.
Proof. induction s as [|c s IH]; simpl; [reflexivity | now rewrite IH]. Qed.

Lemma append_assoc (a b c : string) : (a +:+ b) +:+ c = a +:+ (b +:+ c).
Proof. induction a as [|x a IH]; simpl; [reflexivity | now rewrite IH]. Qed.

Lemma cat_app (l1 l2 : list string) : cat (l1 ++ l2) = cat l1 +:+ cat l2.
Proof.
  induction l1 as [|x l1 IH]; simpl; [reflexivity|].
  now rewrite IH, append_assoc.
Qed.

Lemma content_chunks_app (o1 o2 : list (Z * frame)) :
  content_chunks (o1 ++ o2) = content_chunks o1 ++ content_chunks o2.
Proof.
  induction o1 as [|[t f] o1 IH]; simpl; [reflexivity|].
  destruct (delta_content f); simpl; now rewrite IH.
Qed.

Lemma emitted_text_app (o1 o2 : list (Z * frame)) :
  emitted_text (o1 ++ o2) = emitted_text o1 +:+ emitted_text o2.
Proof.
  unfold emitted_text. now rewrite content_chunks_app, map_app, cat_app.
Qed.

Section StreamFacts.

Variable json_loads : string -> option json.
Variable py_str : json -> string.
Variable uuid4_hex : nat -> string.
Variable response_id : string.
Variable model : string.

Abbreviation chat_step := (loop_step json_loads py_str uuid4_hex response_id model true "chat").
Abbreviation chat_loop := (run_loop json_loads py_str uuid4_hex response_id model true "chat").

(** The payload text of one event. *)
Definition payload_text (ev : queue_event) : string :=
  match a0_payload json_loads ev with Some d => d | None => "" end.

Lemma content_chunk_delta now c n :
  delta_content (SseData (content_chunk uuid4_hex response_id model now c n)) = Some c.
Proof. reflexivity. Qed.

Lemma tag_not_brace raw content :
  split_once ":" raw = Some ("a0", content) -> startswith_char (strip raw) "{" = false.
Proof.
  intros H. destruct raw as [|c1 raw]; [discriminate|]. simpl in H.
  destruct (Ascii.eqb c1 ":") eqn:E1; [discriminate|].
  destruct (split_once ":" raw) as [[a b]|] eqn:E2; [|discriminate].
  injection H as Hc _ _. subst c1.
  unfold strip. simpl. destruct (rstrip raw); reflexivity.
Qed.

Lemma on_timeout_text st now st' o :
  on_timeout uuid4_hex response_id model true "chat" st now = Continue st' o ->
  streaming_buffer st = emitted_text o +:+ streaming_buffer st'.
Proof.
  unfold on_timeout, is_chat. simpl.
  destruct (String.eqb (streaming_buffer st) "") eqn:Eb; simpl.
  - intros [= <- <-]. reflexivity.
  - destruct (MAX_BUFFER_TIME <=? now - last_chunk_time st).
    + intros [= <- <-]. unfold emitted_text. simpl. now rewrite !append_nil_r.
    + intros [= <- <-]. reflexivity.
Qed.

Lemma on_a0_text st content now st' o d :
  json_loads content = Some (JStr d) ->
  on_a0 json_loads uuid4_hex response_id model true st content now = Continue st' o ->
  streaming_buffer st +:+ d = emitted_text o +:+ streaming_buffer st'.
Proof.
  unfold on_a0. intros ->.
  destruct (_ || _).
  - intros [= <- <-]. unfold emitted_text. simpl. now rewrite !append_nil_r.
  - intros [= <- <-]. reflexivity.
Qed.

Lemma on_tagged_text st raw now st' o :
  on_tagged json_loads uuid4_hex response_id model true "chat" st raw now = Continue st' o ->
  streaming_buffer st +:+ payload_text (Got (JStr raw) now)
  = emitted_text o +:+ streaming_buffer st'.
Proof.
  unfold on_tagged, payload_text, a0_payload, is_media, is_chat. simpl.
  destruct (split_once ":" raw) as [[prefix content]|].
  2:{ intros [= <- <-]. now rewrite append_nil_r. }
  destruct (String.eqb prefix "a0") eqn:Ea.
  - destruct (json_loads content) as [[]|] eqn:El;
      try (unfold on_a0; rewrite El; discriminate);
      try (unfold on_a0; rewrite El; intros [= <- <-]; now rewrite append_nil_r).
    intros H. eapply on_a0_text; eauto.
  - destruct (String.eqb prefix "ad").
    + unfold on_ad. destruct (json_loads content) as [[]|]; try discriminate;
        intros [= <- <-]; now rewrite append_nil_r.
    + intros [= <- <-]. now rewrite append_nil_r.
Qed.

Lemma server_error_not_continue raw now st o :
  server_error json_loads py_str true raw now <> Some (Continue st o).
Proof.
  unfold server_error. destruct (startswith_char _ _); [|discriminate].
  destruct (json_loads _) as [[]|]; try discriminate.
  destruct (dict_get _ _) as [[]|]; try discriminate.
  destruct (dict_has _ _); discriminate.
Qed.

Lemma loop_step_text st ev st' o :
  chat_step st ev = Continue st' o ->
  streaming_buffer st +:+ payload_text ev = emitted_text o +:+ streaming_buffer st'.
Proof.
  destruct ev as [raw now|now]; simpl.
  - unfold on_data. destruct (is_str raw "[DONE]"); [discriminate|].
    destruct raw; try (intros [= <- <-]; now rewrite append_nil_r).
    + destruct (server_error _ _ _ _ _) as [r|] eqn:Es.
      * intros ->. now apply server_error_not_continue in Es.
      * apply on_tagged_text.
    + destruct (dict_get _ _); [discriminate|]. intros [= <- <-]. now rewrite append_nil_r.
  - intros H. apply on_timeout_text in H. unfold payload_text. simpl. now rewrite append_nil_r.
Qed.

Lemma loop_step_break st ev st' now :
  chat_step st ev = Break st' now ->
  st' = st /\ exists raw, ev = Got raw now /\ is_str raw "[DONE]" = true.
Proof.
  destruct ev as [raw t|t]; simpl.
  - unfold on_data. destruct (is_str raw "[DONE]") eqn:E.
    + intros [= <- <-]. eauto.
    + destruct raw; try discriminate.
      * destruct (server_error _ _ _ _ _) as [r|] eqn:Es.
        -- intros ->. exfalso. revert Es. unfold server_error.
           destruct (startswith_char _ _); [|discriminate].
           destruct (json_loads _) as [[]|]; try discriminate.
           destruct (dict_get _ _) as [[]|]; try discriminate.
           destruct (dict_has _ _); discriminate.
        -- unfold on_tagged. destruct (split_once _ _) as [[p c]|]; [|discriminate].
           destruct (_ && _); [unfold on_a2; destruct (json_loads c) as [[| | |[]|? |[]]|]; try discriminate; destruct (collect_urls _ _ _); discriminate|].
           destruct (_ && _); [unfold on_a0; destruct (json_loads c) as [[]|]; try discriminate; destruct (_ || _); discriminate|].
           destruct (String.eqb p "ad"); [unfold on_ad; destruct (json_loads c) as [[]|]; discriminate|discriminate].
      * destruct (dict_get _ _); discriminate.
  - unfold on_timeout. destruct (_ && _); [destruct (_ <=? _)|]; discriminate.
Qed.

(** The text invariant of the loop: what was buffered plus what arrives
    is what was yielded plus what is still buffered. *)
Lemma run_loop_text events : forall st out st' now,
  chat_loop st events = (out, Broke st' now) ->
  streaming_buffer st +:+ received_text json_loads events
  = emitted_text out +:+ streaming_buffer st'.
Proof.
  induction events as [|ev rest IH]; intros st out st' now; simpl; [discriminate|].
  destruct (chat_step st ev) as [st1 o|st1 t| |] eqn:Es.
  - destruct (chat_loop st1 rest) as [more e] eqn:El. intros [= <- ->].
    pose proof (loop_step_text _ _ _ _ Es) as Ht. apply IH in El.
    rewrite emitted_text_app, append_assoc, <- El, <- append_assoc, <- Ht.
    rewrite append_assoc. f_equal.
    unfold received_text, payload_text.
    assert (Hb : before_done (ev :: rest) = ev :: before_done rest).
    { destruct ev as [raw t|t]; [|reflexivity]. simpl.
      destruct (is_str raw "[DONE]") eqn:E; [|reflexivity].
      simpl in Es. unfold on_data in Es. rewrite E in Es. discriminate. }
    rewrite Hb. simpl. destruct (a0_payload json_loads ev); reflexivity.
  - intros [= <- <- <-]. apply loop_step_break in Es as [-> (raw & -> & E)].
    unfold received_text. simpl. rewrite E. simpl. now rewrite append_nil_r.
  - discriminate.
  - discriminate.
Qed.


Lemma final_response_chat st now :
  final_response py_str uuid4_hex response_id model true "chat" st now
  = (final_flush uuid4_hex response_id model true "chat" st now
       ++ [(now, SseData (make_chunk uuid4_hex response_id model now (JDict [])
                            (finish_or_stop (finish_reason st))
                            (if negb (String.eqb (streaming_buffer st) "")
                             then S (uuids st) else uuids st)));
           (now, SseDone)], true).
Proof. reflexivity. Qed.

Lemma final_flush_text st now :
  emitted_text (final_flush uuid4_hex response_id model true "chat" st now)
  = streaming_buffer st.
Proof.
  unfold final_flush, is_chat. simpl.
  destruct (String.eqb (streaming_buffer st) "") eqn:E; simpl.
  - apply String.eqb_eq in E. now rewrite E.
  - unfold emitted_text. simpl. now rewrite append_nil_r.
Qed.

(** C2. A streaming chat run that reaches the [DONE] sentinel (so it met
    no error entry on the way) yields chunks whose [delta.content]
    fields, concatenated in emission order, are the decoded payloads of
    the [a0] frames read from the queue, concatenated in arrival order. *)
Theorem streamed_text_is_received_text start events out :
  stream_generator json_loads py_str uuid4_hex response_id model true "chat" start events
  = Finished out ->
  emitted_text out = received_text json_loads events.
Proof.
  unfold stream_generator.
  destruct (chat_loop (initial_state start) events) as [streamed e] eqn:El.
  destruct e as [st now| | |st]; try discriminate.
  rewrite final_response_chat. intros [= <-].
  apply run_loop_text in El. simpl in El. rewrite El.
  rewrite !emitted_text_app, final_flush_text.
  unfold emitted_text at 2. simpl. now rewrite append_nil_r.
Qed.

(** *** Coalescing *)

(** One iteration either yields no content and leaves the timer alone,
    or yields one chunk that is long enough or late enough and restarts
    the timer at its own clock reading. *)
Lemma loop_step_coalesced st ev st' o :
  chat_step st ev = Continue st' o ->
  (content_chunks o = [] /\ last_chunk_time st' = last_chunk_time st)
  \/ (exists t c, content_chunks o = [(t, c)]
        /\ ((MIN_CHUNK_SIZE <= String.length c)%nat
            \/ MAX_BUFFER_TIME <= t - last_chunk_time st)
        /\ last_chunk_time st' = t).
Proof.
  destruct ev as [raw now|now]; simpl.
  - unfold on_data. destruct (is_str raw "[DONE]"); [discriminate|].
    destruct raw; try (intros [= <- <-]; now left).
    + destruct (server_error _ _ _ _ _) as [r|] eqn:Es.
      * intros ->. now apply server_error_not_continue in Es.
      * unfold on_tagged, is_media, is_chat. simpl.
        destruct (split_once ":" s) as [[prefix content]|]; [|intros [= <- <-]; now left].
        destruct (String.eqb prefix "a0").
        -- unfold on_a0. destruct (json_loads content) as [[]|]; try discriminate;
             try (intros [= <- <-]; now left).
           cbv beta iota zeta.
           destruct (MIN_CHUNK_SIZE <=? String.length (streaming_buffer st +:+ s0))%nat eqn:Elen;
             cbv beta iota zeta; unfold orb.
           ++ intros [= <- <-]. right. eexists _, _. split; [reflexivity|].
              split; [left; now apply Nat.leb_le | reflexivity].
           ++ destruct (String.eqb (streaming_buffer st +:+ s0) ""); unfold negb, andb.
              ** intros [= <- <-]. now left.
              ** destruct (MAX_BUFFER_TIME <=? now - last_chunk_time st) eqn:Et.
                 --- intros [= <- <-]. right. eexists _, _. split; [reflexivity|].
                     split; [right; now apply Z.leb_le | reflexivity].
                 --- intros [= <- <-]. now left.
        -- destruct (String.eqb prefix "ad"); [|intros [= <- <-]; now left].
           unfold on_ad. destruct (json_loads content) as [[]|]; try discriminate;
             intros [= <- <-]; now left.
    + destruct (dict_get _ _); [discriminate|]. intros [= <- <-]. now left.
  - unfold on_timeout, is_chat. simpl.
    destruct (String.eqb (streaming_buffer st) ""); simpl; [intros [= <- <-]; now left|].
    destruct (MAX_BUFFER_TIME <=? now - last_chunk_time st) eqn:Et.
    + intros [= <- <-]. right. eexists _, _. split; [reflexivity|].
      split; [right; now apply Z.leb_le | reflexivity].
    + intros [= <- <-]. now left.
Qed.

(** An error return yields no content. *)
Lemma loop_step_return st ev o :
  chat_step st ev = Return o -> content_chunks o = [].
Proof.
  destruct ev as [raw now|now]; simpl.
  - unfold on_data. destruct (is_str raw "[DONE]"); [discriminate|].
    destruct raw; try discriminate.
    + destruct (server_error _ _ _ _ _) as [r|] eqn:Es.
      * intros ->. revert Es. unfold server_error.
        destruct (startswith_char _ _); [|discriminate].
        destruct (json_loads _) as [[]|]; try discriminate.
        destruct (dict_get _ _) as [[]|]; try discriminate;
          try (intros [= <-]; reflexivity).
        destruct (dict_has _ _); intros [= <-]; reflexivity.
      * unfold on_tagged, is_media, is_chat. simpl.
        destruct (split_once ":" s) as [[prefix content]|]; [|discriminate].
        destruct (String.eqb prefix "a0").
        -- unfold on_a0. destruct (json_loads content) as [[]|]; try discriminate.
           destruct (_ || _); discriminate.
        -- destruct (String.eqb prefix "ad"); [|discriminate].
           unfold on_ad. destruct (json_loads content) as [[]|]; discriminate.
    + destruct (dict_get _ _); [|discriminate]. intros [= <-]. reflexivity.
  - unfold on_timeout. destruct (_ && _); [destruct (_ <=? _)|]; discriminate.
Qed.

(** The frames yielded after the loop hold at most one content chunk:
    the final flush of the residual buffer. *)
Lemma final_response_one_flush st now :
  (length (content_chunks
             (fst (final_response py_str uuid4_hex response_id model true "chat" st now))) <= 1)%nat.
Proof.
  rewrite final_response_chat. simpl. rewrite content_chunks_app.
  unfold final_flush, is_chat. simpl.
  destruct (String.eqb (streaming_buffer st) ""); simpl; lia.
Qed.

Lemma run_loop_coalesced events : forall st,
  coalesced (last_chunk_time st) (content_chunks (fst (chat_loop st events))).
Proof.
  induction events as [|ev rest IH]; intros st; simpl; [exact I|].
  destruct (chat_step st ev) as [st1 o|st1 t|o|] eqn:Es; simpl; try exact I.
  - specialize (IH st1). destruct (chat_loop st1 rest) as [more e]. simpl in *.
    rewrite content_chunks_app.
    destruct (loop_step_coalesced _ _ _ _ Es) as [[-> Hl]|(t & c & -> & Hc & Hl)].
    + simpl. now rewrite <- Hl.
    + simpl. split; [exact Hc|]. now rewrite <- Hl.
  - rewrite (loop_step_return _ _ _ Es). exact I.
Qed.

(** C3, as the code has it. In a streaming chat run, every content chunk
    yielded inside the loop (between the first [a0] frame and the
    terminal) is at least [MIN_CHUNK_SIZE] = 40 characters long, or is
    yielded [MAX_BUFFER_TIME] = 500 ms or more after the previous flush,
    where for the first chunk the timer runs from the clock reading taken
    when the generator started. The frames of a finished run are those of
    the loop followed by the closing frames, which hold at most one
    content chunk: the final flush. *)
Theorem chunks_coalesced_from_stream_start start events :
  coalesced start (content_chunks (fst (chat_loop (initial_state start) events)))
  /\ forall out,
       stream_generator json_loads py_str uuid4_hex response_id model true "chat" start events
       = Finished out ->
       exists st now,
         snd (chat_loop (initial_state start) events) = Broke st now
         /\ out = fst (chat_loop (initial_state start) events)
                  ++ fst (final_response py_str uuid4_hex response_id model true "chat" st now)
         /\ (length (content_chunks
                       (fst (final_response py_str uuid4_hex response_id model true "chat" st now)))
             <= 1)%nat.
Proof.
  split; [apply (run_loop_coalesced events (initial_state start))|].
  intros out. unfold stream_generator.
  destruct (chat_loop (initial_state start) events) as [streamed e].
  destruct e as [st now| | |st]; try discriminate.
  rewrite final_response_chat. intros [= <-].
  exists st, now. simpl. split; [reflexivity|]. split; [reflexivity|].
  pose proof (final_response_one_flush st now) as H.
  rewrite final_response_chat in H. exact H.
Qed.

End StreamFacts.

(** Scenario S1 of the spec, with the first delta arriving two seconds
    after the generator started. *)
Definition scenario_s1 : list queue_event :=
  [Got (JStr ("a0:" +:+ quoted "He")) 2000;
   Got (JStr ("a0:" +:+ quoted "llo")) 2010;
   Got (JStr ("a0:" +:+ quoted " world, this is a longer delta that exceeds the minimum.")) 2020;
   Got (JStr ("ad:{" +:+ quoted "finishReason" +:+ ":" +:+ quoted "stop" +:+ "}")) 2030;
   Got (JStr "[DONE]") 2040].

Definition scenario_run (start : Z) (events : list queue_event) : outcome :=
  stream_generator scenario_loads scenario_str scenario_uuid "chatcmpl-1" "M" true "chat"
    start events.

Definition scenario_out (start : Z) (events : list queue_event) : list (Z * frame) :=
  match scenario_run start events with
  | Finished out | Errored out | Crashed out | Waiting _ out => out
  end.

Example scenario_s1_chunks :
  content_chunks (scenario_out 0 scenario_s1)
  = [(2000, "He"); (2020, "llo world, this is a longer delta that exceeds the minimum.")].
Proof. vm_compute. reflexivity. Qed.

Lemma streamed_text_is_received_text_witness :
  emitted_text (scenario_out 0 scenario_s1) = received_text scenario_loads scenario_s1.
Proof.
  apply (streamed_text_is_received_text scenario_loads scenario_str scenario_uuid
           "chatcmpl-1" "M" 0 scenario_s1 (scenario_out 0 scenario_s1)).
  vm_compute. reflexivity.
Defined.

Lemma chunks_coalesced_from_stream_start_witness :
  coalesced 0 (content_chunks
                 (fst (run_loop scenario_loads scenario_str scenario_uuid "chatcmpl-1" "M"
                         true "chat" (initial_state 0) scenario_s1))).
Proof.
  exact (proj1 (chunks_coalesced_from_stream_start scenario_loads scenario_str scenario_uuid
                  "chatcmpl-1" "M" 0 scenario_s1)).
Defined.

(** C3 as stated fails: the first delta, two characters long, is yielded
    at once inside the loop although no flush came before it; the timer
    it is measured against started with the generator. *)
Lemma first_chunk_short_with_no_flush_before :
  ~ coalesced_since_flush None
      (content_chunks
         (fst (run_loop scenario_loads scenario_str scenario_uuid "chatcmpl-1" "M"
                 true "chat" (initial_state 0) scenario_s1))).
Proof.
  vm_compute. intros [[H | (p & H & _)] _].
  - lia.
  - discriminate H.
Qed.

(** *** A streaming response is made of SSE frames *)

(** The frames of a run, however it ended. *)
Definition frames_of (o : outcome) : list (Z * frame) :=
  match o with
  | Finished out | Errored out | Crashed out | Waiting _ out => out
  end.

(** An SSE frame, as opposed to a bare JSON body. *)
Definition is_sse (f : Z * frame) : Prop :=
  match f.2 with Body _ => False | _ => True end.

Section StreamingFrames.

Variable json_loads : string -> option json.
Variable py_str : json -> string.
Variable uuid4_hex : nat -> string.
Variable response_id : string.
Variable model : string.
Variable model_type : string.

Abbreviation streaming_step :=
  (loop_step json_loads py_str uuid4_hex response_id model true model_type).

Lemma yield_error_sse now e : Forall is_sse (yield_error true now e).
Proof. repeat constructor. Qed.

Lemma server_error_sse raw now r :
  server_error json_loads py_str true raw now = Some r ->
  match r with
  | Continue _ out | Return out => Forall is_sse out
  | _ => True
  end.
Proof.
  unfold server_error. destruct (startswith_char _ _); [|discriminate].
  destruct (json_loads _) as [[]|]; try discriminate; try (intros [= <-]; exact I).
  destruct (dict_get _ _) as [[]|]; try discriminate;
    try (intros [= <-]; apply yield_error_sse).
  destruct (dict_has _ _); intros [= <-]; apply yield_error_sse.
Qed.

Lemma loop_step_sse st ev :
  match streaming_step st ev with
  | Continue _ out | Return out => Forall is_sse out
  | _ => True
  end.
Proof.
  destruct ev as [raw now|now]; simpl.
  - unfold on_data. destruct (is_str raw "[DONE]"); [exact I|].
    destruct raw; try by constructor.
    + destruct (server_error _ _ _ _ _) as [r|] eqn:Es; [by apply server_error_sse in Es|].
      unfold on_tagged. destruct (split_once ":" s) as [[prefix content]|]; [|by constructor].
      destruct (_ && _).
      { unfold on_a2. destruct (json_loads content) as [[| | |[]|?|[]]|]; try exact I;
          try by constructor. destruct (collect_urls _ _ _); [by constructor | exact I]. }
      destruct (_ && _).
      { unfold on_a0. destruct (json_loads content) as [[]|]; try exact I; try by constructor.
        destruct (_ || _); repeat constructor. }
      destruct (String.eqb prefix "ad"); [|by constructor].
      unfold on_ad. destruct (json_loads content) as [[]|]; try exact I; by constructor.
    + destruct (dict_get _ _); [apply yield_error_sse | by constructor].
  - unfold on_timeout. destruct (_ && _); [|by constructor].
    destruct (_ <=? _); repeat constructor.
Qed.

Lemma run_loop_sse events : forall st,
  Forall is_sse (run_loop json_loads py_str uuid4_hex response_id model true model_type
                   st events).1.
Proof.
  induction events as [|ev rest IH]; intros st; simpl; [constructor|].
  pose proof (loop_step_sse st ev) as Hs.
  destruct (streaming_step st ev) as [st1 o|st1 t|o|]; simpl; try constructor; [|exact Hs].
  specialize (IH st1). destruct (run_loop _ _ _ _ _ _ _ st1 rest) as [more e]. simpl in *.
  by apply Forall_app.
Qed.

Lemma final_response_sse st now :
  Forall is_sse (final_response py_str uuid4_hex response_id model true model_type st now).1.
Proof.
  unfold final_response, final_flush.
  destruct (is_media model_type); destruct (is_chat model_type);
    destruct (negb (String.eqb (streaming_buffer st) "")); simpl;
    try destruct (media_content _ _ _); simpl; repeat constructor.
Qed.

Lemma stream_generator_sse start events :
  Forall is_sse
    (frames_of (stream_generator json_loads py_str uuid4_hex response_id model true model_type
                  start events)).
Proof.
  unfold stream_generator.
  pose proof (run_loop_sse events (initial_state start)) as Hl.
  destruct (run_loop _ _ _ _ _ _ _ _ events) as [out e]. simpl in Hl.
  destruct e as [st now| | |st]; simpl; try exact Hl.
  pose proof (final_response_sse st now) as Hf.
  destruct (final_response _ _ _ _ _ _ st now) as [closing []]; simpl in *;
    by apply Forall_app.
Qed.

End StreamingFrames.

(** ** Payload translator: [create_lmarena_request_body] *)

Module Translator.

(** The exceptions the translator can raise. *)
Inductive exn : Type := KeyError | ValueError | TypeError | AttributeError.

Inductive result (A : Type) : Type :=
| Ok (a : A)
| Raises (e : exn).

Arguments Ok {A} a.
Arguments Raises {A} e.

#[global] Instance result_bind : MBind result :=
  fun A B k r => match r with Ok a => k a | Raises e => Raises e end.

(** *** The two regular expressions *)

(** [\w] on one character: letters, digits, underscore, and the
    alphanumeric code points between 128 and 255. *)
Definition is_word (c : ascii) : bool :=
  let n := nat_of_ascii c in
  (((48 <=? n) && (n <=? 57)) || ((65 <=? n) && (n <=? 90)) || ((97 <=? n) && (n <=? 122))
   || (n =? 95) || (n =? 170) || (n =? 178) || (n =? 179) || (n =? 181) || (n =? 185)
   || (n =? 186) || ((188 <=? n) && (n <=? 190)) || ((192 <=? n) && (n <=? 214))
   || ((216 <=? n) && (n <=? 246)) || (248 <=? n))%nat.

(** [[a-zA-Z0-9+/=]] on one character. *)
Definition is_base64 (c : ascii) : bool :=
  let n := nat_of_ascii c in
  (((48 <=? n) && (n <=? 57)) || ((65 <=? n) && (n <=? 90)) || ((97 <=? n) && (n <=? 122))
   || (n =? 43) || (n =? 47) || (n =? 61))%nat.

(** [.] on one character: anything but a newline. *)
Definition is_dot (c : ascii) : bool := negb (nat_of_ascii c =? 10)%nat.

(** The longest prefix of [s] whose characters satisfy [p], and the rest. *)
Fixpoint span (p : ascii -> bool) (s : string) : string * string :=
  match s with
  | String c rest =>
      if p c then let (a, b) := span p rest in (String c a, b) else (EmptyString, s)
  | EmptyString => (EmptyString, EmptyString)
  end.

(** [s] without the literal prefix [lit], when it starts with it. *)
Fixpoint strip_prefix (lit s : string) : option string :=
  match lit, s with
  | EmptyString, _ => Some s
  | String a lit', String b s' => if Ascii.eqb a b then strip_prefix lit' s' else None
  | String _ _, EmptyString => None
  end.

(** A match of [data:(image/\w+);base64,(BODY)] at the start of [s],
    where BODY is a greedy run of [body] characters, of length at least
    [least]: the two groups and the length of the whole match. Each
    greedy run is followed by a character outside its class (or by the
    end), so the longest run is the only candidate. *)
Definition match_data_url (body : ascii -> bool) (least : nat) (s : string)
  : option (string * string * nat) :=
  match strip_prefix "data:image/" s with
  | None => None
  | Some s1 =>
      let (subtype, s2) := span is_word s1 in
      if (String.length subtype =? 0)%nat then None
      else
        match strip_prefix ";base64," s2 with
        | None => None
        | Some s3 =>
            let (data, _) := span body s3 in
            if (String.length data <? least)%nat then None
            else Some ("image/" +:+ subtype, data,
                       (11 + String.length subtype + 8 + String.length data)%nat)
        end
  end.

(** [re.match] of the [image_url] branch, anchored at the start of the
    URL: there the body group is a greedy run of [.], any characters
    other than a newline, and may be empty. *)
Definition match_image_url (image_url : string) : option (string * string) :=
  match match_data_url is_dot 0 image_url with
  | Some (mime_type, base64_data, _) => Some (mime_type, base64_data)
  | None => None
  end.

(** [re.findall(r"data:(image/\w+);base64,([a-zA-Z0-9+/=]+)", content)]:
    the matches from left to right, none overlapping. [skip] is the
    number of characters still covered by the match found last. *)
Fixpoint findall_from (s : string) (skip : nat) : list (string * string) :=
  match s with
  | EmptyString => []
  | String c rest =>
      match skip with
      | S k => findall_from rest k
      | O =>
          match match_data_url is_base64 1 s with
          | Some (mime_type, base64_data, len) =>
              (mime_type, base64_data) :: findall_from rest (len - 1)
          | None => findall_from rest 0
          end
      end
  end.

Definition findall_data_urls (content : string) : list (string * string) :=
  findall_from content 0.

(** [re.sub(r"data:image/\w+;base64,[a-zA-Z0-9+/=]+", "", text)]. *)
Fixpoint sub_from (s : string) (skip : nat) : string :=
  match s with
  | EmptyString => EmptyString
  | String c rest =>
      match skip with
      | S k => sub_from rest k
      | O =>
          match match_data_url is_base64 1 s with
          | Some (_, _, len) => sub_from rest (len - 1)
          | None => String c (sub_from rest 0)
          end
      end
  end.

Definition sub_data_urls (text : string) : string := sub_from text 0.

(** [s.split(sep)] for a one-character separator. *)
Fixpoint split_all (sep : ascii) (s : string) : list string :=
  match s with
  | EmptyString => [EmptyString]
  | String c rest =>
      if Ascii.eqb c sep then EmptyString :: split_all sep rest
      else match split_all sep rest with
           | first :: others => String c first :: others
           | [] => [String c EmptyString]
           end
  end.

(** [str(parts)] of a list of strings that hold neither quotes nor
    backslashes nor control characters, as the parts of a matched mime
    type do: each part in single quotes, separated by a comma and a
    space, in brackets. *)
Definition str_of_list (parts : list string) : string :=
  "[" +:+ join ", " (List.map (fun p => "'" +:+ p +:+ "'") parts) +:+ "]".

(** *** Attachments and messages *)

Record attachment : Type := Attachment {
  fileName : string;
  contentType : string;
  data : string
}.

Section Translator.

(** [uuid4 n] is [str(uuid.uuid4())] of the [n]-th draw of one call. *)
Variable uuid4 : nat -> string.

(** The attachment of one matched data URL: [file_ext] is the list
    [mime_type.split('/')], formatted into the name as it is. *)
Definition make_attachment (n : nat) (mime_type base64_data : string) : attachment :=
  let file_ext := split_all "/" mime_type in
  {| fileName := "upload-" +:+ uuid4 n +:+ "." +:+ str_of_list file_ext;
     contentType := mime_type;
     data := base64_data |}.

(** The attachments of a list of matches, drawing one uuid each. *)
Fixpoint attachments_of (n : nat) (matches : list (string * string)) : list attachment :=
  match matches with
  | [] => []
  | (mime_type, base64_data) :: rest =>
      make_attachment n mime_type base64_data :: attachments_of (S n) rest
  end.

(** [for part in content] of a multimodal array: the text parts, the
    attachments, and the uuid counter. *)
Fixpoint process_parts (parts : list json) (n : nat)
  : result (list json * list attachment * nat) :=
  match parts with
  | [] => Ok ([], [], n)
  | JDict part :: rest =>
      if is_str (dict_get_default part "type" JNull) "text" then
        '(texts, files, n') ← process_parts rest n;
        Ok (dict_get_default part "text" (JStr "") :: texts, files, n')
      else if is_str (dict_get_default part "type" JNull) "image_url" then
        match dict_get_default part "image_url" (JDict []) with
        | JDict image =>
            match dict_get_default image "url" (JStr "") with
            | JStr image_url =>
                match match_image_url image_url with
                | Some (mime_type, base64_data) =>
                    '(texts, files, n') ← process_parts rest (S n);
                    Ok (texts, make_attachment n mime_type base64_data :: files, n')
                | None => process_parts rest n
                end
            | _ => Raises TypeError
            end
        | _ => Raises AttributeError
        end
      else process_parts rest n
  | _ :: _ => Raises AttributeError
  end.

(** [isinstance(v, str)] for each text part, as ["\n".join] requires. *)
Definition join_texts (texts : list json) : result string :=
  match all_strings texts with
  | Some l => Ok (join (String "010" "") l)
  | None => Raises TypeError
  end.

(** One iteration of [for msg in openai_req['messages']]: the processed
    message (a dict), the attachments found, the uuid counter. *)
Definition process_message (msg : json) (n : nat)
  : result (list (string * json) * list attachment * nat) :=
  match msg with
  | JDict fields =>
      match dict_get_default fields "content" (JStr "") with
      | JList parts =>
          '(texts, files, n') ← process_parts parts n;
          text ← join_texts texts;
          Ok (dict_set fields "content" (JStr text), files, n')
      | JStr content =>
          let matches := findall_data_urls content in
          let text_content :=
            match matches with
            | [] => content
            | _ => strip (sub_data_urls content)
            end in
          Ok (dict_set fields "content" (JStr text_content),
              attachments_of n matches, (n + length matches)%nat)
      | _ => Ok (fields, [], n)
      end
  | _ => Raises AttributeError
  end.

Fixpoint process_messages (msgs : list json) (n : nat)
  : result (list (list (string * json)) * list attachment * nat) :=
  match msgs with
  | [] => Ok ([], [], n)
  | msg :: rest =>
      '(m, files, n1) ← process_message msg n;
      '(ms, more, n2) ← process_messages rest n1;
      Ok (m :: ms, files ++ more, n2)
  end.

(** [msg.get("role") == "user"]. *)
Definition has_user_role (msg : list (string * json)) : bool :=
  is_str (dict_get_default msg "role" JNull) "user".

(** [for i in range(len(processed_messages) - 1, -1, -1)]: [scan_down k]
    visits the indices below [k] from the top; [None] is the index -1. *)
Fixpoint scan_down (processed : list (list (string * json))) (k : nat) : option nat :=
  match k with
  | O => None
  | S i =>
      match processed !! i with
      | Some msg => if has_user_role msg then Some i else scan_down processed i
      | None => scan_down processed i
      end
  end.

Definition last_user_message_index (processed : list (list (string * json))) : option nat :=
  scan_down processed (length processed).

Definition empty_user_message : list (string * json) :=
  [("role", JStr "user"); ("content", JStr " ")].

(** [processed_messages.insert(insert_index, empty_user_message)],
    for chat models only. *)
Definition insert_empty_user_message (modality : json)
    (processed : list (list (string * json))) : list (list (string * json)) :=
  match last_user_message_index processed with
  | Some i =>
      if is_str modality "chat" then
        take (S i) processed ++ empty_user_message :: drop (S i) processed
      else processed
  | None => processed
  end.

Record arena_message : Type := ArenaMessage {
  id : string;
  role : string;
  content : json;
  experimental_attachments : list json;
  parentMessageIds : list string;
  participantPosition : string;
  modelId : option json;
  evaluationSessionId : string;
  status : string;
  failureReason : option json
}.

Record arena_payload : Type := ArenaPayload {
  payload_id : string;
  mode : string;
  modelAId : json;
  userMessageId : string;
  modelAMessageId : string;
  messages : list arena_message;
  modality : json
}.

(** The role sent to the agent: roles other than user, assistant and
    data become user. *)
Definition arena_role (msg : list (string * json)) : string :=
  match dict_get msg "role" with
  | Some (JStr r) =>
      if String.eqb r "user" || String.eqb r "assistant" || String.eqb r "data" then r
      else "user"
  | _ => "user"
  end.

(** [for i, msg in enumerate(processed_messages)], with [first] the uuid
    counter at [message_ids[0]]. [msg['content']] raises KeyError when
    the key is missing. *)
Fixpoint build_arena_messages (model_id : json) (evaluation_id : string) (first : nat)
    (i : nat) (processed : list (list (string * json))) : result (list arena_message) :=
  match processed with
  | [] => Ok []
  | msg :: rest =>
      match dict_get msg "content" with
      | None => Raises KeyError
      | Some c =>
          more ← build_arena_messages model_id evaluation_id first (S i) rest;
          Ok ({| id := uuid4 (first + i);
                 role := arena_role msg;
                 content := c;
                 experimental_attachments := [];
                 parentMessageIds := match i with O => [] | S j => [uuid4 (first + j)] end;
                 participantPosition := "a";
                 modelId := if String.eqb (arena_role msg) "assistant" then Some model_id else None;
                 evaluationSessionId := evaluation_id;
                 status := "pending";
                 failureReason := None |} :: more)
      end
  end.

(** [create_lmarena_request_body(openai_req)] against the registry. A
    model name that is a list or a dict cannot be looked up (TypeError);
    [for msg in openai_req['messages']] visits whatever the value
    yields: the characters of a string and the keys of a dict have no
    [.get], an empty string or dict yields nothing, and null, a number
    or a boolean cannot be iterated (TypeError). *)
Definition create_lmarena_request_body
    (MODEL_REGISTRY : gmap string (list (string * json))) (openai_req : list (string * json))
  : result (arena_payload * list attachment) :=
  match dict_get openai_req "model" with
  | None => Raises KeyError
  | Some (JStr model_name) =>
      match MODEL_REGISTRY !! model_name with
      | None => Raises ValueError
      | Some model_info =>
          let model_id := dict_get_default model_info "id" (JStr model_name) in
          let modality := dict_get_default model_info "type" (JStr "chat") in
          let evaluation_id := uuid4 0 in
          match dict_get openai_req "messages" with
          | None => Raises KeyError
          | Some value =>
              match py_iter value with
              | None => Raises TypeError
              | Some msgs =>
                  '(processed, files_to_upload, n) ← process_messages msgs 1;
                  let processed := insert_empty_user_message modality processed in
                  let count := length processed in
                  arena_messages ← build_arena_messages model_id evaluation_id n 0 processed;
                  let user_message_id :=
                    match count with
                    | O => uuid4 n
                    | S last => uuid4 (n + last)
                    end in
                  let n' := match count with O => S n | _ => (n + count)%nat end in
                  let model_a_message_id := uuid4 n' in
                  Ok ({| payload_id := evaluation_id;
                         mode := "direct";
                         modelAId := model_id;
                         userMessageId := user_message_id;
                         modelAMessageId := model_a_message_id;
                         messages :=
                           arena_messages
                             ++ [{| id := model_a_message_id;
                                    role := "assistant";
                                    content := JStr "";
                                    experimental_attachments := [];
                                    parentMessageIds := [user_message_id];
                                    participantPosition := "a";
                                    modelId := Some model_id;
                                    evaluationSessionId := evaluation_id;
                                    status := "pending";
                                    failureReason := None |}];
                         modality := modality |},
                      files_to_upload)
              end
          end
      end
  | Some (JList _) | Some (JDict _) => Raises TypeError
  | Some _ => Raises ValueError
  end.

End Translator.

(** ** Facts: the payload translator *)

(** What the agent sees of one message: its role and its content. *)
Definition shape (m : arena_message) : string * json := (role m, content m).

(** The same, read off a processed message. *)
Definition shape_of (msg : list (string * json)) : string * json :=
  (arena_role msg, dict_get_default msg "content" JNull).

(** [i] is the index of the last message with role user. *)
Definition last_user_at (processed : list (list (string * json))) (i : nat) : Prop :=
  (exists m, processed !! i = Some m /\ has_user_role m = true)
  /\ forall j m, (i < j)%nat -> processed !! j = Some m -> has_user_role m = false.

(** The id of the last message with role user. *)
Fixpoint last_user_id (body : list arena_message) : option string :=
  match body with
  | [] => None
  | m :: rest =>
      match last_user_id rest with
      | Some u => Some u
      | None => if String.eqb (role m) "user" then Some (id m) else None
      end
  end.

(** C7 as stated: the placeholder's parents are exactly the last message
    with role user. *)
Definition parented_to_last_user (payload : arena_payload) : Prop :=
  exists body placeholder u,
    messages payload = body ++ [placeholder]
    /\ last_user_id body = Some u
    /\ parentMessageIds placeholder = [u].

Lemma dict_get_set_ne fields key k v :
  k <> key -> dict_get (dict_set fields key v) k = dict_get fields k.
Proof.
  intros Hne. induction fields as [|[k' w] rest IH]; simpl.
  - destruct (String.eqb_spec key k); congruence.
  - destruct (String.eqb_spec k' key) as [->|Hk]; simpl.
    + destruct (String.eqb_spec key k); congruence.
    + destruct (String.eqb_spec k' k); [reflexivity | exact IH].
Qed.

Lemma scan_down_spec processed k i :
  scan_down processed k = Some i <->
  (i < k)%nat
  /\ (exists m, processed !! i = Some m /\ has_user_role m = true)
  /\ forall j m, (i < j < k)%nat -> processed !! j = Some m -> has_user_role m = false.
Proof.
  revert i. induction k as [|k IH]; intros i; simpl.
  - split; [discriminate | intros [H _]; lia].
  - destruct (processed !! k) as [m|] eqn:Ek.
    + destruct (has_user_role m) eqn:Eu.
      * split.
        -- intros [= <-]. split; [lia|]. split; [eauto|]. intros j mj Hj. lia.
        -- intros (Hi & (mi & Hmi & Hui) & Hlater).
           destruct (decide (i = k)) as [->|Hne]; [reflexivity|].
           assert (Hk : (i < k < S k)%nat) by lia.
           specialize (Hlater k m Hk Ek). congruence.
      * rewrite IH. split.
        -- intros (Hi & Hm & Hlater). split; [lia|]. split; [exact Hm|].
           intros j mj Hj Hmj. destruct (decide (j = k)) as [->|Hne].
           ++ congruence.
           ++ apply (Hlater j mj); [lia | exact Hmj].
        -- intros (Hi & (mi & Hmi & Hui) & Hlater).
           assert (i <> k) by (intros ->; congruence).
           split; [lia|]. split; [eauto|]. intros j mj Hj. apply Hlater. lia.
    + rewrite IH. split.
      * intros (Hi & Hm & Hlater). split; [lia|]. split; [exact Hm|].
        intros j mj Hj Hmj. destruct (decide (j = k)) as [->|Hne].
        -- congruence.
        -- apply (Hlater j mj); [lia | exact Hmj].
      * intros (Hi & (mi & Hmi & Hui) & Hlater).
        assert (i <> k) by (intros ->; congruence).
        split; [lia|]. split; [eauto|]. intros j mj Hj. apply Hlater. lia.
Qed.

Lemma last_user_message_index_spec processed i :
  last_user_message_index processed = Some i <-> last_user_at processed i.
Proof.
  unfold last_user_message_index, last_user_at. rewrite scan_down_spec. split.
  - intros (Hi & Hm & Hlater). split; [exact Hm|].
    intros j m Hj Hmj. apply (Hlater j m); [|exact Hmj].
    apply lookup_lt_Some in Hmj. lia.
  - intros ((m & Hm & Hu) & Hlater). split; [eapply lookup_lt_Some; eauto|].
    split; [eauto|]. intros j mj Hj. apply Hlater. lia.
Qed.

Section TranslatorFacts.

Variable uuid4 : nat -> string.

Lemma process_message_role msg n m files n' :
  process_message uuid4 msg n = Ok (m, files, n') ->
  exists fields, msg = JDict fields /\ dict_get m "role" = dict_get fields "role".
Proof.
  destruct msg as [| | | |items|fields]; try discriminate. simpl.
  intros H. exists fields. split; [reflexivity|].
  destruct (dict_get_default fields "content" (JStr "")) as [| | |c|parts|f].
  1-3,6: injection H as <- _ _; reflexivity.
  - injection H as <- _ _. now apply dict_get_set_ne.
  - destruct (process_parts uuid4 parts n) as [[[texts fs] k]|]; [|discriminate]. simpl in H.
    destruct (join_texts texts); [|discriminate]. simpl in H.
    injection H as <- _ _. now apply dict_get_set_ne.
Qed.

Lemma process_messages_roles msgs : forall n processed files n',
  process_messages uuid4 msgs n = Ok (processed, files, n') ->
  Forall2 (fun msg m => exists fields,
             msg = JDict fields /\ dict_get m "role" = dict_get fields "role")
          msgs processed.
Proof.
  induction msgs as [|msg rest IH]; intros n processed files n'; simpl.
  - intros [= <- _ _]. constructor.
  - destruct (process_message uuid4 msg n) as [[[m fs] n1]|] eqn:E1; [|discriminate]. simpl.
    destruct (process_messages uuid4 rest n1) as [[[ms more] n2]|] eqn:E2; [|discriminate]. simpl.
    intros [= <- _ _]. constructor; [eapply process_message_role; eauto | eapply IH; eauto].
Qed.

Lemma build_arena_messages_shape model_id evaluation_id first processed : forall i body,
  build_arena_messages uuid4 model_id evaluation_id first i processed = Ok body ->
  List.map shape body = List.map shape_of processed.
Proof.
  induction processed as [|msg rest IH]; intros i body; simpl.
  - intros [= <-]. reflexivity.
  - unfold shape_of at 1, dict_get_default.
    destruct (dict_get msg "content") as [c|]; [|discriminate].
    destruct (build_arena_messages _ _ _ _ _ rest) as [more|] eqn:E; [|discriminate]. simpl.
    intros [= <-]. simpl. f_equal. eapply IH; eauto.
Qed.

Lemma build_arena_messages_ids model_id evaluation_id first processed : forall i body,
  build_arena_messages uuid4 model_id evaluation_id first i processed = Ok body ->
  List.map id body = List.map (fun k => uuid4 (first + k)) (seq i (length processed)).
Proof.
  induction processed as [|msg rest IH]; intros i body; simpl.
  - intros [= <-]. reflexivity.
  - destruct (dict_get msg "content") as [c|]; [|discriminate].
    destruct (build_arena_messages _ _ _ _ _ rest) as [more|] eqn:E; [|discriminate]. simpl.
    intros [= <-]. simpl. f_equal. eapply IH; eauto.
Qed.

Lemma process_messages_length msgs : forall n processed files n',
  process_messages uuid4 msgs n = Ok (processed, files, n') ->
  length processed = length msgs.
Proof.
  intros n processed files n' H. symmetry. eapply Forall2_length, process_messages_roles, H.
Qed.

(** The messages visited are the items of a list; a value of another
    kind yields messages that can be processed only when it yields
    none. *)
Definition visited (value : json) (msgs : list json) : Prop :=
  value = JList msgs \/ (msgs = [] /\ (value = JStr "" \/ value = JDict [])).

Lemma py_iter_visited value msgs n r :
  py_iter value = Some msgs -> process_messages uuid4 msgs n = Ok r -> visited value msgs.
Proof.
  destruct value as [| | |text|items|fields]; try discriminate; simpl.
  - destruct text as [|c text]; simpl; intros [= <-]; [right; auto | discriminate].
  - intros [= <-]. by left.
  - destruct fields as [|[k v] fields]; simpl; intros [= <-]; [right; auto | discriminate].
Qed.

(** The translator, unfolded at a successful call. *)
Lemma create_lmarena_request_body_ok registry req payload files :
  create_lmarena_request_body uuid4 registry req = Ok (payload, files) ->
  exists model_name model_info msgs processed n body,
    dict_get req "model" = Some (JStr model_name)
    /\ registry !! model_name = Some model_info
    /\ (exists value, dict_get req "messages" = Some value /\ visited value msgs)
    /\ process_messages uuid4 msgs 1 = Ok (processed, files, n)
    /\ build_arena_messages uuid4 (dict_get_default model_info "id" (JStr model_name))
         (uuid4 0) n 0
         (insert_empty_user_message (dict_get_default model_info "type" (JStr "chat")) processed)
       = Ok body
    /\ modality payload = dict_get_default model_info "type" (JStr "chat")
    /\ modelAId payload = dict_get_default model_info "id" (JStr model_name)
    /\ userMessageId payload
       = match length (insert_empty_user_message
                         (dict_get_default model_info "type" (JStr "chat")) processed) with
         | O => uuid4 n
         | S last => uuid4 (n + last)
         end
    /\ messages payload
       = body ++ [{| id := modelAMessageId payload;
                     role := "assistant";
                     content := JStr "";
                     experimental_attachments := [];
                     parentMessageIds := [userMessageId payload];
                     participantPosition := "a";
                     modelId := Some (modelAId payload);
                     evaluationSessionId := payload_id payload;
                     status := "pending";
                     failureReason := None |}]
    /\ payload_id payload = uuid4 0
    /\ modelAMessageId payload
       = match length (insert_empty_user_message
                         (dict_get_default model_info "type" (JStr "chat")) processed) with
         | O => uuid4 (S n)
         | S last => uuid4 (n + S last)
         end.
Proof.
  unfold create_lmarena_request_body.
  destruct (dict_get req "model") as [[| | |model_name| |]|] eqn:Em; try discriminate.
  destruct (registry !! model_name) as [model_info|] eqn:Er; [|discriminate].
  destruct (dict_get req "messages") as [value|] eqn:Eq; [|discriminate].
  destruct (py_iter value) as [msgs|] eqn:Ei; [|discriminate].
  destruct (process_messages uuid4 msgs 1) as [[[processed fs] n]|] eqn:Ep; [|discriminate].
  simpl.
  destruct (build_arena_messages _ _ _ _ _ _) as [body|] eqn:Eb; [|discriminate]. simpl.
  intros [= <- <-]. exists model_name, model_info, msgs, processed, n, body. simpl.
  split; [done|]. split; [done|].
  split; [exists value; split; [done | by eapply py_iter_visited]|].
  split; [done|]. split; [done|].
  repeat split; try reflexivity.
  by destruct (length (insert_empty_user_message _ processed)).
Qed.

(** C6. When a translation succeeds, the messages sent to the agent,
    without the closing placeholder, are the processed client messages
    in order (these keep the role of the client message they come
    from), and: for a chat model with [i] the index of the last message
    with role user, one message with role user and content [" "] stands
    right after position [i]; for any other modality (image, video)
    nothing is inserted. The client messages are the items of the list
    [messages] (none when [messages] is an empty string or an empty
    dict, which the loop visits without a turn). *)
Theorem synthetic_user_message_after_last_user registry req payload files :
  create_lmarena_request_body uuid4 registry req = Ok (payload, files) ->
  exists msgs processed n body placeholder,
    (exists value, dict_get req "messages" = Some value /\ visited value msgs)
    /\ process_messages uuid4 msgs 1 = Ok (processed, files, n)
    /\ Forall2 (fun msg m => exists fields,
                  msg = JDict fields /\ dict_get m "role" = dict_get fields "role")
               msgs processed
    /\ messages payload = body ++ [placeholder]
    /\ (is_str (modality payload) "chat" = true ->
        forall i, last_user_at processed i ->
          List.map shape body
          = List.map shape_of (take (S i) processed)
              ++ ("user", JStr " ") :: List.map shape_of (drop (S i) processed))
    /\ (is_str (modality payload) "chat" = false ->
        List.map shape body = List.map shape_of processed).
Proof.
  intros H.
  destruct (create_lmarena_request_body_ok _ _ _ _ H)
    as (name & info & msgs & processed & n & body
        & Hm & Hr & Hq & Hp & Hb & Hmod & _ & _ & Hmsgs & _).
  exists msgs, processed, n, body. eexists. split; [exact Hq|]. split; [exact Hp|].
  split; [eapply process_messages_roles; eauto|]. split; [exact Hmsgs|].
  apply build_arena_messages_shape in Hb. rewrite Hmod. split.
  - intros Hchat i Hi. apply last_user_message_index_spec in Hi.
    rewrite Hb. unfold insert_empty_user_message. rewrite Hi, Hchat.
    rewrite map_app. reflexivity.
  - intros Hother. rewrite Hb. unfold insert_empty_user_message.
    rewrite Hother. destruct (last_user_message_index processed); reflexivity.
Qed.

Lemma last_map_seq (f : nat -> string) (len : nat) :
  last (List.map f (seq 0 (S len))) = Some (f len).
Proof.
  rewrite seq_S, map_app. simpl. apply last_snoc.
Qed.

Lemma last_user_id_snoc body m :
  role m = "user" -> last_user_id (body ++ [m]) = Some (id m).
Proof.
  intros Hr. induction body as [|x body IH]; simpl.
  - now rewrite Hr.
  - now rewrite IH.
Qed.

(** C7, as the code has it. When a translation succeeds, the last
    message sent is a placeholder with role assistant and empty content
    that bears the target model id (the [id] of the registry entry, or
    the model name when the entry has none); its parent-id array holds
    exactly one id, [userMessageId], which is the id of the message just
    before the placeholder. That message is the last message with role
    user exactly when its own role is user. When there is no message
    before the placeholder, [userMessageId] is a fresh id: the
    placeholder is the only message and there is no attachment, the
    evaluation id is the first uuid drawn, [userMessageId] the second
    and the placeholder's own id the third. *)
Theorem placeholder_parented_to_last_message registry req payload files :
  create_lmarena_request_body uuid4 registry req = Ok (payload, files) ->
  exists model_name model_info body placeholder,
    dict_get req "model" = Some (JStr model_name)
    /\ registry !! model_name = Some model_info
    /\ messages payload = body ++ [placeholder]
    /\ role placeholder = "assistant"
    /\ content placeholder = JStr ""
    /\ modelId placeholder = Some (dict_get_default model_info "id" (JStr model_name))
    /\ parentMessageIds placeholder = [userMessageId payload]
    /\ (forall m, last body = Some m -> userMessageId payload = id m)
    /\ (forall m, last body = Some m -> role m = "user" ->
        last_user_id body = Some (userMessageId payload))
    /\ (body = [] ->
        messages payload = [placeholder]
        /\ files = []
        /\ payload_id payload = uuid4 0
        /\ userMessageId payload = uuid4 1
        /\ id placeholder = uuid4 2).
Proof.
  intros H.
  destruct (create_lmarena_request_body_ok _ _ _ _ H)
    as (name & info & msgs & processed & n & body
        & Hm & Hr & Hq & Hp & Hb & Hmod & Hid & Hu & Hmsgs & Hsession & Hown).
  exists name, info, body. eexists. split; [exact Hm|]. split; [exact Hr|].
  split; [exact Hmsgs|]. simpl. split; [reflexivity|]. split; [reflexivity|].
  split; [now rewrite Hid|]. split; [reflexivity|].
  assert (Hempty : body = [] ->
            messages payload = [{| id := modelAMessageId payload;
                                   role := "assistant";
                                   content := JStr "";
                                   experimental_attachments := [];
                                   parentMessageIds := [userMessageId payload];
                                   participantPosition := "a";
                                   modelId := Some (modelAId payload);
                                   evaluationSessionId := payload_id payload;
                                   status := "pending";
                                   failureReason := None |}]
            /\ files = [] /\ payload_id payload = uuid4 0
            /\ userMessageId payload = uuid4 1 /\ modelAMessageId payload = uuid4 2).
  { intros ->. pose proof (build_arena_messages_ids _ _ _ _ _ _ Hb) as Hids.
    assert (Hlen : length (insert_empty_user_message
                             (dict_get_default info "type" (JStr "chat")) processed) = O).
    { apply (f_equal (@length _)) in Hids. rewrite !length_map, length_seq in Hids.
      simpl in Hids. lia. }
    assert (Hprocessed : processed = []).
    { revert Hlen. unfold insert_empty_user_message.
      destruct (last_user_message_index processed) as [i|];
        [destruct (is_str _ "chat")|]; by destruct processed. }
    subst processed. pose proof (process_messages_length _ _ _ _ _ Hp) as Hnone.
    destruct msgs; [|discriminate]. simpl in Hp. injection Hp as <- <-.
    rewrite Hlen in Hu, Hown. by rewrite Hmsgs. }
  assert (Hlast : forall m, last body = Some m -> userMessageId payload = id m).
  { intros m Hl. apply build_arena_messages_ids in Hb.
    assert (Hl' : last (List.map id body) = Some (id m)) by (rewrite fmap_last, Hl; reflexivity).
    rewrite Hb in Hl'. rewrite Hu.
    destruct (length (insert_empty_user_message _ processed)) as [|len]; [discriminate|].
    rewrite last_map_seq in Hl'. congruence. }
  split; [|split; [|exact Hempty]].
  - exact Hlast.
  - intros m Hl Hrole. rewrite (Hlast m Hl).
    destruct (last_Some body m) as [Hex _]. destruct (Hex Hl) as [body' ->].
    now apply last_user_id_snoc.
Qed.

End TranslatorFacts.

(** *** Literal translations *)

Definition scenario_registry : gmap string (list (string * json)) :=
  {[ "M" := [("id", JStr "model-m"); ("type", JStr "chat")];
     "Mimg" := [("id", JStr "model-img"); ("type", JStr "image")] ]}.

(** A chat conversation that ends with an assistant turn. *)
Definition scenario_prefill : list (string * json) :=
  [("model", JStr "M");
   ("messages", JList [JDict [("role", JStr "user"); ("content", JStr "hi")];
                       JDict [("role", JStr "assistant"); ("content", JStr "yo")]])].

(** The same conversation sent to an image model. *)
Definition scenario_image : list (string * json) :=
  [("model", JStr "Mimg");
   ("messages", JList [JDict [("role", JStr "user"); ("content", JStr "hi")];
                       JDict [("role", JStr "assistant"); ("content", JStr "yo")]])].

(** A user message with an embedded PNG data URL. *)
Definition scenario_upload : list (string * json) :=
  [("model", JStr "M");
   ("messages", JList [JDict [("role", JStr "user");
                              ("content", JStr "look: data:image/png;base64,iVBORw0KGgo= thanks")]])].

Example scenario_prefill_shapes :
  match create_lmarena_request_body scenario_uuid scenario_registry scenario_prefill with
  | Ok (payload, _) => List.map shape (messages payload)
  | Raises _ => []
  end
  = [("user", JStr "hi"); ("user", JStr " "); ("assistant", JStr "yo"); ("assistant", JStr "")].
Proof. vm_compute. reflexivity. Qed.

Example scenario_image_shapes :
  match create_lmarena_request_body scenario_uuid scenario_registry scenario_image with
  | Ok (payload, _) => List.map shape (messages payload)
  | Raises _ => []
  end
  = [("user", JStr "hi"); ("assistant", JStr "yo"); ("assistant", JStr "")].
Proof. vm_compute. reflexivity. Qed.

Lemma synthetic_user_message_after_last_user_witness :
  exists payload files,
    create_lmarena_request_body scenario_uuid scenario_registry scenario_prefill
    = Ok (payload, files)
    /\ exists msgs processed n body placeholder,
         (exists value,
            dict_get scenario_prefill "messages" = Some value /\ visited value msgs)
         /\ process_messages scenario_uuid msgs 1 = Ok (processed, files, n)
         /\ Forall2 (fun msg m => exists fields,
                       msg = JDict fields /\ dict_get m "role" = dict_get fields "role")
                    msgs processed
         /\ messages payload = body ++ [placeholder]
         /\ (is_str (modality payload) "chat" = true ->
             forall i, last_user_at processed i ->
               List.map shape body
               = List.map shape_of (take (S i) processed)
                   ++ ("user", JStr " ") :: List.map shape_of (drop (S i) processed))
         /\ (is_str (modality payload) "chat" = false ->
             List.map shape body = List.map shape_of processed).
Proof.
  eexists _, _. split; [vm_compute; reflexivity|].
  eapply (synthetic_user_message_after_last_user scenario_uuid scenario_registry scenario_prefill).
  vm_compute. reflexivity.
Defined.

Lemma placeholder_parented_to_last_message_witness :
  exists payload files,
    create_lmarena_request_body scenario_uuid scenario_registry scenario_prefill
    = Ok (payload, files)
    /\ exists model_name model_info body placeholder,
         dict_get scenario_prefill "model" = Some (JStr model_name)
         /\ scenario_registry !! model_name = Some model_info
         /\ messages payload = body ++ [placeholder]
         /\ role placeholder = "assistant"
         /\ content placeholder = JStr ""
         /\ modelId placeholder = Some (dict_get_default model_info "id" (JStr model_name))
         /\ parentMessageIds placeholder = [userMessageId payload]
         /\ (forall m, last body = Some m -> userMessageId payload = id m)
         /\ (forall m, last body = Some m -> role m = "user" ->
             last_user_id body = Some (userMessageId payload))
         /\ (body = [] ->
             messages payload = [placeholder]
             /\ files = []
             /\ payload_id payload = scenario_uuid 0
             /\ userMessageId payload = scenario_uuid 1
             /\ id placeholder = scenario_uuid 2).
Proof.
  eexists _, _. split; [vm_compute; reflexivity|].
  eapply (placeholder_parented_to_last_message scenario_uuid scenario_registry scenario_prefill).
  vm_compute. reflexivity.
Defined.

(** A request with no message at all: the placeholder is alone and its
    parent is an id that no message bears. *)
Definition scenario_no_turn : list (string * json) :=
  [("model", JStr "M"); ("messages", JList [])].

Example scenario_no_turn_ids :
  match create_lmarena_request_body scenario_uuid scenario_registry scenario_no_turn with
  | Ok (payload, _) =>
      (payload_id payload, userMessageId payload,
       List.map (fun m => (id m, parentMessageIds m)) (messages payload))
  | Raises _ => ("", "", [])
  end
  = ("uuid0", "uuid1", [("uuid2", ["uuid1"])]).
Proof. vm_compute. reflexivity. Qed.

(** [messages] that is not a list: an empty string or an empty dict is
    visited without a turn and translated like an empty list; a string
    is visited character by character and a dict key by key, and these
    have no [.get]; a number cannot be iterated. *)
Example scenario_messages_not_a_list :
  let translate messages :=
    create_lmarena_request_body scenario_uuid scenario_registry
      [("model", JStr "M"); ("messages", messages)] in
  translate (JStr "") = translate (JList [])
  /\ translate (JDict []) = translate (JList [])
  /\ (exists payload, translate (JList []) = Ok (payload, []))
  /\ translate (JStr "hi") = Raises AttributeError
  /\ translate (JDict [("role", JStr "user")]) = Raises AttributeError
  /\ translate (JNum 3) = Raises TypeError
  /\ translate JNull = Raises TypeError.
Proof. vm_compute. repeat split; try reflexivity. eexists. reflexivity. Qed.

(** C7 as stated fails: in a chat conversation that ends with an
    assistant turn the placeholder is parented to that assistant message,
    not to the last message with role user. *)
Lemma placeholder_not_parented_to_last_user :
  exists payload files,
    create_lmarena_request_body scenario_uuid scenario_registry scenario_prefill
    = Ok (payload, files)
    /\ ~ parented_to_last_user payload.
Proof.
  eexists _, _. split; [vm_compute; reflexivity|].
  intros (body & placeholder & u & Hm & Hl & Hp). simpl in Hm.
  change [?a; ?b; ?c; ?d] with ([a; b; c] ++ [d]) in Hm.
  apply app_inj_tail in Hm as [<- <-].
  vm_compute in Hl. vm_compute in Hp. congruence.
Qed.

(** C8 at a literal input: the data URL leaves the text and becomes one
    attachment with the mime type and the base64 body, but the file name
    ends in the printed list [mime_type.split('/')], not in the image
    subtype. *)
Lemma attachment_name_carries_split_list :
  match create_lmarena_request_body scenario_uuid scenario_registry scenario_upload with
  | Ok (payload, files) => (List.map shape (messages payload), files)
  | Raises _ => ([], [])
  end
  = ([("user", JStr "look:  thanks"); ("user", JStr " "); ("assistant", JStr "")],
     [{| fileName := "upload-uuid1.['image', 'png']";
         contentType := "image/png";
         data := "iVBORw0KGgo=" |}])
  /\ "upload-uuid1.['image', 'png']" <> "upload-uuid1.png".
Proof. split; [vm_compute; reflexivity | discriminate]. Qed.

End Translator.

(** ** Request registry and agent link

    The server state, with the Python objects that are shared by
    reference kept in two stores: the [PersistentRequest] objects (held
    by the registry and by the snapshot a timeout watcher sleeps on) and
    the [asyncio.Queue] objects (held by a request, by
    [response_channels] and by the generator that drains them). A
    reference is a number; a new object takes a number not yet in its
    store. Request ids are the keys of the two dicts. *)

Module Lifecycle.

(** [Config], at the values the class gives it. *)
Definition BACKPRESSURE_QUEUE_SIZE : nat := 5.
Definition REQUEST_TIMEOUT_SECONDS : nat := 180.
Definition MAX_CONCURRENT_REQUESTS : nat := 20.

Inductive RequestStatus : Type :=
| PENDING | SENT_TO_BROWSER | PROCESSING | COMPLETED | TIMEOUT | ERROR.

Record PersistentRequest : Type := {
  request_id : string;
  openai_request : list (string * json);
  response_queue : nat;
  status : RequestStatus;
  created_at : Z;
  sent_to_browser_at : option Z;
  last_activity_at : option Z;
  model_name : string;
  is_streaming : json;
  accumulated_response : string
}.

#[global] Instance PersistentRequest_inhabited : Inhabited PersistentRequest :=
  populate {| request_id := ""; openai_request := []; response_queue := O;
              status := PENDING; created_at := 0; sent_to_browser_at := None;
              last_activity_at := None; model_name := ""; is_streaming := JBool true;
              accumulated_response := "" |}.

Definition set_status (st : RequestStatus) (r : PersistentRequest) : PersistentRequest :=
  {| request_id := request_id r; openai_request := openai_request r;
     response_queue := response_queue r; status := st; created_at := created_at r;
     sent_to_browser_at := sent_to_browser_at r; last_activity_at := last_activity_at r;
     model_name := model_name r; is_streaming := is_streaming r;
     accumulated_response := accumulated_response r |}.

Definition set_last_activity_at (now : Z) (r : PersistentRequest) : PersistentRequest :=
  {| request_id := request_id r; openai_request := openai_request r;
     response_queue := response_queue r; status := status r; created_at := created_at r;
     sent_to_browser_at := sent_to_browser_at r; last_activity_at := Some now;
     model_name := model_name r; is_streaming := is_streaming r;
     accumulated_response := accumulated_response r |}.

Definition set_sent_to_browser_at (now : Z) (r : PersistentRequest) : PersistentRequest :=
  {| request_id := request_id r; openai_request := openai_request r;
     response_queue := response_queue r; status := status r; created_at := created_at r;
     sent_to_browser_at := Some now; last_activity_at := last_activity_at r;
     model_name := model_name r; is_streaming := is_streaming r;
     accumulated_response := accumulated_response r |}.

(** The module globals and the manager's fields. [watchers] holds the
    [requests_to_watch] snapshot of every [request_timeout_watcher] task
    that is asleep; [consumers] holds, for every [stream_generator] that
    is running, the queue its local variable refers to; [sent] is what
    was written to websockets, oldest first. *)
Record server : Type := Server {
  active_requests : gmap string nat;
  requests : gmap nat PersistentRequest;
  queues : gmap nat (list json);
  response_channels : gmap string nat;
  browser_ws : option nat;
  SHUTTING_DOWN : bool;
  MODEL_REGISTRY : gmap string (list (string * json));
  watchers : list (gmap string nat);
  consumers : gmap string nat;
  sent : list json
}.

Definition with_active_requests (s : server) (a : gmap string nat) : server :=
  Server a (requests s) (queues s) (response_channels s) (browser_ws s) (SHUTTING_DOWN s)
         (MODEL_REGISTRY s) (watchers s) (consumers s) (sent s).

Definition with_requests (s : server) (r : gmap nat PersistentRequest) : server :=
  Server (active_requests s) r (queues s) (response_channels s) (browser_ws s)
         (SHUTTING_DOWN s) (MODEL_REGISTRY s) (watchers s) (consumers s) (sent s).

Definition with_queues (s : server) (q : gmap nat (list json)) : server :=
  Server (active_requests s) (requests s) q (response_channels s) (browser_ws s)
         (SHUTTING_DOWN s) (MODEL_REGISTRY s) (watchers s) (consumers s) (sent s).

Definition with_response_channels (s : server) (c : gmap string nat) : server :=
  Server (active_requests s) (requests s) (queues s) c (browser_ws s) (SHUTTING_DOWN s)
         (MODEL_REGISTRY s) (watchers s) (consumers s) (sent s).

Definition with_browser_ws (s : server) (w : option nat) : server :=
  Server (active_requests s) (requests s) (queues s) (response_channels s) w
         (SHUTTING_DOWN s) (MODEL_REGISTRY s) (watchers s) (consumers s) (sent s).

Definition with_SHUTTING_DOWN (s : server) (b : bool) : server :=
  Server (active_requests s) (requests s) (queues s) (response_channels s) (browser_ws s)
         b (MODEL_REGISTRY s) (watchers s) (consumers s) (sent s).

Definition with_MODEL_REGISTRY (s : server) (m : gmap string (list (string * json))) : server :=
  Server (active_requests s) (requests s) (queues s) (response_channels s) (browser_ws s)
         (SHUTTING_DOWN s) m (watchers s) (consumers s) (sent s).

Definition with_consumers (s : server) (c : gmap string nat) : server :=
  Server (active_requests s) (requests s) (queues s) (response_channels s) (browser_ws s)
         (SHUTTING_DOWN s) (MODEL_REGISTRY s) (watchers s) c (sent s).

Definition with_watchers (s : server) (w : list (gmap string nat)) : server :=
  Server (active_requests s) (requests s) (queues s) (response_channels s) (browser_ws s)
         (SHUTTING_DOWN s) (MODEL_REGISTRY s) w (consumers s) (sent s).

(** [websocket.send_text(json.dumps(frame))]. *)
Definition send_text (s : server) (frame : json) : server :=
  Server (active_requests s) (requests s) (queues s) (response_channels s) (browser_ws s)
         (SHUTTING_DOWN s) (MODEL_REGISTRY s) (watchers s) (consumers s) (sent s ++ [frame]).

(** The state at import: empty registry and channels, no link, the
    fallback model registry. *)
Definition initial : server :=
  Server ∅ ∅ ∅ ∅ None false ∅ [] ∅ [].

(** The request object a reference denotes. *)
Definition request_at (s : server) (l : nat) : PersistentRequest := requests s !!! l.

(** [queue.qsize()] contents of a queue object. *)
Definition queue_at (s : server) (q : nat) : list json := queues s !!! q.

(** [await queue.put(item)] on a queue built with
    [maxsize=BACKPRESSURE_QUEUE_SIZE]: the item goes last; [None] is a
    producer suspended on a full queue, which the model follows no
    further. *)
Definition queue_put (s : server) (q : nat) (item : json) : option server :=
  if (length (queue_at s q) <? BACKPRESSURE_QUEUE_SIZE)%nat
  then Some (with_queues s (<[q := queue_at s q ++ [item]]> (queues s)))
  else None.

(** An [HTTPException]. *)
Record http_exception : Type := HTTPException { status_code : nat; detail : string }.

(** *** [PersistentRequestManager] *)

(** [add_request]: the state after the call and the new object, or the
    exception raised. *)
Definition add_request (s : server) (id : string) (req : list (string * json))
    (queue : nat) (model : string) (streaming : json) (now : Z)
  : server * (http_exception + nat) :=
  if (MAX_CONCURRENT_REQUESTS <=? size (active_requests s))%nat then
    (s, inl (HTTPException 503 "Too many concurrent requests"))
  else
    let l := fresh (dom (requests s)) in
    let persistent_req :=
      {| request_id := id; openai_request := req; response_queue := queue;
         status := PENDING; created_at := now; sent_to_browser_at := None;
         last_activity_at := None; model_name := model; is_streaming := streaming;
         accumulated_response := "" |} in
    (with_active_requests (with_requests s (<[l := persistent_req]> (requests s)))
       (<[id := l]> (active_requests s)),
     inr l).

Definition get_request (s : server) (id : string) : option nat :=
  active_requests s !! id.

Definition update_status (s : server) (id : string) (st : RequestStatus) (now : Z) : server :=
  match active_requests s !! id with
  | Some l =>
      with_requests s (alter (fun r => set_last_activity_at now (set_status st r)) l (requests s))
  | None => s
  end.

Definition mark_sent_to_browser (s : server) (id : string) (now : Z) : server :=
  match active_requests s !! id with
  | Some l =>
      update_status (with_requests s (alter (set_sent_to_browser_at now) l (requests s)))
        id SENT_TO_BROWSER now
  | None => s
  end.

(** The f-string of [timeout_request]. *)
Definition timeout_message : string :=
  "Request timed out after " +:+ decimal REQUEST_TIMEOUT_SECONDS
  +:+ " seconds. Browser may have disconnected during Cloudflare challenge.".

Definition timeout_request (s : server) (id : string) : option server :=
  match active_requests s !! id with
  | Some l =>
      let s1 := with_requests s (alter (set_status TIMEOUT) l (requests s)) in
      s2 ← queue_put s1 (response_queue (request_at s1 l))
             (JDict [("error", JStr timeout_message)]);
      Some (with_active_requests s2 (delete id (active_requests s2)))
  | None => Some s
  end.

Definition complete_request (s : server) (id : string) : server :=
  match active_requests s !! id with
  | Some l =>
      with_active_requests (with_requests s (alter (set_status COMPLETED) l (requests s)))
        (delete id (active_requests s))
  | None => s
  end.

(** [req.status in [SENT_TO_BROWSER, PROCESSING]]. *)
Definition is_pending (st : RequestStatus) : bool :=
  match st with SENT_TO_BROWSER | PROCESSING => true | _ => false end.

Definition get_pending_requests (s : server) : gmap string nat :=
  filter (fun kv => is_pending (status (request_at s kv.2)) = true) (active_requests s).

(** One turn of the watcher's [for request_id, req in
    requests_to_watch.items()]: [l] is the object the snapshot holds. *)
Definition watch_one (s : server) (id : string) (l : nat) : option server :=
  match get_request s id with
  | Some _ => if is_pending (status (request_at s l)) then timeout_request s id else Some s
  | None => Some s
  end.

Fixpoint watch_all (s : server) (items : list (string * nat)) : option server :=
  match items with
  | [] => Some s
  | (id, l) :: rest => s' ← watch_one s id l; watch_all s' rest
  end.

(** [request_timeout_watcher] once its sleep of
    [REQUEST_TIMEOUT_SECONDS] is over. *)
Definition request_timeout_watcher (s : server) (requests_to_watch : gmap string nat)
  : option server :=
  watch_all s (map_to_list requests_to_watch).

Fixpoint timeout_all (s : server) (ids : list string) : option server :=
  match ids with
  | [] => Some s
  | id :: rest => s' ← timeout_request s id; timeout_all s' rest
  end.

(** [handle_browser_disconnect]: during shutdown the pending requests are
    timed out at once; otherwise a watcher task is created on a copy of
    the pending dict, which holds the same request objects. *)
Definition handle_browser_disconnect (s : server) : option server :=
  let pending_requests := get_pending_requests s in
  if decide (pending_requests = ∅) then Some s
  else if SHUTTING_DOWN s then timeout_all s (fst <$> map_to_list pending_requests)
  else Some (with_watchers s (watchers s ++ [pending_requests])).

(** *** [update_model_registry] *)

(** The type of a model, from its [outputCapabilities]. *)
Definition infer_model_type (model_info : list (string * json)) : string :=
  match dict_get_default model_info "capabilities" (JDict []) with
  | JDict capabilities =>
      match dict_get_default capabilities "outputCapabilities" (JDict []) with
      | JDict output_caps =>
          if dict_has output_caps "image" then "image"
          else if dict_has output_caps "video" then "video"
          else "chat"
      | _ => "chat"
      end
  | _ => "chat"
  end.

Fixpoint build_registry (items : list (string * json))
    (new_registry : gmap string (list (string * json))) : gmap string (list (string * json)) :=
  match items with
  | [] => new_registry
  | (public_name, JDict model_info) :: rest =>
      build_registry rest
        (<[public_name := dict_set model_info "type" (JStr (infer_model_type model_info))]>
           new_registry)
  | _ :: rest => build_registry rest new_registry
  end.

Definition update_model_registry (s : server) (models_data : json) : server :=
  match models_data with
  | JDict (item :: items) => with_MODEL_REGISTRY s (build_registry (item :: items) ∅)
  | _ => s
  end.

(** *** [websocket_endpoint] *)

(** An inbound frame, as the handler's chain of tests on
    [message.get("type")] reads it, with the values of its fields as
    they were sent. [Malformed] is a text that is not JSON, or JSON that
    is not an object: [json.loads] or [message.get] raises. *)
Inductive inbound : Type :=
| Malformed
| Pong
| ReconnectionHandshake (pending_request_ids : json)
| ModelRegistryUpdate (models : json)
| RequestFrame (request_id : json) (data : json).

(** [message = json.loads(message_str)] and the tests on its type, with
    [None] for a text that does not decode. *)
Definition decode_message (message : option json) : inbound :=
  match message with
  | Some (JDict message) =>
      let type := dict_get_default message "type" JNull in
      if is_str type "pong" then Pong
      else if is_str type "reconnection_handshake" then
        ReconnectionHandshake (dict_get_default message "pending_request_ids" (JList []))
      else if is_str type "model_registry" then
        ModelRegistryUpdate (dict_get_default message "models" (JDict []))
      else
        RequestFrame (dict_get_default message "request_id" JNull)
                     (dict_get_default message "data" JNull)
  | _ => Malformed
  end.

(** [for request_id in browser_pending_ids], up to the item that
    [get_request] cannot look up: the strings visited before it (an item
    that is a number, a boolean or null is looked up and not found),
    and whether such an item, a list or a dict, was met. *)
Fixpoint ids_until_unhashable (items : list json) : list string * bool :=
  match items with
  | [] => ([], false)
  | JStr id :: rest => let (ids, met) := ids_until_unhashable rest in (id :: ids, met)
  | JList _ :: _ | JDict _ :: _ => ([], true)
  | _ :: rest => ids_until_unhashable rest
  end.

(** The ids of a dict of requests, as a JSON list. *)
Definition id_list (m : gmap string nat) : json :=
  JList ((fun kv => JStr kv.1) <$> map_to_list m).

(** [await websocket.accept()] and what follows it before the receive
    loop: the new link becomes current, and pending requests are
    announced to the agent. *)
Definition websocket_accept (s : server) (ws : nat) : server :=
  let s1 := with_browser_ws s (Some ws) in
  let pending_requests := get_pending_requests s1 in
  if decide (pending_requests = ∅) then s1
  else send_text s1 (JDict [("type", JStr "reconnection_ack");
                            ("pending_request_ids", id_list pending_requests);
                            ("message", JStr ("已重连。发现 "
                                              +:+ decimal (size pending_requests)
                                              +:+ " 个待处理请求。"))]).

(** [for request_id in browser_pending_ids] of the handshake. *)
Fixpoint restore_channels (s : server) (ids : list string) (now : Z) (restored_count : nat)
  : server * nat :=
  match ids with
  | [] => (s, restored_count)
  | id :: rest =>
      match get_request s id with
      | Some l =>
          let s1 := with_response_channels s
                      (<[id := response_queue (request_at s l)]> (response_channels s)) in
          restore_channels (update_status s1 id PROCESSING now) rest now (S restored_count)
      | None => restore_channels s rest now restored_count
      end
  end.

(** The part of the loop body that routes a frame of one request. *)
Definition route_frame (s : server) (request_id : option string) (data : json) (now : Z)
  : option server :=
  let s1 :=
    match request_id with
    | Some id => if String.eqb id "" then s else update_status s id PROCESSING now
    | None => s
    end in
  match request_id with
  | None => Some s1
  | Some id =>
      match response_channels s1 !! id with
      | Some queue =>
          s2 ← queue_put s1 queue data;
          Some (if is_str data "[DONE]" then complete_request s2 id else s2)
      | None =>
          match get_request s1 id with
          | Some l =>
              let s2 := with_response_channels s1
                          (<[id := response_queue (request_at s1 l)]> (response_channels s1)) in
              s3 ← queue_put s2 (response_queue (request_at s1 l)) data;
              let s4 := update_status s3 id PROCESSING now in
              Some (if is_str data "[DONE]" then complete_request s4 id else s4)
          | None => Some s1
          end
      end
  end.

(** [for request_id, queue in response_channels.items()] of the
    [finally] block: only a channel whose request the registry no longer
    knows is told that the browser went away. *)
Fixpoint notify_orphans (s : server) (channels : list (string * nat)) : option server :=
  match channels with
  | [] => Some s
  | (id, queue) :: rest =>
      match get_request s id with
      | Some _ => notify_orphans s rest
      | None =>
          s' ← queue_put s queue (JDict [("error", JStr "Browser disconnected")]);
          notify_orphans s' rest
      end
  end.

(** The [finally] block of the handler: the link is gone. *)
Definition websocket_disconnect (s : server) : option server :=
  s1 ← handle_browser_disconnect (with_browser_ws s None);
  s2 ← notify_orphans s1 (map_to_list (response_channels s1));
  Some (with_response_channels s2 ∅).

(** One turn of [while True] in the handler. An exception other than
    the disconnect of the link is caught nowhere: the handler leaves
    through its [finally] block, with what the turn had done so far.
    This is the case of a text that does not decode to an object; of a
    handshake whose [pending_request_ids] has no [len()], or holds a
    list or a dict, which [get_request] cannot look up, after the ids
    before that item have been restored; and of a frame whose
    [request_id] is a list or a dict, which the lookups of
    [update_status] and [response_channels] refuse. A [request_id] that
    is null, a number or a boolean is in no dict of the server. *)
Definition on_message (s : server) (message : inbound) (now : Z) : option server :=
  match message with
  | Malformed => websocket_disconnect s
  | Pong => Some s
  | ReconnectionHandshake pending_request_ids =>
      match py_iter pending_request_ids with
      | None => websocket_disconnect s
      | Some items =>
          let (ids, unhashable) := ids_until_unhashable items in
          let (s1, restored_count) := restore_channels s ids now 0 in
          if unhashable then websocket_disconnect s1
          else
            Some (send_text s1 (JDict [("type", JStr "restoration_ack");
                                       ("restored_count", JNum (Z.of_nat restored_count));
                                       ("message", JStr ("已恢复 " +:+ decimal restored_count
                                                         +:+ " 个请求通道"))]))
      end
  | ModelRegistryUpdate models =>
      let s1 := update_model_registry s models in
      Some (send_text s1 (JDict [("type", JStr "model_registry_ack");
                                 ("count", JNum (Z.of_nat (size (MODEL_REGISTRY s1))))]))
  | RequestFrame request_id data =>
      match request_id with
      | JStr id => route_frame s (Some id) data now
      | JList _ | JDict _ => websocket_disconnect s
      | _ => route_frame s None data now
      end
  end.

(** *** [chat_completions], [send_to_browser_task], and the generator's
    first and last lines *)

(** What the endpoint returns: a response whose body is
    [stream_generator(request_id, model_name, is_streaming, model_type)]. *)
Record response : Type := Response {
  media_type : string;
  immediate_flush : bool;
  generator_request_id : string;
  generator_model : string;
  generator_is_streaming : bool;
  generator_model_type : string
}.

(** [model_info.get("type", "chat")] as a string. *)
Definition model_type_of (model_info : list (string * json)) : string :=
  match dict_get_default model_info "type" (JStr "chat") with
  | JStr t => t
  | _ => ""
  end.

Definition model_not_found (name : string) : http_exception :=
  HTTPException 404 ("Model '" +:+ name +:+ "' not found.").

Section Server.

Variable uuid4 : nat -> string.
Variable py_str : json -> string.
Variable exn_text : Translator.exn -> string.
Variable payload_json : Translator.arena_payload -> json.

(** The endpoint, with [uuid] the request id it draws. A missing model
    name reads [None]; an empty [model_info] is falsy and reported as not
    found; a name that cannot be a dict key (a list, a dict) makes the
    lookup raise, which the framework answers with status 500. *)
Definition chat_completions (s : server) (openai_req : list (string * json))
    (uuid : string) (now : Z) : server * (http_exception + response) :=
  match browser_ws s with
  | None => (s, inl (HTTPException 503 "Browser client not connected."))
  | Some _ =>
      let is_streaming := dict_get_default openai_req "stream" (JBool true) in
      match dict_get openai_req "model" with
      | Some (JStr model_name) =>
          match MODEL_REGISTRY s !! model_name with
          | Some (field :: fields) =>
              let model_info := field :: fields in
              let response_queue := fresh (dom (queues s)) in
              let s1 := with_response_channels
                          (with_queues s (<[response_queue := []]> (queues s)))
                          (<[uuid := response_queue]> (response_channels s)) in
              match add_request s1 uuid openai_req response_queue model_name is_streaming now with
              | (s2, inl e) => (s2, inl e)
              | (s2, inr _) =>
                  (s2, inr {| media_type := if truthy is_streaming then "text/event-stream"
                                            else "application/json";
                              immediate_flush := truthy is_streaming;
                              generator_request_id := uuid;
                              generator_model := model_name;
                              generator_is_streaming := truthy is_streaming;
                              generator_model_type := model_type_of model_info |})
              end
          | _ => (s, inl (model_not_found model_name))
          end
      | Some (JList _) | Some (JDict _) => (s, inl (HTTPException 500 "Internal Server Error"))
      | Some v => (s, inl (model_not_found (py_str v)))
      | None => (s, inl (model_not_found "None"))
      end
  end.

(** The attachments as the JSON sent to the agent. *)
Definition attachment_json (a : Translator.attachment) : json :=
  JDict [("fileName", JStr (Translator.fileName a));
         ("contentType", JStr (Translator.contentType a));
         ("data", JStr (Translator.data a))].

(** [send_to_browser_task]. [payload_json] prints the evaluation payload
    for the wire, [exn_text] an exception. A failed translation puts the
    error on the channel's queue and on the request's queue, which are
    the same object when both are bound. *)
Definition send_to_browser_task (s : server) (id : string)
    (openai_req : list (string * json)) (now : Z) : option server :=
  match browser_ws s with
  | None =>
      match get_request s id with
      | Some l => queue_put s (response_queue (request_at s l))
                    (JDict [("error", JStr "Browser not connected")])
      | None => Some s
      end
  | Some _ =>
      match Translator.create_lmarena_request_body uuid4 (MODEL_REGISTRY s) openai_req with
      | Translator.Ok (lmarena_payload, files_to_upload) =>
          Some (mark_sent_to_browser
                  (send_text s (JDict [("request_id", JStr id);
                                       ("payload", payload_json lmarena_payload);
                                       ("files_to_upload",
                                        JList (attachment_json <$> files_to_upload))]))
                  id now)
      | Translator.Raises e =>
          let failure :=
            JDict [("error", JStr ("Failed to process request: " +:+ exn_text e))] in
          s1 ← match response_channels s !! id with
               | Some queue => queue_put s queue failure
               | None => Some s
               end;
          match get_request s1 id with
          | Some l =>
              s2 ← queue_put s1 (response_queue (request_at s1 l)) failure;
              Some (update_status s2 id ERROR now)
          | None => Some s1
          end
      end
  end.

(** The first lines of [stream_generator]: the queue it will drain, from
    [response_channels] or else from the registry (rebinding the
    channel); a generator that finds none returns at once. *)
Definition generator_starts (s : server) (id : string) : server :=
  match response_channels s !! id with
  | Some queue => with_consumers s (<[id := queue]> (consumers s))
  | None =>
      match get_request s id with
      | Some l =>
          with_consumers
            (with_response_channels s
               (<[id := response_queue (request_at s l)]> (response_channels s)))
            (<[id := response_queue (request_at s l)]> (consumers s))
      | None => s
      end
  end.

(** [queue.get()]: the oldest entry leaves the queue. *)
Definition queue_get (s : server) (q : nat) : option (json * server) :=
  match queue_at s q with
  | item :: rest => Some (item, with_queues s (<[q := rest]> (queues s)))
  | [] => None
  end.

(** The [finally] block of [stream_generator]. *)
Definition generator_finally (s : server) (id : string) : server :=
  complete_request
    (with_consumers (with_response_channels s (delete id (response_channels s)))
       (delete id (consumers s)))
    id.

(** *** Runs of the server *)

Inductive event : Type :=
| PostChat (openai_req : list (string * json)) (uuid : string) (now : Z)
| SendToBrowser (id : string) (openai_req : list (string * json)) (now : Z)
| GeneratorStarts (id : string)
| Consume (id : string)
| GeneratorEnds (id : string)
| Accept (ws : nat)
| Receive (message : inbound) (now : Z)
| Disconnect
| WatcherFires (k : nat)
| Shutdown.

(** One event. [None] is a task suspended on a full queue. A watcher
    that fires leaves the list of sleeping watchers. *)
Definition step (s : server) (ev : event) : option server :=
  match ev with
  | PostChat openai_req uuid now => Some (chat_completions s openai_req uuid now).1
  | SendToBrowser id openai_req now => send_to_browser_task s id openai_req now
  | GeneratorStarts id => Some (generator_starts s id)
  | Consume id =>
      match consumers s !! id with
      | Some q => match queue_get s q with Some (_, s') => Some s' | None => Some s end
      | None => Some s
      end
  | GeneratorEnds id => Some (generator_finally s id)
  | Accept ws => Some (websocket_accept s ws)
  | Receive message now => on_message s message now
  | Disconnect => websocket_disconnect s
  | WatcherFires k =>
      match watchers s !! k with
      | Some requests_to_watch =>
          request_timeout_watcher (with_watchers s (delete k (watchers s))) requests_to_watch
      | None => Some s
      end
  | Shutdown => Some (with_SHUTTING_DOWN s true)
  end.

Fixpoint run (s : server) (events : list event) : option server :=
  match events with
  | [] => Some s
  | ev :: rest => s' ← step s ev; run s' rest
  end.

End Server.

(** *** Sequences of admissions and completions on the registry *)

Inductive registry_op : Type :=
| Add (id : string) (req : list (string * json)) (queue : nat) (model : string)
      (streaming : json) (now : Z)
| Complete (id : string).

Definition apply_op (s : server) (op : registry_op) : server :=
  match op with
  | Add id req queue model streaming now =>
      (add_request s id req queue model streaming now).1
  | Complete id => complete_request s id
  end.

Definition apply_ops (s : server) (ops : list registry_op) : server :=
  fold_left apply_op ops s.

(** ** Facts: registry and link *)

(** What never changes in a request object: its id and its queue. *)
Definition ident (o : PersistentRequest) : string * nat := (request_id o, response_queue o).

(** [s'] comes after [s] without a new admission: the registry has lost
    entries at most, the request objects are the same ones with the same
    ids and queues, and no queue object has disappeared. *)
Definition evolves (s s' : server) : Prop :=
  active_requests s' ⊆ active_requests s
  /\ (forall l, ident <$> requests s' !! l = ident <$> requests s !! l)
  /\ dom (queues s) ⊆ dom (queues s').

(** Every reference of the registry denotes an object that bears the id
    it is filed under; no two request objects share a queue; the queue of
    every request object exists. *)
Record wf (s : server) : Prop := {
  wf_active : forall id l, active_requests s !! id = Some l ->
                exists o, requests s !! l = Some o /\ request_id o = id;
  wf_queues_inj : forall l1 l2 o1 o2,
                requests s !! l1 = Some o1 -> requests s !! l2 = Some o2 ->
                response_queue o1 = response_queue o2 -> l1 = l2;
  wf_queues_dom : forall l o, requests s !! l = Some o -> response_queue o ∈ dom (queues s)
}.

(** Every request in the registry has a free slot in its queue. *)
Definition room (s : server) : Prop :=
  map_Forall
    (fun (_ : string) l =>
       (length (queue_at s (response_queue (request_at s l))) < BACKPRESSURE_QUEUE_SIZE)%nat)
    (active_requests s).

#[global] Instance room_dec s : Decision (room s).
Proof. unfold room. apply _. Defined.

Lemma evolves_refl s : evolves s s.
Proof. split; [reflexivity|]. split; [done | reflexivity]. Qed.

Lemma evolves_trans s1 s2 s3 : evolves s1 s2 -> evolves s2 s3 -> evolves s1 s3.
Proof.
  intros (Ha & Hr & Hq) (Ha' & Hr' & Hq'). repeat split.
  - etrans; [exact Ha' | exact Ha].
  - intros l. by rewrite Hr', Hr.
  - set_solver.
Qed.

Lemma evolves_lookup s s' l o :
  evolves s s' -> requests s !! l = Some o ->
  exists o', requests s' !! l = Some o' /\ ident o' = ident o.
Proof.
  intros (_ & Hr & _) Hl. specialize (Hr l). rewrite Hl in Hr.
  destruct (requests s' !! l) as [o'|]; [|discriminate].
  exists o'. split; [reflexivity|]. simpl in Hr. congruence.
Qed.

Lemma evolves_lookup_inv s s' l o' :
  evolves s s' -> requests s' !! l = Some o' ->
  exists o, requests s !! l = Some o /\ ident o' = ident o.
Proof.
  intros (_ & Hr & _) Hl. specialize (Hr l). rewrite Hl in Hr.
  destruct (requests s !! l) as [o|]; [|discriminate].
  exists o. split; [reflexivity|]. simpl in Hr. congruence.
Qed.

Lemma wf_evolves s s' : wf s -> evolves s s' -> wf s'.
Proof.
  intros [Hact Hinj Hdom] Hev. pose proof Hev as (Ha & Hr & Hq). split.
  - intros id l Hl. eapply lookup_weaken in Hl; [|exact Ha].
    destruct (Hact id l Hl) as (o & Ho & Hid).
    destruct (evolves_lookup _ _ _ _ Hev Ho) as (o' & Ho' & Hi).
    exists o'. split; [exact Ho'|]. injection Hi as Hi _. congruence.
  - intros l1 l2 o1 o2 H1 H2 Heq.
    destruct (evolves_lookup_inv _ _ _ _ Hev H1) as (p1 & Hp1 & Hi1).
    destruct (evolves_lookup_inv _ _ _ _ Hev H2) as (p2 & Hp2 & Hi2).
    injection Hi1 as _ Hi1. injection Hi2 as _ Hi2.
    eapply Hinj; eauto. congruence.
  - intros l o' Hl.
    destruct (evolves_lookup_inv _ _ _ _ Hev Hl) as (o & Ho & Hi).
    injection Hi as _ Hi. rewrite Hi. apply Hq. eapply Hdom; eauto.
Qed.

Lemma evolves_cap s s' :
  evolves s s' -> (size (active_requests s') <= size (active_requests s))%nat.
Proof. intros (Ha & _). by apply map_subseteq_size. Qed.

(** The queue of an object is the same before and after. *)
Lemma evolves_queue_of s s' l :
  evolves s s' -> response_queue (request_at s' l) = response_queue (request_at s l).
Proof.
  intros (_ & Hr & _). specialize (Hr l). unfold request_at.
  rewrite !lookup_total_alt.
  destruct (requests s' !! l), (requests s !! l); simpl in *; try discriminate; [|done].
  by injection Hr.
Qed.

Lemma evolves_alter s f l :
  (forall o, ident (f o) = ident o) ->
  evolves s (with_requests s (alter f l (requests s))).
Proof.
  intros Hf. repeat split; simpl; try done.
  intros l'. rewrite lookup_alter. case_decide; [|done]. subst.
  destruct (requests s !! l') as [o|]; simpl; [|done]. by rewrite Hf.
Qed.

Lemma evolves_update_status s id st now : evolves s (update_status s id st now).
Proof.
  unfold update_status. destruct (active_requests s !! id); [|apply evolves_refl].
  by apply evolves_alter.
Qed.

Lemma evolves_mark_sent_to_browser s id now : evolves s (mark_sent_to_browser s id now).
Proof.
  unfold mark_sent_to_browser. destruct (active_requests s !! id); [|apply evolves_refl].
  eapply evolves_trans; [|apply evolves_update_status]. by apply evolves_alter.
Qed.

Lemma evolves_delete s id :
  evolves s (with_active_requests s (delete id (active_requests s))).
Proof. repeat split; simpl; try done. apply delete_subseteq. Qed.

Lemma evolves_complete_request s id : evolves s (complete_request s id).
Proof.
  unfold complete_request. destruct (active_requests s !! id); [|apply evolves_refl].
  eapply evolves_trans; [by apply (evolves_alter s (set_status COMPLETED))|].
  apply (evolves_delete (with_requests s _)).
Qed.

Lemma evolves_queue_put s q item s' : queue_put s q item = Some s' -> evolves s s'.
Proof.
  unfold queue_put. case_match; [|discriminate]. intros [= <-].
  repeat split; simpl; try done. rewrite dom_insert. set_solver.
Qed.

Lemma evolves_timeout_request s id s' : timeout_request s id = Some s' -> evolves s s'.
Proof.
  unfold timeout_request. destruct (active_requests s !! id) as [l|]; [|intros [= <-]; apply evolves_refl].
  destruct (queue_put _ _ _) as [s2|] eqn:Hput; simpl; [|discriminate]. intros [= <-].
  eapply evolves_trans; [by apply (evolves_alter s (set_status TIMEOUT))|].
  eapply evolves_trans; [eapply evolves_queue_put; eauto|]. apply evolves_delete.
Qed.

Lemma evolves_watch_all items : forall s s', watch_all s items = Some s' -> evolves s s'.
Proof.
  induction items as [|[id l] rest IH]; intros s s'; simpl.
  - intros [= <-]. apply evolves_refl.
  - destruct (watch_one s id l) as [s1|] eqn:H1; simpl; [|discriminate]. intros H2.
    eapply evolves_trans; [|eapply IH; eauto].
    unfold watch_one in H1. destruct (get_request s id); [|injection H1 as <-; apply evolves_refl].
    destruct (is_pending _); [eapply evolves_timeout_request; eauto|].
    injection H1 as <-. apply evolves_refl.
Qed.

Lemma evolves_timeout_all ids : forall s s', timeout_all s ids = Some s' -> evolves s s'.
Proof.
  induction ids as [|id rest IH]; intros s s'; simpl.
  - intros [= <-]. apply evolves_refl.
  - destruct (timeout_request s id) as [s1|] eqn:H1; simpl; [|discriminate]. intros H2.
    eapply evolves_trans; [eapply evolves_timeout_request; eauto | eapply IH; eauto].
Qed.

Lemma evolves_handle_browser_disconnect s s' :
  handle_browser_disconnect s = Some s' -> evolves s s'.
Proof.
  unfold handle_browser_disconnect. case_decide; [intros [= <-]; apply evolves_refl|].
  destruct (SHUTTING_DOWN s); [apply evolves_timeout_all|].
  intros [= <-]. repeat split; done.
Qed.

(** A change of the fields that hold neither the registry nor an object
    store is no change for [evolves]. *)
Lemma evolves_same s s' :
  active_requests s' = active_requests s -> requests s' = requests s ->
  queues s' = queues s -> evolves s s'.
Proof. intros Ha Hr Hq. unfold evolves. rewrite Ha, Hr, Hq. apply evolves_refl. Qed.

Lemma evolves_websocket_accept s ws : evolves s (websocket_accept s ws).
Proof. unfold websocket_accept. case_decide; by apply evolves_same. Qed.

Lemma evolves_restore_channels ids : forall s now n,
  evolves s (restore_channels s ids now n).1.
Proof.
  induction ids as [|id rest IH]; intros s now n; simpl; [apply evolves_refl|].
  destruct (get_request s id) as [l|]; [|apply IH].
  eapply evolves_trans; [|apply IH].
  eapply evolves_trans; [|apply evolves_update_status]. by apply evolves_same.
Qed.

Lemma evolves_route_frame s rid data now s' :
  route_frame s rid data now = Some s' -> evolves s s'.
Proof.
  unfold route_frame.
  set (s1 := match rid with
             | Some id => if String.eqb id "" then s else update_status s id PROCESSING now
             | None => s
             end).
  assert (H1 : evolves s s1).
  { subst s1. destruct rid as [id|]; [|apply evolves_refl].
    destruct (String.eqb id ""); [apply evolves_refl | apply evolves_update_status]. }
  destruct rid as [id|]; [|intros [= <-]; exact H1].
  destruct (response_channels s1 !! id) as [q|].
  - destruct (queue_put s1 q data) as [s2|] eqn:Hput; simpl; [|discriminate]. intros [= <-].
    eapply evolves_trans; [exact H1|]. eapply evolves_trans; [eapply evolves_queue_put; eauto|].
    destruct (is_str data "[DONE]"); [apply evolves_complete_request | apply evolves_refl].
  - destruct (get_request s1 id) as [l|]; [|intros [= <-]; exact H1].
    destruct (queue_put _ _ data) as [s3|] eqn:Hput; simpl; [|discriminate]. intros [= <-].
    eapply evolves_trans; [exact H1|].
    eapply (evolves_trans _ (with_response_channels s1 _)); [by apply evolves_same|].
    eapply evolves_trans; [eapply evolves_queue_put; exact Hput|].
    eapply evolves_trans; [apply evolves_update_status|].
    destruct (is_str data "[DONE]"); [apply evolves_complete_request | apply evolves_refl].
Qed.

Lemma evolves_notify_orphans channels : forall s s',
  notify_orphans s channels = Some s' -> evolves s s'.
Proof.
  induction channels as [|[id q] rest IH]; intros s s'; simpl.
  - intros [= <-]. apply evolves_refl.
  - destruct (get_request s id); [apply IH|].
    destruct (queue_put s q _) as [s1|] eqn:Hput; simpl; [|discriminate]. intros H.
    eapply evolves_trans; [eapply evolves_queue_put; eauto | eapply IH; eauto].
Qed.

Lemma evolves_websocket_disconnect s s' : websocket_disconnect s = Some s' -> evolves s s'.
Proof.
  unfold websocket_disconnect.
  destruct (handle_browser_disconnect _) as [s1|] eqn:H1; simpl; [|discriminate].
  destruct (notify_orphans s1 _) as [s2|] eqn:H2; simpl; [|discriminate]. intros [= <-].
  eapply (evolves_trans _ (with_browser_ws s None)); [by apply evolves_same|].
  eapply evolves_trans; [eapply evolves_handle_browser_disconnect; exact H1|].
  eapply evolves_trans; [eapply evolves_notify_orphans; eauto|]. by apply evolves_same.
Qed.

Lemma evolves_on_message s message now s' :
  on_message s message now = Some s' -> evolves s s'.
Proof.
  destruct message as [| |ids|models|rid data]; cbn [on_message].
  - apply evolves_websocket_disconnect.
  - intros [= <-]. apply evolves_refl.
  - destruct (py_iter ids) as [items|]; [|apply evolves_websocket_disconnect].
    destruct (ids_until_unhashable items) as [names unhashable].
    pose proof (evolves_restore_channels names s now 0) as H.
    destruct (restore_channels s names now 0) as [s1 n]. simpl in H.
    destruct unhashable.
    + intros Hd. eapply evolves_trans; [exact H|]. by apply evolves_websocket_disconnect.
    + intros [= <-]. eapply evolves_trans; [exact H|]. by apply evolves_same.
  - intros [= <-].
    eapply (evolves_trans _ (update_model_registry s models)); [|by apply evolves_same].
    unfold update_model_registry. destruct models as [| | | | |[|item items]];
      try apply evolves_refl. by apply evolves_same.
  - destruct rid; first [apply evolves_websocket_disconnect | apply evolves_route_frame].
Qed.

Lemma evolves_queue_get s q item s' : queue_get s q = Some (item, s') -> evolves s s'.
Proof.
  unfold queue_get. destruct (queue_at s q); [discriminate|]. intros [= _ <-].
  repeat split; simpl; try done. rewrite dom_insert. set_solver.
Qed.

Section ServerFacts.

Variable uuid4 : nat -> string.
Variable py_str : json -> string.
Variable exn_text : Translator.exn -> string.
Variable payload_json : Translator.arena_payload -> json.

Lemma evolves_send_to_browser_task s id req now s' :
  send_to_browser_task uuid4 exn_text payload_json s id req now = Some s' -> evolves s s'.
Proof.
  unfold send_to_browser_task. destruct (browser_ws s).
  - destruct (Translator.create_lmarena_request_body _ _ _) as [[payload files]|e].
    + intros [= <-].
      eapply (evolves_trans _ (send_text s _)); [by apply evolves_same|].
      apply evolves_mark_sent_to_browser.
    + set (failure := JDict _).
      destruct (response_channels s !! id) as [q|]; simpl.
      * destruct (queue_put s q failure) as [s1|] eqn:H1; simpl; [|discriminate].
        destruct (get_request s1 id) as [l|].
        -- destruct (queue_put s1 _ failure) as [s2|] eqn:H2; simpl; [|discriminate].
           intros [= <-].
           eapply evolves_trans; [eapply evolves_queue_put; eauto|].
           eapply evolves_trans; [eapply evolves_queue_put; eauto|].
           apply evolves_update_status.
        -- intros [= <-]. eapply evolves_queue_put; eauto.
      * destruct (get_request s id) as [l|].
        -- destruct (queue_put s _ failure) as [s2|] eqn:H2; simpl; [|discriminate].
           intros [= <-].
           eapply evolves_trans; [eapply evolves_queue_put; eauto|].
           apply evolves_update_status.
        -- intros [= <-]. apply evolves_refl.
  - destruct (get_request s id); [apply evolves_queue_put|].
    intros [= <-]. apply evolves_refl.
Qed.

Lemma evolves_generator_starts s id : evolves s (generator_starts s id).
Proof.
  unfold generator_starts. destruct (response_channels s !! id); [by apply evolves_same|].
  destruct (get_request s id); [by apply evolves_same | apply evolves_refl].
Qed.

Lemma evolves_generator_finally s id : evolves s (generator_finally s id).
Proof.
  unfold generator_finally.
  eapply evolves_trans; [|apply evolves_complete_request]. by apply evolves_same.
Qed.

(** *** Admission *)

Lemma add_request_at_cap s id req q model streaming now :
  (MAX_CONCURRENT_REQUESTS <= size (active_requests s))%nat ->
  add_request s id req q model streaming now
  = (s, inl (HTTPException 503 "Too many concurrent requests")).
Proof.
  intros H. unfold add_request.
  destruct (Nat.leb_spec MAX_CONCURRENT_REQUESTS (size (active_requests s))); [reflexivity | lia].
Qed.

Lemma add_request_below_cap s id req q model streaming now :
  (size (active_requests s) < MAX_CONCURRENT_REQUESTS)%nat ->
  exists s' l, add_request s id req q model streaming now = (s', inr l).
Proof.
  intros H. unfold add_request.
  destruct (Nat.leb_spec MAX_CONCURRENT_REQUESTS (size (active_requests s))); [lia|]. eauto.
Qed.

Lemma add_request_cap s id req q model streaming now :
  (size (active_requests s) <= MAX_CONCURRENT_REQUESTS)%nat ->
  (size (active_requests (add_request s id req q model streaming now).1)
   <= MAX_CONCURRENT_REQUESTS)%nat.
Proof.
  intros H. unfold add_request.
  destruct (Nat.leb_spec MAX_CONCURRENT_REQUESTS (size (active_requests s))); simpl; [exact H|].
  rewrite map_size_insert. destruct (active_requests s !! id); simpl; lia.
Qed.

Lemma chat_completions_cap s req uuid now :
  (size (active_requests s) <= MAX_CONCURRENT_REQUESTS)%nat ->
  (size (active_requests (chat_completions py_str s req uuid now).1)
   <= MAX_CONCURRENT_REQUESTS)%nat.
Proof.
  intros H. unfold chat_completions.
  destruct (browser_ws s); [|exact H].
  destruct (dict_get req "model") as [[| | |name| |]|]; try exact H.
  destruct (MODEL_REGISTRY s !! name) as [[|field fields]|]; try exact H.
  set (s1 := with_response_channels _ _).
  pose proof (add_request_cap s1 uuid req (fresh (dom (queues s))) name
                (dict_get_default req "stream" (JBool true)) now H) as Hc.
  destruct (add_request s1 _ _ _ _ _ _) as [s2 [e|l]]; exact Hc.
Qed.

Lemma add_request_wf s id req q model streaming now :
  wf s -> q ∈ dom (queues s) ->
  (forall l o, requests s !! l = Some o -> response_queue o <> q) ->
  wf (add_request s id req q model streaming now).1.
Proof.
  intros [Hact Hinj Hdom] Hq Hfresh. unfold add_request.
  destruct (MAX_CONCURRENT_REQUESTS <=? size (active_requests s))%nat; simpl; [by split|].
  set (l := fresh (dom (requests s))).
  assert (Hl : requests s !! l = None).
  { apply not_elem_of_dom. apply is_fresh. }
  split; simpl.
  - intros id' l' Hid. destruct (decide (id = id')) as [<-|Hne].
    + rewrite lookup_insert_eq in Hid. injection Hid as <-.
      rewrite lookup_insert_eq. eauto.
    + rewrite lookup_insert_ne in Hid by done.
      destruct (Hact id' l' Hid) as (o & Ho & Hido).
      exists o. split; [|exact Hido]. rewrite lookup_insert_ne; [exact Ho | congruence].
  - intros l1 l2 o1 o2 H1 H2 Heq.
    destruct (decide (l = l1)) as [<-|Hn1]; destruct (decide (l = l2)) as [<-|Hn2]; try done.
    + rewrite lookup_insert_eq in H1. rewrite lookup_insert_ne in H2 by done.
      injection H1 as <-. simpl in Heq. exfalso. eapply Hfresh; eauto.
    + rewrite lookup_insert_eq in H2. rewrite lookup_insert_ne in H1 by done.
      injection H2 as <-. simpl in Heq. exfalso. eapply Hfresh; eauto.
    + rewrite lookup_insert_ne in H1, H2 by done. eapply Hinj; eauto.
  - intros l' o. destruct (decide (l = l')) as [<-|Hne].
    + rewrite lookup_insert_eq. intros [= <-]. exact Hq.
    + rewrite lookup_insert_ne by done. apply Hdom.
Qed.

Lemma chat_completions_wf s req uuid now :
  wf s -> wf (chat_completions py_str s req uuid now).1.
Proof.
  intros Hwf. unfold chat_completions.
  destruct (browser_ws s); [|exact Hwf].
  destruct (dict_get req "model") as [[| | |name| |]|]; try exact Hwf.
  destruct (MODEL_REGISTRY s !! name) as [[|field fields]|]; try exact Hwf.
  set (q := fresh (dom (queues s))).
  set (s1 := with_response_channels _ _).
  assert (Hwf1 : wf s1).
  { eapply wf_evolves; [exact Hwf|]. repeat split; simpl; try done.
    rewrite dom_insert. set_solver. }
  assert (H : wf (add_request s1 uuid req q name
                    (dict_get_default req "stream" (JBool true)) now).1).
  { apply add_request_wf; [exact Hwf1| |].
    - simpl. rewrite dom_insert. set_solver.
    - simpl. intros l o Ho Heq. apply (is_fresh (dom (queues s))).
      fold q. rewrite <- Heq. eapply wf_queues_dom; eauto. }
  destruct (add_request s1 _ _ _ _ _ _) as [s2 [e|l]]; exact H.
Qed.

Lemma wf_initial : wf initial.
Proof. split; simpl; intros *; by rewrite ?lookup_empty. Qed.

(** Apart from an admission, an event only lets the registry shrink and
    the stores grow. *)
Lemma step_evolves s ev s' :
  step uuid4 py_str exn_text payload_json s ev = Some s' ->
  (exists req uuid now, ev = PostChat req uuid now) \/ evolves s s'.
Proof.
  destruct ev as [req uuid now|id req now|id|id|id|ws|message now| |k|]; simpl.
  - eauto.
  - intros H. right. eapply evolves_send_to_browser_task; eauto.
  - intros [= <-]. right. apply evolves_generator_starts.
  - intros H. right. destruct (consumers s !! id) as [q|]; [|injection H as <-; apply evolves_refl].
    destruct (queue_get s q) as [[item s1]|] eqn:Hg; injection H as <-;
      [eapply evolves_queue_get; eauto | apply evolves_refl].
  - intros [= <-]. right. apply evolves_generator_finally.
  - intros [= <-]. right. apply evolves_websocket_accept.
  - intros H. right. eapply evolves_on_message; eauto.
  - intros H. right. eapply evolves_websocket_disconnect; eauto.
  - intros H. right. destruct (watchers s !! k) as [w|]; [|injection H as <-; apply evolves_refl].
    eapply (evolves_trans _ (with_watchers s _)); [by apply evolves_same|].
    eapply evolves_watch_all; eauto.
  - intros [= <-]. right. by apply evolves_same.
Qed.

Lemma step_wf s ev s' :
  wf s -> step uuid4 py_str exn_text payload_json s ev = Some s' -> wf s'.
Proof.
  intros Hwf Hs. destruct (step_evolves _ _ _ Hs) as [(req & uuid & now & ->)|Hev].
  - simpl in Hs. injection Hs as <-. by apply chat_completions_wf.
  - eapply wf_evolves; eauto.
Qed.

Lemma step_cap s ev s' :
  (size (active_requests s) <= MAX_CONCURRENT_REQUESTS)%nat ->
  step uuid4 py_str exn_text payload_json s ev = Some s' ->
  (size (active_requests s') <= MAX_CONCURRENT_REQUESTS)%nat.
Proof.
  intros Hc Hs. destruct (step_evolves _ _ _ Hs) as [(req & uuid & now & ->)|Hev].
  - simpl in Hs. injection Hs as <-. by apply chat_completions_cap.
  - apply evolves_cap in Hev. lia.
Qed.

(** Every state of a run of the server is well formed and within the
    concurrency cap. *)
Lemma run_invariant events : forall s s',
  wf s -> (size (active_requests s) <= MAX_CONCURRENT_REQUESTS)%nat ->
  run uuid4 py_str exn_text payload_json s events = Some s' ->
  wf s' /\ (size (active_requests s') <= MAX_CONCURRENT_REQUESTS)%nat.
Proof.
  induction events as [|ev rest IH]; intros s s' Hwf Hc; simpl.
  - intros [= <-]. by split.
  - destruct (step _ _ _ _ s ev) as [s1|] eqn:Hs; simpl; [|discriminate].
    apply IH; [eapply step_wf; eauto | eapply step_cap; eauto].
Qed.

End ServerFacts.

(** *** The timeout watcher *)

Definition timeout_entry : json := JDict [("error", JStr timeout_message)].

Lemma timeout_message_text :
  timeout_message
  = "Request timed out after 180 seconds. Browser may have disconnected during Cloudflare challenge.".
Proof. reflexivity. Qed.

Lemma request_at_lookup s l o : requests s !! l = Some o -> request_at s l = o.
Proof. intros H. unfold request_at. by rewrite lookup_total_alt, H. Qed.

(** [timeout_request] on a request of the registry whose queue has a
    free slot. *)
Lemma timeout_request_live s id l :
  active_requests s !! id = Some l ->
  (length (queue_at s (response_queue (request_at s l))) < BACKPRESSURE_QUEUE_SIZE)%nat ->
  timeout_request s id
  = Some (Server (delete id (active_requests s))
            (alter (set_status TIMEOUT) l (requests s))
            (<[response_queue (request_at s l) :=
                 queue_at s (response_queue (request_at s l)) ++ [timeout_entry]]> (queues s))
            (response_channels s) (browser_ws s) (SHUTTING_DOWN s) (MODEL_REGISTRY s)
            (watchers s) (consumers s) (sent s)).
Proof.
  intros Hl Hroom. unfold timeout_request. rewrite Hl.
  set (s1 := with_requests s _).
  assert (Hq : response_queue (request_at s1 l) = response_queue (request_at s l)).
  { apply evolves_queue_of. by apply evolves_alter. }
  rewrite Hq. unfold queue_put. change (queue_at s1 ?q) with (queue_at s q).
  destruct (Nat.ltb_spec (length (queue_at s (response_queue (request_at s l))))
              BACKPRESSURE_QUEUE_SIZE); [|lia].
  reflexivity.
Qed.

Lemma queue_at_insert_ne s q q' items :
  q <> q' -> queue_at (with_queues s (<[q := items]> (queues s))) q' = queue_at s q'.
Proof. intros Hne. unfold queue_at. simpl. by rewrite lookup_total_insert_ne. Qed.

(** Two registry entries under different ids are different objects with
    different queues. *)
Lemma wf_distinct s id1 id2 l1 l2 :
  wf s -> id1 <> id2 ->
  active_requests s !! id1 = Some l1 -> active_requests s !! id2 = Some l2 ->
  l1 <> l2 /\ response_queue (request_at s l1) <> response_queue (request_at s l2).
Proof.
  intros Hwf Hne H1 H2.
  destruct (wf_active s Hwf id1 l1 H1) as (o1 & Ho1 & Hid1).
  destruct (wf_active s Hwf id2 l2 H2) as (o2 & Ho2 & Hid2).
  assert (Hl : l1 <> l2) by (intros ->; congruence).
  split; [exact Hl|].
  rewrite (request_at_lookup _ _ _ Ho1), (request_at_lookup _ _ _ Ho2).
  intros Heq. apply Hl. eapply wf_queues_inj; eauto.
Qed.

Lemma timeout_request_room s id s' :
  wf s -> room s -> timeout_request s id = Some s' -> room s'.
Proof.
  intros Hwf Hroom Ht. pose proof (evolves_timeout_request _ _ _ Ht) as Hev.
  destruct (active_requests s !! id) as [l|] eqn:Hl.
  - rewrite (timeout_request_live s id l Hl (Hroom id l Hl)) in Ht. injection Ht as <-.
    intros id' l' Hl'. simpl in Hl'.
    destruct (decide (id = id')) as [<-|Hne]; [by rewrite lookup_delete_eq in Hl'|].
    rewrite lookup_delete_ne in Hl' by done.
    destruct (wf_distinct s id id' l l' Hwf Hne Hl Hl') as [Hll Hqq].
    rewrite (evolves_queue_of _ _ l' Hev).
    unfold queue_at at 1. simpl. rewrite lookup_total_insert_ne by done.
    by apply (Hroom id' l').
  - unfold timeout_request in Ht. rewrite Hl in Ht. by injection Ht as <-.
Qed.

Section Watched.

(** The request under study: its id, its object, the queue of the
    object. *)
Variables (id : string) (l q : nat).

(** The request is in the registry, still pending, with [Q] in its
    queue. *)
Definition live (Q : list json) (s : server) : Prop :=
  active_requests s !! id = Some l
  /\ is_pending (status (request_at s l)) = true
  /\ response_queue (request_at s l) = q
  /\ queue_at s q = Q.

(** The request has left the registry with [Q] in its queue and status
    [st], and no request of the registry shares its object or its queue. *)
Definition settled (Q : list json) (st : RequestStatus) (s : server) : Prop :=
  active_requests s !! id = None
  /\ queue_at s q = Q
  /\ status (request_at s l) = st
  /\ forall id' l', active_requests s !! id' = Some l' ->
       l' <> l /\ response_queue (request_at s l') <> q.



Lemma watch_one_target s Q :
  wf s -> room s -> live Q s ->
  exists s', watch_one s id l = Some s' /\ wf s' /\ room s'
             /\ settled (Q ++ [timeout_entry]) TIMEOUT s'.
Proof.
  intros Hwf Hroom (Ha & Hp & Hq & HQ). unfold watch_one, get_request. rewrite Ha, Hp.
  pose proof (timeout_request_live s id l Ha (Hroom id l Ha)) as Ht.
  eexists. split; [exact Ht|].
  pose proof (evolves_timeout_request _ _ _ Ht) as Hev.
  split; [eapply wf_evolves; eauto|]. split; [eapply timeout_request_room; eauto|].
  destruct (wf_active s Hwf id l Ha) as (o & Ho & Hid).
  unfold settled. simpl. split; [apply lookup_delete_eq|].
  rewrite Hq. unfold queue_at in *. simpl. rewrite lookup_total_insert_eq, HQ.
  split; [reflexivity|].
  unfold request_at in *. simpl. rewrite lookup_total_alt, lookup_alter_eq, Ho. simpl.
  split; [reflexivity|].
  intros id2 l2 H2. destruct (decide (id = id2)) as [<-|Hn2].
  - by rewrite lookup_delete_eq in H2.
  - rewrite lookup_delete_ne in H2 by done.
    destruct (wf_distinct s id id2 l l2 Hwf Hn2 Ha H2) as [Hll Hqq].
    split; [congruence|]. unfold request_at in *.
    rewrite lookup_total_alter_ne by done. congruence.
Qed.




End Watched.

(** *** The reconnection handshake *)

Lemma restore_channels_same ids : forall s now n,
  active_requests (restore_channels s ids now n).1 = active_requests s
  /\ queues (restore_channels s ids now n).1 = queues s.
Proof.
  induction ids as [|id' rest IH]; intros s now n; simpl; [done|].
  destruct (get_request s id') as [l'|]; [|apply IH].
  destruct (IH (update_status
                  (with_response_channels s
                     (<[id' := response_queue (request_at s l')]> (response_channels s)))
                  id' PROCESSING now) now (S n)) as [Ha Hq].
  rewrite Ha, Hq. unfold update_status. simpl.
  destruct (active_requests s !! id'); done.
Qed.

Section Restored.

Variables (id : string) (l q : nat).







End Restored.

(** A frame for a request whose channel is bound reaches its queue. *)
Lemma route_frame_delivers s id q data now :
  response_channels s !! id = Some q ->
  (length (queue_at s q) < BACKPRESSURE_QUEUE_SIZE)%nat ->
  exists s', route_frame s (Some id) data now = Some s'
             /\ queue_at s' q = queue_at s q ++ [data].
Proof.
  intros Hch Hroom. unfold route_frame.
  set (s1 := if String.eqb id "" then s else update_status s id PROCESSING now).
  assert (Hc1 : response_channels s1 = response_channels s).
  { subst s1. destruct (String.eqb id ""); [done|].
    unfold update_status. by destruct (active_requests s !! id). }
  assert (Hq1 : queues s1 = queues s).
  { subst s1. destruct (String.eqb id ""); [done|].
    unfold update_status. by destruct (active_requests s !! id). }
  rewrite Hc1, Hch. unfold queue_put, queue_at. rewrite Hq1.
  unfold queue_at in Hroom.
  destruct (Nat.ltb_spec (length (queues s !!! q)) BACKPRESSURE_QUEUE_SIZE); [|lia]. simpl.
  eexists. split; [reflexivity|].
  destruct (is_str data "[DONE]").
  - unfold complete_request. simpl. destruct (active_requests s1 !! id); simpl;
      by rewrite lookup_total_insert_eq.
  - simpl. by rewrite lookup_total_insert_eq.
Qed.

(** A frame for an id that no channel and no registry entry knows. *)
Lemma route_frame_unknown s rid data now :
  (forall id, rid = Some id ->
     response_channels s !! id = None /\ active_requests s !! id = None) ->
  route_frame s rid data now = Some s.
Proof.
  intros H. unfold route_frame. destruct rid as [id|]; [|reflexivity].
  destruct (H id eq_refl) as [Hc Ha].
  assert (Hu : update_status s id PROCESSING now = s).
  { unfold update_status. by rewrite Ha. }
  rewrite Hu. destruct (String.eqb id ""); unfold get_request; by rewrite Hc, Ha.
Qed.


(** *** Bounded concurrency *)

Lemma apply_ops_cap ops : forall s,
  (size (active_requests s) <= MAX_CONCURRENT_REQUESTS)%nat ->
  (size (active_requests (apply_ops s ops)) <= MAX_CONCURRENT_REQUESTS)%nat.
Proof.
  induction ops as [|op rest IH]; intros s Hc; simpl; [exact Hc|].
  apply IH. destruct op as [id req queue model streaming now|id]; simpl.
  - by apply add_request_cap.
  - pose proof (evolves_cap _ _ (evolves_complete_request s id)). lia.
Qed.

(** C1. From a registry within the cap, after any sequence of admissions
    and completions the number of live requests is at most
    [MAX_CONCURRENT_REQUESTS] = 20, and an admission tried at the cap
    raises the 503 exception and returns the state as it was. *)
Theorem live_requests_never_exceed_cap s ops :
  (size (active_requests s) <= MAX_CONCURRENT_REQUESTS)%nat ->
  MAX_CONCURRENT_REQUESTS = 20%nat
  /\ (size (active_requests (apply_ops s ops)) <= MAX_CONCURRENT_REQUESTS)%nat
  /\ forall id req queue model streaming now,
       size (active_requests (apply_ops s ops)) = MAX_CONCURRENT_REQUESTS ->
       add_request (apply_ops s ops) id req queue model streaming now
       = (apply_ops s ops, inl (HTTPException 503 "Too many concurrent requests")).
Proof.
  intros Hc. split; [reflexivity|]. split; [by apply apply_ops_cap|].
  intros id req queue model streaming now Hfull. apply add_request_at_cap. lia.
Qed.

(** Twenty-one admissions under distinct ids, then one completion. *)
Definition scenario_ops : list registry_op :=
  ((fun n => Add ("r" +:+ decimal n) [] n "M" (JBool true) 0) <$> seq 0 21)
  ++ [Complete "r3"].

Example scenario_cap_reached :
  size (active_requests (apply_ops initial (take 20 scenario_ops))) = 20%nat
  /\ size (active_requests (apply_ops initial (take 21 scenario_ops))) = 20%nat
  /\ size (active_requests (apply_ops initial scenario_ops)) = 19%nat.
Proof. vm_compute. done. Qed.

Lemma live_requests_never_exceed_cap_witness :
  MAX_CONCURRENT_REQUESTS = 20%nat
  /\ (size (active_requests (apply_ops initial scenario_ops)) <= MAX_CONCURRENT_REQUESTS)%nat
  /\ forall id req queue model streaming now,
       size (active_requests (apply_ops initial scenario_ops)) = MAX_CONCURRENT_REQUESTS ->
       add_request (apply_ops initial scenario_ops) id req queue model streaming now
       = (apply_ops initial scenario_ops,
          inl (HTTPException 503 "Too many concurrent requests")).
Proof.
  apply (live_requests_never_exceed_cap initial scenario_ops).
  vm_compute. lia.
Defined.

(** *** Frames for unknown requests *)

(** C9, as the code has it. A frame whose request id can be looked up
    (it is not a list or a dict) and is bound to no response channel and
    filed in no registry entry leaves the whole server state as it was:
    no queue receives it, no registry or channel entry changes. This is
    the case of every id whose generator has ended, since its [finally]
    block unbinds the channel and completes the request. A frame whose
    request id is a list or a dict is not dropped: the lookup raises,
    and the handler leaves through its [finally] block, which gives up
    the link. A frame for an id whose channel is still bound is put on
    the bound queue, whether the registry still knows the request or
    not. *)
Theorem unknown_frame_is_dropped s request_id data now :
  (hashable request_id = true ->
   (forall id, request_id = JStr id ->
      response_channels s !! id = None /\ active_requests s !! id = None) ->
   on_message s (RequestFrame request_id data) now = Some s)
  /\ (forall s0 id,
        on_message (generator_finally s0 id) (RequestFrame (JStr id) data) now
        = Some (generator_finally s0 id))
  /\ (hashable request_id = false ->
      on_message s (RequestFrame request_id data) now = websocket_disconnect s)
  /\ (forall id queue,
        request_id = JStr id ->
        response_channels s !! id = Some queue ->
        (length (queue_at s queue) < BACKPRESSURE_QUEUE_SIZE)%nat ->
        exists s',
          on_message s (RequestFrame request_id data) now = Some s'
          /\ queue_at s' queue = queue_at s queue ++ [data]).
Proof.
  split; [|split; [|split]].
  - intros Hh H. destruct request_id as [| | |id| |]; try discriminate; cbn [on_message];
      apply route_frame_unknown; try discriminate.
    intros id' [= <-]. by apply H.
  - intros s0 id. cbn [on_message].
    apply (route_frame_unknown (generator_finally s0 id) (Some id) data now).
    intros id' [= <-].
    unfold generator_finally, complete_request. simpl.
    destruct (active_requests s0 !! id) eqn:Ha; simpl.
    + by rewrite !lookup_delete_eq.
    + by rewrite lookup_delete_eq, Ha.
  - intros Hh. by destruct request_id.
  - intros id queue -> Hch Hroom. cbn [on_message].
    exact (route_frame_delivers s id queue data now Hch Hroom).
Qed.

Lemma unknown_frame_is_dropped_witness :
  on_message initial (RequestFrame (JStr "gone") (JStr "a0:late")) 7 = Some initial
  /\ on_message initial (RequestFrame JNull (JStr "a0:late")) 7 = Some initial
  /\ forall s0 id,
       on_message (generator_finally s0 id) (RequestFrame (JStr id) (JStr "a0:late")) 7
       = Some (generator_finally s0 id).
Proof.
  destruct (unknown_frame_is_dropped initial (JStr "gone") (JStr "a0:late") 7)
    as (Hdrop & Hended & _).
  destruct (unknown_frame_is_dropped initial JNull (JStr "a0:late") 7) as (Hnull & _).
  split; [apply Hdrop; [reflexivity | intros id _; vm_compute; done]|].
  split; [apply Hnull; [reflexivity | discriminate] | exact Hended].
Defined.

(** *** The default of [stream] *)

Section StreamDefault.

Variable py_str : json -> string.

(** An admission succeeds when a link is up, the model is registered
    with a non-empty descriptor and the registry is below the cap. *)
Lemma chat_completions_admits s req uuid now ws name field fields :
  browser_ws s = Some ws ->
  dict_get req "model" = Some (JStr name) ->
  MODEL_REGISTRY s !! name = Some (field :: fields) ->
  (size (active_requests s) < MAX_CONCURRENT_REQUESTS)%nat ->
  exists r, (chat_completions py_str s req uuid now).2 = inr r.
Proof.
  intros Hws Hm Hr Hc. unfold chat_completions. rewrite Hws, Hm, Hr. cbv zeta.
  set (s1 := with_response_channels _ _).
  destruct (add_request_below_cap s1 uuid req (fresh (dom (queues s))) name
              (dict_get_default req "stream" (JBool true)) now Hc) as (s2 & l & ->).
  eauto.
Qed.

(** C10. When the body has no [stream] field, [is_streaming] is [True]:
    whatever response the endpoint returns has media type
    [text/event-stream] and a generator run with [is_streaming] true,
    all of whose frames are SSE frames, never the bare JSON body of a
    [chat.completion]; and the endpoint does return a response once a
    link is up, the model is registered and the registry is below the
    cap. *)
Theorem omitted_stream_means_streaming s req uuid now :
  dict_get req "stream" = None ->
  (forall r, (chat_completions py_str s req uuid now).2 = inr r ->
     media_type r = "text/event-stream"
     /\ immediate_flush r = true
     /\ generator_is_streaming r = true
     /\ forall json_loads uuid4_hex response_id start events,
          Forall is_sse
            (frames_of (stream_generator json_loads py_str uuid4_hex response_id
                          (generator_model r) (generator_is_streaming r)
                          (generator_model_type r) start events)))
  /\ (forall ws name field fields,
        browser_ws s = Some ws ->
        dict_get req "model" = Some (JStr name) ->
        MODEL_REGISTRY s !! name = Some (field :: fields) ->
        (size (active_requests s) < MAX_CONCURRENT_REQUESTS)%nat ->
        exists r, (chat_completions py_str s req uuid now).2 = inr r).
Proof.
  intros Hstream. split; [|intros; eapply chat_completions_admits; eauto].
  intros r. unfold chat_completions, dict_get_default. rewrite Hstream.
  destruct (browser_ws s); [|discriminate].
  destruct (dict_get req "model") as [[| | |name| |]|]; try discriminate.
  destruct (MODEL_REGISTRY s !! name) as [[|field fields]|]; try discriminate.
  destruct (add_request _ _ _ _ _ _ _) as [s2 [e|l]]; [discriminate|].
  simpl. intros [= <-]. simpl. repeat split. intros. apply stream_generator_sse.
Qed.

End StreamDefault.


(** A literal run: the agent connects and reports the model registry, a
    client posts a chat request that is dispatched, and the link drops. *)
Definition scenario_models : json :=
  JDict [("M", JDict [("id", JStr "model-m")]);
         ("Mimg", JDict [("id", JStr "model-img");
                         ("capabilities",
                          JDict [("outputCapabilities", JDict [("image", JDict [])])])])].

Definition scenario_request : list (string * json) :=
  [("model", JStr "M");
   ("messages", JList [JDict [("role", JStr "user"); ("content", JStr "hi")]])].

Definition scenario_exn_text (e : Translator.exn) : string :=
  match e with
  | Translator.KeyError => "KeyError"
  | Translator.ValueError => "ValueError"
  | Translator.TypeError => "TypeError"
  | Translator.AttributeError => "AttributeError"
  end.

Definition scenario_payload_json (p : Translator.arena_payload) : json :=
  JDict [("id", JStr (Translator.payload_id p));
         ("mode", JStr (Translator.mode p));
         ("modelAId", Translator.modelAId p);
         ("userMessageId", JStr (Translator.userMessageId p));
         ("modelAMessageId", JStr (Translator.modelAMessageId p));
         ("modality", Translator.modality p)].

Definition scenario_run_from (s : server) (events : list event) : option server :=
  run scenario_uuid scenario_str scenario_exn_text scenario_payload_json s events.

Definition scenario_connect : list event :=
  [Accept 1; Receive (ModelRegistryUpdate scenario_models) 0].

Definition scenario_dispatch : list event :=
  scenario_connect
  ++ [PostChat scenario_request "R" 1000; GeneratorStarts "R";
      SendToBrowser "R" scenario_request 1010].

Definition scenario_state (events : list event) : server :=
  default initial (scenario_run_from initial events).

Lemma scenario_state_wf events :
  is_Some (scenario_run_from initial events) -> wf (scenario_state events).
Proof.
  intros [s Hs]. unfold scenario_state. rewrite Hs. simpl.
  eapply (run_invariant _ _ _ _ events initial s); [apply wf_initial | | exact Hs].
  vm_compute. lia.
Qed.

Lemma omitted_stream_means_streaming_witness :
  (forall r,
     (chat_completions scenario_str (scenario_state scenario_connect)
        scenario_request "R" 1000).2 = inr r ->
     media_type r = "text/event-stream"
     /\ immediate_flush r = true
     /\ generator_is_streaming r = true
     /\ forall json_loads uuid4_hex response_id start events,
          Forall is_sse
            (frames_of (stream_generator json_loads scenario_str uuid4_hex response_id
                          (generator_model r) (generator_is_streaming r)
                          (generator_model_type r) start events)))
  /\ (forall ws name field fields,
        browser_ws (scenario_state scenario_connect) = Some ws ->
        dict_get scenario_request "model" = Some (JStr name) ->
        MODEL_REGISTRY (scenario_state scenario_connect) !! name = Some (field :: fields) ->
        (size (active_requests (scenario_state scenario_connect))
         < MAX_CONCURRENT_REQUESTS)%nat ->
        exists r,
          (chat_completions scenario_str (scenario_state scenario_connect)
             scenario_request "R" 1000).2 = inr r).
Proof.
  apply (omitted_stream_means_streaming scenario_str (scenario_state scenario_connect)
           scenario_request "R" 1000).
  vm_compute. reflexivity.
Defined.

Example scenario_post_is_streamed :
  (chat_completions scenario_str (scenario_state scenario_connect)
     scenario_request "R" 1000).2
  = inr {| media_type := "text/event-stream"; immediate_flush := true;
           generator_request_id := "R"; generator_model := "M";
           generator_is_streaming := true; generator_model_type := "chat" |}.
Proof. vm_compute. reflexivity. Qed.

(** *** Disconnect, grace window, watcher *)







Definition scenario_disconnected : list event := scenario_dispatch ++ [Disconnect].



(** *** Reconnection *)



Definition scenario_reconnected : list event := scenario_disconnected ++ [Accept 2].






(** The agent finishes request R: its last frame is the sentinel. *)
Definition scenario_done : list event :=
  scenario_dispatch ++ [Receive (RequestFrame (JStr "R") (JStr "[DONE]")) 2000].

(** C9 as stated fails. The agent sends the sentinel of request R: the
    handler completes R, which leaves the registry, but R's channel
    stays bound until R's generator ends. A frame that arrives for R in
    between is for a request already completed, and it is not dropped:
    it is put on R's queue. And a frame whose request id is a list is
    bound to no channel and known to no registry entry, yet it is not
    dropped either: the lookup raises, and the handler gives up the link
    and clears every channel. *)
Lemma late_frame_of_completed_request_is_queued :
  exists s_done s_late s_torn,
    scenario_run_from initial scenario_done = Some s_done
    /\ active_requests s_done !! "R" = None
    /\ status (request_at s_done 0) = COMPLETED
    /\ response_channels s_done !! "R" = Some 0%nat
    /\ queue_at s_done 0 = [JStr "[DONE]"]
    /\ on_message s_done (RequestFrame (JStr "R") (JStr "a0:late")) 2010 = Some s_late
    /\ queue_at s_late 0 = [JStr "[DONE]"; JStr "a0:late"]
    /\ browser_ws s_done = Some 1%nat
    /\ on_message s_done (RequestFrame (JList []) (JStr "a0:late")) 2010 = Some s_torn
    /\ browser_ws s_torn = None
    /\ response_channels s_torn = ∅
    /\ queue_at s_torn 0 = [JStr "[DONE]"; JDict [("error", JStr "Browser disconnected")]].
Proof.
  exists (scenario_state scenario_done),
         (scenario_state (scenario_done ++ [Receive (RequestFrame (JStr "R") (JStr "a0:late")) 2010])),
         (scenario_state (scenario_done ++ [Receive (RequestFrame (JList []) (JStr "a0:late")) 2010])).
  vm_compute. repeat split; reflexivity.
Qed.

End Lifecycle.

(** * Further properties of the code *)

Lemma dict_get_set_eq fields key v : dict_get (dict_set fields key v) key = Some v.
Proof.
  induction fields as [|[k w] rest IH]; simpl.
  - by rewrite String.eqb_refl.
  - destruct (String.eqb k key) eqn:E; simpl; rewrite E; [reflexivity | exact IH].
Qed.

(** ** More on the stream translator *)

(** No frame of [out] is the [DONE] sentinel. *)
Definition no_done (out : list (Z * frame)) : Prop :=
  Forall (fun f : Z * frame => f.2 <> SseDone) out.

(** An OpenAI-shaped error object: a dict with the one key [error],
    whose value is a dict that has a [message]. *)
Definition is_openai_error (j : json) : Prop :=
  exists fields, j = JDict [("error", JDict fields)] /\ dict_has fields "message" = true.

Section StreamProtocol.

Variable json_loads : string -> option json.
Variable py_str : json -> string.
Variable uuid4_hex : nat -> string.
Variable response_id : string.
Variable model : string.
Variable model_type : string.

Abbreviation sse_step :=
  (loop_step json_loads py_str uuid4_hex response_id model true model_type).
Abbreviation sse_loop :=
  (run_loop json_loads py_str uuid4_hex response_id model true model_type).

(** The yield of an error in a streaming response. *)
Definition error_frames (out : list (Z * frame)) : Prop :=
  exists t e, out = [(t, SseData e); (t, SseDone)] /\ is_openai_error e.

Lemma wrap_error_openai v : is_openai_error (wrap_error py_str v).
Proof. eexists. split; reflexivity. Qed.

Lemma server_error_frames raw now r :
  server_error json_loads py_str true raw now = Some r ->
  match r with
  | Continue _ _ | Break _ _ => False
  | Return out => error_frames out
  | Raise => True
  end.
Proof.
  unfold server_error. destruct (startswith_char _ _); [|discriminate].
  destruct (json_loads _) as [[]|]; try discriminate; try (intros [= <-]; exact I).
  destruct (dict_get _ _) as [[]|]; try discriminate;
    try (intros [= <-]; eexists _, _; split; [reflexivity | apply wrap_error_openai]).
  destruct (dict_has _ _) eqn:Hm; intros [= <-]; eexists _, _; (split; [reflexivity|]).
  - eexists. split; [reflexivity | exact Hm].
  - apply wrap_error_openai.
Qed.

Lemma loop_step_frames st ev :
  match sse_step st ev with
  | Continue _ out => no_done out
  | Return out => error_frames out
  | _ => True
  end.
Proof.
  destruct ev as [raw now|now]; simpl.
  - unfold on_data. destruct (is_str raw "[DONE]"); [exact I|].
    destruct raw; try by constructor.
    + destruct (server_error _ _ _ _ _) as [r|] eqn:Es.
      { apply server_error_frames in Es. by destruct r. }
      unfold on_tagged. destruct (split_once ":" s) as [[prefix content]|]; [|by constructor].
      destruct (_ && _).
      { unfold on_a2. destruct (json_loads content) as [[| | |[]|?|[]]|]; try exact I;
          try by constructor. destruct (collect_urls _ _ _); [by constructor | exact I]. }
      destruct (_ && _).
      { unfold on_a0. destruct (json_loads content) as [[]|]; try exact I; try by constructor.
        destruct (_ || _); repeat constructor. discriminate. }
      destruct (String.eqb prefix "ad"); [|by constructor].
      unfold on_ad. destruct (json_loads content) as [[]|]; try exact I; by constructor.
    + destruct (dict_get _ _); [|by constructor].
      eexists _, _. split; [reflexivity | apply wrap_error_openai].
  - unfold on_timeout. destruct (_ && _); [|by constructor].
    destruct (_ <=? _); repeat constructor. discriminate.
Qed.

Lemma run_loop_frames events : forall st,
  match (sse_loop st events).2 with
  | Returned => exists pre err, (sse_loop st events).1 = pre ++ err
                                /\ no_done pre /\ error_frames err
  | _ => no_done (sse_loop st events).1
  end.
Proof.
  induction events as [|ev rest IH]; intros st; simpl; [constructor|].
  pose proof (loop_step_frames st ev) as Hs.
  destruct (sse_step st ev) as [st1 o|st1 t|o|]; simpl; try by constructor.
  - specialize (IH st1). destruct (sse_loop st1 rest) as [more e]. simpl in *.
    destruct e; try by apply Forall_app.
    destruct IH as (pre & err & -> & Hpre & Herr).
    exists (o ++ pre), err. split; [by rewrite app_assoc|]. split; [by apply Forall_app|done].
  - exists [], o. repeat split; [constructor | exact Hs].
Qed.

Lemma final_flush_no_done is_streaming st now :
  no_done (final_flush uuid4_hex response_id model is_streaming model_type st now).
Proof. unfold final_flush. destruct (_ && _ && _); repeat constructor. discriminate. Qed.

Lemma final_response_frames st now :
  let r := final_response py_str uuid4_hex response_id model true model_type st now in
  if r.2 then exists pre, r.1 = pre ++ [(now, SseDone)] /\ no_done pre
  else no_done r.1.
Proof.
  unfold final_response.
  pose proof (final_flush_no_done true st now) as Hf.
  destruct (if is_media model_type then _ else _) as [content|]; simpl; [|exact Hf].
  eexists. split; [by rewrite !app_assoc|].
  apply Forall_app. split; [apply Forall_app; split; [exact Hf|]|].
  - destruct (is_media model_type); repeat constructor. discriminate.
  - destruct (is_chat model_type); repeat constructor. discriminate.
Qed.

(** X1. In a streaming response, whatever the model type, the [DONE]
    sentinel is yielded at most once and only as the last frame: a run
    that reaches the sentinel of the queue ends with it, a run that meets
    an error entry ends with one OpenAI-shaped error frame followed by
    it, and a run that crashes or is still waiting has not yielded it. *)
Theorem done_sentinel_closes_stream start events :
  match stream_generator json_loads py_str uuid4_hex response_id model true model_type
          start events with
  | Finished out => exists pre t, out = pre ++ [(t, SseDone)] /\ no_done pre
  | Errored out =>
      exists pre t e,
        out = pre ++ [(t, SseData e); (t, SseDone)] /\ no_done pre /\ is_openai_error e
  | Crashed out | Waiting _ out => no_done out
  end.
Proof.
  unfold stream_generator.
  pose proof (run_loop_frames events (initial_state start)) as Hl.
  destruct (sse_loop (initial_state start) events) as [out e]. simpl in Hl.
  destruct e as [st now| | |st]; try exact Hl.
  - pose proof (final_response_frames st now) as Hf. simpl in Hf.
    destruct (final_response _ _ _ _ _ _ st now) as [closing []]; simpl in Hf.
    + destruct Hf as (pre & -> & Hpre). exists (out ++ pre), now.
      split; [by rewrite app_assoc | by apply Forall_app].
    + by apply Forall_app.
  - destruct Hl as (pre & err & -> & Hpre & t & e & -> & He). by exists pre, t, e.
Qed.

End StreamProtocol.

Section PlainResponses.

Variable json_loads : string -> option json.
Variable py_str : json -> string.
Variable uuid4_hex : nat -> string.
Variable response_id : string.
Variable model : string.

Abbreviation body_step := (loop_step json_loads py_str uuid4_hex response_id model false "chat").
Abbreviation body_loop := (run_loop json_loads py_str uuid4_hex response_id model false "chat").

Lemma server_error_body raw now r :
  server_error json_loads py_str false raw now = Some r ->
  match r with
  | Continue _ _ | Break _ _ => False
  | Return out => exists e, out = [(now, Body e)] /\ is_openai_error e
  | Raise => True
  end.
Proof.
  unfold server_error. destruct (startswith_char _ _); [|discriminate].
  destruct (json_loads _) as [[]|]; try discriminate; try (intros [= <-]; exact I).
  destruct (dict_get _ _) as [[]|]; try discriminate;
    try (intros [= <-]; eexists; split; [reflexivity | apply wrap_error_openai]).
  destruct (dict_has _ _) eqn:Hm; intros [= <-]; eexists; (split; [reflexivity|]).
  - eexists. split; [reflexivity | exact Hm].
  - apply wrap_error_openai.
Qed.

(** Without streaming, an iteration yields nothing unless it returns an
    error, and a delta goes to the accumulated content. *)
Lemma loop_step_body st ev :
  match body_step st ev with
  | Continue st' out =>
      out = [] /\ accumulated_content st +:+ payload_text json_loads ev
                 = accumulated_content st'
  | Return out => exists t e, out = [(t, Body e)] /\ is_openai_error e
  | Break st' now =>
      st' = st /\ exists raw, ev = Got raw now /\ is_str raw "[DONE]" = true
  | Raise => True
  end.
Proof.
  destruct ev as [raw now|now]; simpl.
  - unfold on_data. destruct (is_str raw "[DONE]") eqn:Edone; [by eauto|].
    destruct raw; try (split; [reflexivity | by rewrite append_nil_r]).
    + destruct (server_error _ _ _ _ _) as [r|] eqn:Es.
      { apply server_error_body in Es. destruct r; try done. destruct Es as (e & -> & He).
        by exists now, e. }
      unfold on_tagged, payload_text, a0_payload, is_media, is_chat. simpl.
      destruct (split_once ":" s) as [[prefix content]|];
        [|split; [reflexivity | by rewrite append_nil_r]].
      destruct (String.eqb prefix "a0").
      * unfold on_a0. destruct (json_loads content) as [[]|]; try exact I;
          try (split; [reflexivity | by rewrite append_nil_r]).
        split; reflexivity.
      * destruct (String.eqb prefix "ad"); [|split; [reflexivity | by rewrite append_nil_r]].
        unfold on_ad. destruct (json_loads content) as [[]|]; try exact I;
          split; try reflexivity; by rewrite append_nil_r.
    + destruct (dict_get _ _); [|split; [reflexivity | by rewrite append_nil_r]].
      eexists _, _. split; [reflexivity | apply wrap_error_openai].
  - split; [reflexivity|]. unfold payload_text. simpl. by rewrite append_nil_r.
Qed.

Lemma run_loop_body events : forall st,
  match body_loop st events with
  | (out, Broke st' now) =>
      out = [] /\ accumulated_content st +:+ received_text json_loads events
                 = accumulated_content st'
  | (out, Returned) => exists t e, out = [(t, Body e)] /\ is_openai_error e
  | (out, _) => out = []
  end.
Proof.
  induction events as [|ev rest IH]; intros st; simpl; [reflexivity|].
  pose proof (loop_step_body st ev) as Hs.
  destruct (body_step st ev) as [st1 o|st1 t|o|] eqn:Es; simpl; try done.
  - destruct Hs as [-> Hacc]. specialize (IH st1).
    assert (Hb : before_done (ev :: rest) = ev :: before_done rest).
    { destruct ev as [raw t|t]; [|reflexivity]. simpl.
      destruct (is_str raw "[DONE]") eqn:E; [|reflexivity].
      simpl in Es. unfold on_data in Es. rewrite E in Es. discriminate. }
    destruct (body_loop st1 rest) as [more e]. simpl.
    destruct e; try exact IH. destruct IH as [-> IH]. split; [reflexivity|].
    rewrite <- IH, <- Hacc, append_assoc. f_equal.
    unfold received_text at 1. rewrite Hb. simpl. unfold payload_text.
    destruct (a0_payload json_loads ev); reflexivity.
  - split; [reflexivity|]. destruct Hs as [-> (raw & -> & E)].
    unfold received_text. simpl. rewrite E. simpl. by rewrite append_nil_r.
Qed.

(** X2. A chat response without streaming is one JSON body and nothing
    else: a run that reaches the sentinel yields the [chat.completion]
    object whose message content is the concatenation of the decoded
    [a0] payloads, in arrival order; a run that meets an error entry
    yields the OpenAI-shaped error object; a run that crashes or is
    still waiting has yielded nothing. *)
Theorem plain_chat_response_is_one_body start events :
  match stream_generator json_loads py_str uuid4_hex response_id model false "chat"
          start events with
  | Finished out =>
      exists now finish n,
        out = [(now, Body (complete_response uuid4_hex response_id model now
                             (received_text json_loads events) finish n))]
        /\ truthy finish = true
  | Errored out => exists t e, out = [(t, Body e)] /\ is_openai_error e
  | Crashed out | Waiting _ out => out = []
  end.
Proof.
  unfold stream_generator.
  pose proof (run_loop_body events (initial_state start)) as Hl.
  destruct (body_loop (initial_state start) events) as [out e].
  destruct e as [st now| | |st]; try exact Hl.
  destruct Hl as [-> Hacc]. simpl in Hacc.
  unfold final_response, final_flush, is_media, is_chat. simpl.
  exists now, (finish_or_stop (finish_reason st)), (uuids st). rewrite Hacc.
  split; [reflexivity|]. unfold finish_or_stop.
  destruct (finish_reason st) as [v|]; [|reflexivity].
  destruct (truthy v) eqn:Hv; [exact Hv | reflexivity].
Qed.

End PlainResponses.

(** The truthy values of field [key] in the items of a decoded [a2]
    frame: the entry is a string, its tag is [a2], and the rest decodes
    to a list. *)
Definition a2_urls (json_loads : string -> option json) (key : string)
    (ev : queue_event) : list json :=
  match ev with
  | Got (JStr raw) _ =>
      match split_once ":" raw with
      | Some (prefix, content) =>
          if String.eqb prefix "a2" then
            match json_loads content with
            | Some (JList items) =>
                omap (fun item =>
                        match item with
                        | JDict f =>
                            let url := dict_get_default f key JNull in
                            if truthy url then Some url else None
                        | _ => None
                        end) items
            | _ => []
            end
          else []
      | None => []
      end
  | _ => []
  end.

(** The media URLs the agent sent, in arrival order. *)
Definition received_urls (json_loads : string -> option json) (key : string)
    (events : list queue_event) : list json :=
  concat (List.map (a2_urls json_loads key) (before_done events)).

(** The decoded finish reason of an [ad] frame. *)
Definition ad_finish (json_loads : string -> option json) (ev : queue_event) : option json :=
  match ev with
  | Got (JStr raw) _ =>
      match split_once ":" raw with
      | Some (prefix, content) =>
          if String.eqb prefix "ad" then
            match json_loads content with
            | Some (JDict f) => Some (dict_get_default f "finishReason" (JStr "stop"))
            | _ => None
            end
          else None
      | None => None
      end
  | _ => None
  end.

(** The finish reason a response reports: that of the last [ad] frame
    before the sentinel when it is truthy, ["stop"] otherwise. *)
Definition reported_finish (json_loads : string -> option json)
    (events : list queue_event) : json :=
  finish_or_stop (last (omap (ad_finish json_loads) (before_done events))).

Section AnyMode.

Variable json_loads : string -> option json.
Variable py_str : json -> string.
Variable uuid4_hex : nat -> string.
Variable response_id : string.
Variable model : string.
Variable is_streaming : bool.
Variable model_type : string.

Abbreviation any_step :=
  (loop_step json_loads py_str uuid4_hex response_id model is_streaming model_type).
Abbreviation any_loop :=
  (run_loop json_loads py_str uuid4_hex response_id model is_streaming model_type).

Lemma server_error_returns raw now r :
  server_error json_loads py_str is_streaming raw now = Some r ->
  r = Raise \/ exists out, r = Return out.
Proof.
  unfold server_error. destruct (startswith_char _ _); [|discriminate].
  destruct (json_loads _) as [[]|]; try discriminate; try (intros [= <-]; by left).
  destruct (dict_get _ _) as [[]|]; try discriminate;
    try (intros [= <-]; right; by eexists).
  destruct (dict_has _ _); intros [= <-]; right; by eexists.
Qed.

Lemma collect_urls_spec items : forall acc urls,
  collect_urls model_type items acc = Some urls ->
  urls = acc ++ omap (fun item =>
                        match item with
                        | JDict f =>
                            let url := dict_get_default f
                                         (if is_image model_type then "image" else "url") JNull in
                            if truthy url then Some url else None
                        | _ => None
                        end) items.
Proof.
  induction items as [|item rest IH]; intros acc urls; simpl.
  - intros [= <-]. by rewrite app_nil_r.
  - destruct item; try discriminate. intros H. apply IH in H. rewrite H.
    destruct (truthy _); [by rewrite <- app_assoc | reflexivity].
Qed.

(** One iteration, whatever the mode: the loop breaks on the sentinel
    only, and the finish reason is replaced by an [ad] frame only. *)
Lemma loop_step_any st ev :
  match any_step st ev with
  | Continue st' _ =>
      finish_reason st' = match ad_finish json_loads ev with
                          | Some v => Some v
                          | None => finish_reason st
                          end
  | Break st' now =>
      st' = st /\ exists raw, ev = Got raw now /\ is_str raw "[DONE]" = true
  | _ => True
  end.
Proof.
  destruct ev as [raw now|now]; simpl.
  - unfold on_data. destruct (is_str raw "[DONE]") eqn:Edone; [by eauto|].
    destruct raw; try reflexivity.
    + destruct (server_error _ _ _ _ _) as [r|] eqn:Es.
      { apply server_error_returns in Es as [->|[out ->]]; exact I. }
      unfold on_tagged, ad_finish.
      destruct (split_once ":" s) as [[prefix content]|]; [|reflexivity].
      destruct (String.eqb prefix "a2") eqn:E2.
      { apply String.eqb_eq in E2 as ->. simpl.
        destruct (is_media model_type); simpl.
        - unfold on_a2. destruct (json_loads content) as [[| | |[]|l|[]]|]; try done.
          by destruct (collect_urls _ _ _).
        - by destruct (is_chat model_type). }
      destruct (String.eqb prefix "a0") eqn:E0.
      { apply String.eqb_eq in E0 as ->. simpl.
        rewrite andb_false_r. destruct (is_chat model_type); simpl; [|reflexivity].
        unfold on_a0. destruct (json_loads content) as [[]|]; try done.
        destruct is_streaming; [|reflexivity].
        by destruct (_ || _). }
      rewrite !andb_false_r.
      destruct (String.eqb prefix "ad"); [|reflexivity].
      unfold on_ad. by destruct (json_loads content) as [[]|].
    + by destruct (dict_get _ _).
  - unfold on_timeout. destruct (_ && _); [|reflexivity].
    by destruct (_ <=? _).
Qed.

Lemma before_done_cons st ev st' out rest :
  any_step st ev = Continue st' out ->
  before_done (ev :: rest) = ev :: before_done rest.
Proof.
  destruct ev as [raw t|t]; [|reflexivity]. simpl.
  destruct (is_str raw "[DONE]") eqn:E; [|reflexivity].
  unfold on_data. rewrite E. discriminate.
Qed.

Lemma before_done_break st ev st' now rest :
  any_step st ev = Break st' now -> before_done (ev :: rest) = [].
Proof.
  intros Es. pose proof (loop_step_any st ev) as H. rewrite Es in H.
  destruct H as [_ (raw & -> & E)]. simpl. by rewrite E.
Qed.

Lemma run_loop_finish events : forall st out st' now,
  any_loop st events = (out, Broke st' now) ->
  finish_reason st' = match last (omap (ad_finish json_loads) (before_done events)) with
                      | Some v => Some v
                      | None => finish_reason st
                      end.
Proof.
  induction events as [|ev rest IH]; intros st out st' now; [discriminate|].
  cbn [run_loop].
  pose proof (loop_step_any st ev) as Hs.
  destruct (any_step st ev) as [st1 o|st1 t|o|] eqn:Es; try discriminate.
  - rewrite (before_done_cons _ _ _ _ rest Es).
    destruct (any_loop st1 rest) as [more e] eqn:El. intros [= <- ->].
    rewrite (IH _ _ _ _ El), Hs. simpl.
    destruct (ad_finish json_loads ev) as [v|]; [|reflexivity].
    rewrite last_cons. by destruct (last _).
  - intros [= <- <- <-]. rewrite (before_done_break _ _ _ _ rest Es).
    by destruct Hs as [-> _].
Qed.

(** The loop over a prefix that leaves the consumer polling goes on with
    the rest. *)
Lemma run_loop_app pre : forall st out st' rest,
  any_loop st pre = (out, Starved st') ->
  any_loop st (pre ++ rest) = (let (more, e) := any_loop st' rest in (out ++ more, e)).
Proof.
  induction pre as [|ev pre IH]; intros st out st' rest; simpl.
  - intros [= <- <-]. by destruct (any_loop st rest).
  - destruct (any_step st ev) as [st1 o|st1 t|o|]; try discriminate.
    destruct (any_loop st1 pre) as [more e] eqn:El. intros [= <- ->].
    rewrite (IH _ _ _ rest El). destruct (any_loop st' rest).
    by rewrite app_assoc.
Qed.

End AnyMode.

Section ClosingChunk.

Variable json_loads : string -> option json.
Variable py_str : json -> string.
Variable uuid4_hex : nat -> string.
Variable response_id : string.
Variable model : string.

(** A chunk that carries text: its [finish_reason] is null. *)
Definition is_content_chunk (f : Z * frame) : Prop :=
  exists c n, f.2 = SseData (content_chunk uuid4_hex response_id model f.1 c n).

Lemma loop_step_content_chunks st ev st' out :
  loop_step json_loads py_str uuid4_hex response_id model true "chat" st ev
  = Continue st' out ->
  Forall is_content_chunk out.
Proof.
  destruct ev as [raw now|now]; simpl.
  - unfold on_data. destruct (is_str raw "[DONE]"); [discriminate|].
    destruct raw; try (intros [= <- <-]; constructor).
    + destruct (server_error _ _ _ _ _) as [r|] eqn:Es.
      { apply server_error_returns in Es as [->|[o ->]]; discriminate. }
      unfold on_tagged, is_media, is_chat. simpl.
      destruct (split_once ":" s) as [[prefix content]|]; [|intros [= <- <-]; constructor].
      destruct (String.eqb prefix "a0").
      * unfold on_a0. destruct (json_loads content) as [[]|]; try discriminate;
          try (intros [= <- <-]; constructor).
        destruct (_ || _); intros [= <- <-]; repeat constructor. by eexists _, _.
      * destruct (String.eqb prefix "ad"); [|intros [= <- <-]; constructor].
        unfold on_ad. destruct (json_loads content) as [[]|]; try discriminate;
          intros [= <- <-]; constructor.
    + destruct (dict_get _ _); [discriminate | intros [= <- <-]; constructor].
  - unfold on_timeout, is_chat. simpl. destruct (negb _); [|intros [= <- <-]; constructor].
    destruct (_ <=? _); intros [= <- <-]; repeat constructor. by eexists _, _.
Qed.

Lemma run_loop_content_chunks events : forall st out st' now,
  run_loop json_loads py_str uuid4_hex response_id model true "chat" st events
  = (out, Broke st' now) ->
  Forall is_content_chunk out.
Proof.
  induction events as [|ev rest IH]; intros st out st' now; [discriminate|].
  cbn [run_loop].
  destruct (loop_step _ _ _ _ _ _ _ st ev) as [st1 o|st1 t|o|] eqn:Es; try discriminate.
  - destruct (run_loop _ _ _ _ _ _ _ st1 rest) as [more e] eqn:El. intros [= <- ->].
    apply Forall_app. split; [by eapply loop_step_content_chunks | by eapply IH].
  - intros [= <- _ _]. constructor.
Qed.

(** X3. A streaming chat response that reaches the sentinel closes with
    one chunk whose delta is empty and whose [finish_reason] is the one
    of the last [ad] frame received (["stop"] when there was none or it
    was falsy), followed by [DONE]; every chunk before it carries text
    and a null [finish_reason]. *)
Theorem closing_chunk_reports_finish_reason start events out :
  stream_generator json_loads py_str uuid4_hex response_id model true "chat" start events
  = Finished out ->
  exists pre now n,
    out = pre ++ [(now, SseData (make_chunk uuid4_hex response_id model now (JDict [])
                                   (reported_finish json_loads events) n));
                  (now, SseDone)]
    /\ Forall is_content_chunk pre.
Proof.
  unfold stream_generator.
  destruct (run_loop _ _ _ _ _ _ _ _ events) as [loop e] eqn:El.
  destruct e as [st now| | |st]; try discriminate.
  pose proof (run_loop_finish _ _ _ _ _ _ _ _ _ _ _ _ El) as Hfin.
  pose proof (run_loop_content_chunks _ _ _ _ _ El) as Hloop.
  unfold final_response, is_media, is_chat. simpl.
  intros [= <-].
  exists (loop ++ final_flush uuid4_hex response_id model true "chat" st now), now.
  eexists. split.
  - rewrite <- app_assoc. do 3 f_equal. unfold reported_finish.
    simpl in Hfin. rewrite Hfin. by destruct (last _).
  - apply Forall_app. split; [exact Hloop|].
    unfold final_flush, is_chat. simpl. destruct (negb _); repeat constructor.
    by eexists _, _.
Qed.

End ClosingChunk.

(** A run cut short by the token limit. *)
Definition scenario_length : list queue_event :=
  [Got (JStr ("a0:" +:+ quoted "Once upon")) 10;
   Got (JStr ("ad:{" +:+ quoted "finishReason" +:+ ":" +:+ quoted "length" +:+ "}")) 20;
   Got (JStr "[DONE]") 30].

Lemma closing_chunk_reports_finish_reason_witness :
  reported_finish scenario_loads scenario_length = JStr "length"
  /\ exists pre now n,
       scenario_out 0 scenario_length
       = pre ++ [(now, SseData (make_chunk scenario_uuid "chatcmpl-1" "M" now (JDict [])
                                  (reported_finish scenario_loads scenario_length) n));
                 (now, SseDone)]
       /\ Forall (is_content_chunk scenario_uuid "chatcmpl-1" "M") pre.
Proof.
  split; [vm_compute; reflexivity|].
  apply (closing_chunk_reports_finish_reason scenario_loads scenario_str scenario_uuid
           "chatcmpl-1" "M" 0 scenario_length).
  vm_compute. reflexivity.
Defined.

Section MediaResponses.

Variable json_loads : string -> option json.
Variable py_str : json -> string.
Variable uuid4_hex : nat -> string.
Variable response_id : string.
Variable model : string.
Variable is_streaming : bool.
Variable model_type : string.
Hypothesis media : is_media model_type = true.

Abbreviation media_step :=
  (loop_step json_loads py_str uuid4_hex response_id model is_streaming model_type).
Abbreviation media_loop :=
  (run_loop json_loads py_str uuid4_hex response_id model is_streaming model_type).

(** The field a media URL is read from. *)
Definition url_key : string := if is_image model_type then "image" else "url".

Lemma media_not_chat : is_chat model_type = false.
Proof.
  revert media. unfold is_media, is_chat.
  destruct (String.eqb_spec model_type "image") as [->|_]; [reflexivity|].
  destruct (String.eqb_spec model_type "video") as [->|_]; [reflexivity | discriminate].
Qed.

Lemma loop_step_media st ev st' out :
  media_step st ev = Continue st' out ->
  out = [] /\ media_urls st' = media_urls st ++ a2_urls json_loads url_key ev.
Proof.
  destruct ev as [raw now|now]; simpl.
  - unfold on_data. destruct (is_str raw "[DONE]"); [discriminate|].
    destruct raw; try (intros [= <- <-]; by rewrite app_nil_r).
    + destruct (server_error _ _ _ _ _) as [r|] eqn:Es.
      { apply server_error_returns in Es as [->|[o ->]]; discriminate. }
      unfold on_tagged. rewrite media, media_not_chat. simpl.
      destruct (split_once ":" s) as [[prefix content]|];
        [|intros [= <- <-]; by rewrite app_nil_r].
      destruct (String.eqb prefix "a2").
      * unfold on_a2. destruct (json_loads content) as [[| | |[]|items|[]]|];
          try discriminate; try (intros [= <- <-]; by rewrite app_nil_r).
        destruct (collect_urls _ _ _) as [urls|] eqn:Ec; [|discriminate].
        intros [= <- <-]. split; [reflexivity|]. simpl.
        by apply collect_urls_spec in Ec.
      * destruct (String.eqb prefix "ad"); [|intros [= <- <-]; by rewrite app_nil_r].
        unfold on_ad. destruct (json_loads content) as [[]|]; try discriminate;
          intros [= <- <-]; simpl; by rewrite app_nil_r.
    + destruct (dict_get _ _); [discriminate | intros [= <- <-]; by rewrite app_nil_r].
  - unfold on_timeout. rewrite media_not_chat, andb_false_r. simpl.
    intros [= <- <-]. by rewrite app_nil_r.
Qed.

Lemma run_loop_media events : forall st,
  match media_loop st events with
  | (out, Broke st' now) =>
      out = [] /\ media_urls st' = media_urls st ++ received_urls json_loads url_key events
  | (out, Returned) => True
  | (out, _) => out = []
  end.
Proof.
  induction events as [|ev rest IH]; intros st; [reflexivity|].
  cbn [run_loop].
  pose proof (loop_step_any json_loads py_str uuid4_hex response_id model
                is_streaming model_type st ev) as Hb.
  destruct (media_step st ev) as [st1 o|st1 t|o|] eqn:Es; try done.
  - apply loop_step_media in Es as Hs. destruct Hs as [-> Hurls].
    unfold received_urls. rewrite (before_done_cons _ _ _ _ _ _ _ _ _ _ _ rest Es).
    specialize (IH st1). destruct (media_loop st1 rest) as [more e]. simpl.
    destruct e; try exact IH. destruct IH as [-> IH]. split; [reflexivity|].
    rewrite IH, Hurls, <- app_assoc. reflexivity.
  - destruct Hb as [-> (raw & -> & E)]. split; [reflexivity|].
    unfold received_urls. simpl. rewrite E. simpl. by rewrite app_nil_r.
Qed.

(** X4. For an image or video model nothing is yielded before the end of
    the run. A run that reaches the sentinel yields its whole content at
    once: the truthy [image] fields (image model) or [url] fields (video
    model) of the items of every [a2] frame, in arrival order, rendered
    by [media_content]; as one chunk followed by [DONE] when streaming,
    as one JSON body otherwise. A run that crashes or is still waiting
    has yielded nothing. *)
Theorem media_response_lists_received_urls start events :
  match stream_generator json_loads py_str uuid4_hex response_id model is_streaming
          model_type start events with
  | Finished out =>
      exists now content finish n,
        media_content py_str model_type (received_urls json_loads url_key events)
        = Some content
        /\ out = if is_streaming
                 then [(now, SseData (make_chunk uuid4_hex response_id model now
                                        (JDict [("role", JStr "assistant");
                                                ("content", JStr content)]) finish n));
                       (now, SseDone)]
                 else [(now, Body (complete_response uuid4_hex response_id model now
                                     content finish n))]
  | Errored _ => True
  | Crashed out | Waiting _ out => out = []
  end.
Proof.
  unfold stream_generator.
  pose proof (run_loop_media events (initial_state start)) as Hl.
  destruct (media_loop (initial_state start) events) as [out e].
  destruct e as [st now| | |st]; try exact Hl.
  destruct Hl as [-> Hurls]. simpl in Hurls.
  unfold final_response, final_flush. rewrite media, media_not_chat, andb_false_r. simpl.
  rewrite Hurls.
  destruct (media_content _ _ _) as [content|] eqn:Ec; [|reflexivity].
  destruct is_streaming; simpl; by eexists _, _, _, _.
Qed.

End MediaResponses.

(** A decoder that also reads the one [a2] payload of the scenario. *)
Definition picture_payload : string :=
  "[{" +:+ quoted "image" +:+ ":" +:+ quoted "https://cdn.example/1.png" +:+ "}]".

Definition picture_loads (s : string) : option json :=
  if String.eqb s picture_payload
  then Some (JList [JDict [("image", JStr "https://cdn.example/1.png")]])
  else scenario_loads s.

Definition scenario_picture : list queue_event :=
  [Got (JStr ("a2:" +:+ picture_payload)) 10;
   Got (JStr ("ad:{" +:+ quoted "finishReason" +:+ ":" +:+ quoted "stop" +:+ "}")) 20;
   Got (JStr "[DONE]") 30].

Example scenario_picture_content :
  media_content scenario_str "image"
    (received_urls picture_loads (url_key "image") scenario_picture)
  = Some "![Generated Image](https://cdn.example/1.png)".
Proof. vm_compute. reflexivity. Qed.

Lemma media_response_lists_received_urls_witness :
  is_media "image" = true
  /\ exists now content finish n,
       media_content scenario_str "image"
         (received_urls picture_loads (url_key "image") scenario_picture) = Some content
       /\ frames_of (stream_generator picture_loads scenario_str scenario_uuid "chatcmpl-1"
                       "M" true "image" 0 scenario_picture)
          = [(now, SseData (make_chunk scenario_uuid "chatcmpl-1" "M" now
                              (JDict [("role", JStr "assistant");
                                      ("content", JStr content)]) finish n));
             (now, SseDone)].
Proof.
  split; [reflexivity|].
  exact (media_response_lists_received_urls picture_loads scenario_str scenario_uuid
           "chatcmpl-1" "M" true "image" eq_refl 0 scenario_picture).
Defined.

Section BrokenDelta.

Variable json_loads : string -> option json.
Variable py_str : json -> string.
Variable uuid4_hex : nat -> string.
Variable response_id : string.
Variable model : string.
Variable is_streaming : bool.

Lemma tagged_is_no_object (c : ascii) rest :
  py_isspace c = false -> Ascii.eqb "{" c = false ->
  startswith_char (strip (String c rest)) "{" = false.
Proof.
  intros Hs Hc. unfold strip. simpl. rewrite Hs. simpl.
  destruct (rstrip rest); [rewrite Hs|]; simpl; exact Hc.
Qed.

Lemma waiting_no_done start events st out :
  stream_generator json_loads py_str uuid4_hex response_id model is_streaming "chat"
    start events = Waiting st out ->
  no_done out.
Proof.
  unfold stream_generator. destruct is_streaming.
  - pose proof (run_loop_frames json_loads py_str uuid4_hex response_id model "chat"
                  events (initial_state start)) as Hd.
    destruct (run_loop _ _ _ _ _ _ _ _ events) as [o e].
    destruct e; try discriminate.
    intros [= <- <-]. exact Hd.
  - pose proof (run_loop_body json_loads py_str uuid4_hex response_id model
                  events (initial_state start)) as Hd.
    destruct (run_loop _ _ _ _ _ _ _ _ events) as [o e].
    destruct e; try discriminate.
    intros [= <- <-]. rewrite Hd. constructor.
Qed.

(** X5. A chat [a0] frame whose payload decodes to something other than
    a string ends the response on the spot, in either mode: the frames
    yielded so far are all the client gets, with no error frame and no
    [DONE] after them, and whatever the agent sends next is not read. *)
Theorem non_string_delta_ends_response_silently start pre content v now post st out :
  stream_generator json_loads py_str uuid4_hex response_id model is_streaming "chat"
    start pre = Waiting st out ->
  json_loads content = Some v ->
  (forall s, v <> JStr s) ->
  stream_generator json_loads py_str uuid4_hex response_id model is_streaming "chat"
    start (pre ++ Got (JStr ("a0:" +:+ content)) now :: post) = Crashed out
  /\ no_done out.
Proof.
  intros Hw Hv Hns. split; [|by eapply waiting_no_done].
  revert Hw. unfold stream_generator.
  destruct (run_loop _ _ _ _ _ _ _ _ pre) as [o e] eqn:El.
  destruct e as [s1 t| | |s1]; try discriminate.
  { by destruct (final_response _ _ _ _ _ _ s1 t) as [? []]. }
  intros [= <- <-].
  rewrite (run_loop_app _ _ _ _ _ _ _ _ _ _ _
             (Got (JStr ("a0:" +:+ content)) now :: post) El).
  cbn [run_loop loop_step]. unfold on_data.
  replace (is_str (JStr ("a0:" +:+ content)) "[DONE]") with false by reflexivity.
  unfold server_error. simpl String.append.
  rewrite tagged_is_no_object by reflexivity.
  unfold on_tagged, is_media, is_chat. simpl. unfold on_a0. rewrite Hv.
  destruct v; try (by rewrite app_nil_r). by destruct (Hns s).
Qed.

End BrokenDelta.

Definition scenario_broken : list queue_event :=
  [Got (JStr ("a0:{" +:+ quoted "text" +:+ ":" +:+ quoted "Hi" +:+ "}")) 2050;
   Got (JStr ("a0:" +:+ quoted "there")) 2060;
   Got (JStr "[DONE]") 2070].

Lemma non_string_delta_ends_response_silently_witness :
  exists st out,
    scenario_run 0 [Got (JStr ("a0:" +:+ quoted "He")) 2000] = Waiting st out
    /\ content_chunks out = [(2000, "He")]
    /\ scenario_run 0 (Got (JStr ("a0:" +:+ quoted "He")) 2000 :: scenario_broken)
       = Crashed out
    /\ no_done out.
Proof.
  eexists _, _. split; [vm_compute; reflexivity|]. split; [vm_compute; reflexivity|].
  eapply (non_string_delta_ends_response_silently scenario_loads scenario_str scenario_uuid
            "chatcmpl-1" "M" true 0 [Got (JStr ("a0:" +:+ quoted "He")) 2000]
            ("{" +:+ quoted "text" +:+ ":" +:+ quoted "Hi" +:+ "}")).
  - vm_compute. reflexivity.
  - vm_compute. reflexivity.
  - intros s. discriminate.
Defined.

(** ** More on the payload translator *)

Module Conversation.

Import Translator.

Section Chain.

Variable uuid4 : nat -> string.

(** The fields of the translated messages that do not depend on the
    client message. *)
Lemma build_arena_messages_lookup model_id evaluation_id first processed :
  forall i body,
    build_arena_messages uuid4 model_id evaluation_id first i processed = Ok body ->
    length body = length processed
    /\ forall k m, body !! k = Some m ->
         id m = uuid4 (first + (i + k))
         /\ parentMessageIds m
            = match (i + k)%nat with O => [] | S j => [uuid4 (first + j)] end
         /\ (role m = "user" \/ role m = "assistant" \/ role m = "data")
         /\ modelId m = (if String.eqb (role m) "assistant" then Some model_id else None)
         /\ evaluationSessionId m = evaluation_id
         /\ status m = "pending".
Proof.
  induction processed as [|msg rest IH]; intros i body; simpl.
  - intros [= <-]. split; [reflexivity|]. intros k m Hk. discriminate.
  - destruct (dict_get msg "content") as [c|]; [|discriminate].
    destruct (build_arena_messages _ _ _ _ _ rest) as [more|] eqn:E; [|discriminate]. simpl.
    intros [= <-]. destruct (IH _ _ E) as [Hlen Hrest]. split; [simpl; by rewrite Hlen|].
    intros [|k] m; simpl.
    + intros [= <-]. simpl. rewrite Nat.add_0_r. repeat split; try reflexivity.
      unfold arena_role. destruct (dict_get msg "role") as [[| | |r| |]|]; auto.
      destruct (String.eqb_spec r "user") as [->|_]; [auto|].
      destruct (String.eqb_spec r "assistant") as [->|_]; [auto|].
      destruct (String.eqb_spec r "data") as [->|_]; auto.
    + intros Hk. destruct (Hrest k m Hk) as (Hid & Hpar & Hothers).
      replace (i + S k)%nat with (S i + k)%nat by lia. auto.
Qed.

Lemma create_lmarena_request_body_session registry req payload files :
  create_lmarena_request_body uuid4 registry req = Ok (payload, files) ->
  payload_id payload = uuid4 0.
Proof.
  intros H.
  by destruct (create_lmarena_request_body_ok _ _ _ _ _ H)
    as (name & info & msgs & processed & n & body & _ & _ & _ & _ & _ & _ & _ & _ & _ & Hs & _).
Qed.

(** X6. The messages of a translated payload form one chain: each
    message after the first names the message just before it, and no
    other, as its parent; the first has no parent when the request had a
    message (and a fresh id otherwise); [modelAMessageId] is the id of
    the last message. *)
Theorem translated_messages_form_a_chain registry req payload files :
  create_lmarena_request_body uuid4 registry req = Ok (payload, files) ->
  (forall k m m', messages payload !! k = Some m -> messages payload !! S k = Some m' ->
     parentMessageIds m' = [id m])
  /\ (forall m, messages payload !! O = Some m -> (1 < length (messages payload))%nat ->
        parentMessageIds m = [])
  /\ (exists m, last (messages payload) = Some m /\ id m = modelAMessageId payload).
Proof.
  intros H.
  destruct (create_lmarena_request_body_ok _ _ _ _ _ H)
    as (name & info & msgs & processed & n & body
        & _ & _ & _ & _ & Hb & _ & _ & Hu & Hmsgs & _).
  destruct (build_arena_messages_lookup _ _ _ _ _ _ Hb) as [Hlen Hbody].
  rewrite <- Hlen in Hu. rewrite Hmsgs. split; [|split].
  - intros k m m' Hk Hk'.
    destruct (decide (S k < length body)%nat) as [Hin|Hout].
    + rewrite lookup_app_l in Hk by lia. rewrite lookup_app_l in Hk' by lia.
      destruct (Hbody _ _ Hk) as (-> & _). destruct (Hbody _ _ Hk') as (_ & -> & _).
      reflexivity.
    + assert (Hlast : S k = length body).
      { apply lookup_lt_Some in Hk'. rewrite length_app in Hk'. simpl in Hk'. lia. }
      rewrite lookup_app_l in Hk by lia.
      rewrite lookup_app_r in Hk' by lia. rewrite Hlast, Nat.sub_diag in Hk'.
      injection Hk' as <-. simpl. rewrite Hu, <- Hlast.
      by destruct (Hbody _ _ Hk) as (-> & _).
  - intros m H0 Hlong. rewrite length_app in Hlong. simpl in Hlong.
    rewrite lookup_app_l in H0 by lia. by destruct (Hbody _ _ H0) as (_ & -> & _).
  - eexists. split; [apply last_snoc | reflexivity].
Qed.

(** X7. In a translated payload every message has one of the roles user,
    assistant and data, carries the target model id exactly when its
    role is assistant, belongs to the evaluation session that is the
    payload's own id, and is pending. *)
Theorem translated_messages_are_well_formed registry req payload files :
  create_lmarena_request_body uuid4 registry req = Ok (payload, files) ->
  Forall (fun m =>
            (role m = "user" \/ role m = "assistant" \/ role m = "data")
            /\ modelId m = (if String.eqb (role m) "assistant"
                            then Some (modelAId payload) else None)
            /\ evaluationSessionId m = payload_id payload
            /\ status m = "pending")
         (messages payload).
Proof.
  intros H.
  destruct (create_lmarena_request_body_ok _ _ _ _ _ H)
    as (name & info & msgs & processed & n & body
        & _ & _ & _ & _ & Hb & _ & Hid & _ & Hmsgs & _).
  destruct (build_arena_messages_lookup _ _ _ _ _ _ Hb) as [_ Hbody].
  pose proof (create_lmarena_request_body_session _ _ _ _ H) as Hsession.
  rewrite Hmsgs. apply Forall_app. split.
  - apply Forall_lookup. intros k m Hk.
    destruct (Hbody _ _ Hk) as (_ & _ & Hr & Hm & He & Hs).
    rewrite Hid, Hsession. auto.
  - constructor; [|constructor]. simpl. auto.
Qed.

End Chain.

Lemma translated_messages_form_a_chain_witness :
  exists payload files,
    create_lmarena_request_body scenario_uuid scenario_registry scenario_prefill
    = Ok (payload, files)
    /\ length (messages payload) = 4%nat
    /\ (forall k m m', messages payload !! k = Some m -> messages payload !! S k = Some m' ->
          parentMessageIds m' = [id m])
    /\ (forall m, messages payload !! O = Some m -> (1 < length (messages payload))%nat ->
          parentMessageIds m = [])
    /\ (exists m, last (messages payload) = Some m /\ id m = modelAMessageId payload).
Proof.
  eexists _, _. split; [vm_compute; reflexivity|]. split; [reflexivity|].
  eapply (translated_messages_form_a_chain scenario_uuid scenario_registry scenario_prefill).
  vm_compute. reflexivity.
Defined.

Lemma translated_messages_are_well_formed_witness :
  exists payload files,
    create_lmarena_request_body scenario_uuid scenario_registry scenario_prefill
    = Ok (payload, files)
    /\ Forall (fun m =>
                 (role m = "user" \/ role m = "assistant" \/ role m = "data")
                 /\ modelId m = (if String.eqb (role m) "assistant"
                                 then Some (modelAId payload) else None)
                 /\ evaluationSessionId m = payload_id payload
                 /\ status m = "pending")
              (messages payload).
Proof.
  eexists _, _. split; [vm_compute; reflexivity|].
  eapply (translated_messages_are_well_formed scenario_uuid scenario_registry
            scenario_prefill).
  vm_compute. reflexivity.
Defined.

(** A message the translator cannot trip over: a dict whose content, if
    any, is not a multimodal array. *)
Definition text_only (msg : json) : Prop :=
  exists f, msg = JDict f /\ forall parts, dict_get_default f "content" (JStr "") <> JList parts.

Definition has_content (msg : list (string * json)) : Prop :=
  dict_get msg "content" <> None.

Section TextOnly.

Variable uuid4 : nat -> string.

Lemma process_message_text_only msg n :
  text_only msg ->
  exists m files n', process_message uuid4 msg n = Ok (m, files, n') /\ has_content m.
Proof.
  intros (f & -> & Hcontent). unfold process_message, has_content.
  unfold dict_get_default in *.
  destruct (dict_get f "content") as [c|] eqn:Ec.
  - destruct c as [| | | |parts|];
      try (eexists _, _, _; split; [reflexivity|]; by rewrite ?Ec, ?dict_get_set_eq).
    by destruct (Hcontent parts).
  - eexists _, _, _. split; [reflexivity|]. by rewrite dict_get_set_eq.
Qed.

Lemma process_messages_text_only msgs : forall n,
  Forall text_only msgs ->
  exists processed files n',
    process_messages uuid4 msgs n = Ok (processed, files, n')
    /\ Forall has_content processed /\ length processed = length msgs.
Proof.
  induction msgs as [|msg rest IH]; intros n Hall; simpl.
  - eexists _, _, _. split; [reflexivity|]. split; [constructor | reflexivity].
  - apply Forall_cons in Hall as [Hmsg Hrest].
    destruct (process_message_text_only msg n Hmsg) as (m & fs & n1 & E1 & Hm).
    destruct (IH n1 Hrest) as (ms & more & n2 & E2 & Hms & Hlen).
    rewrite E1. simpl. rewrite E2. simpl.
    eexists _, _, _. split; [reflexivity|]. split; [by constructor | simpl; by rewrite Hlen].
Qed.

Lemma insert_empty_user_message_content modality processed :
  Forall has_content processed ->
  Forall has_content (insert_empty_user_message modality processed)
  /\ (length processed <= length (insert_empty_user_message modality processed)
      <= S (length processed))%nat.
Proof.
  intros Hall. unfold insert_empty_user_message.
  destruct (last_user_message_index processed) as [i|]; [|split; [exact Hall | lia]].
  destruct (is_str modality "chat"); [|split; [exact Hall | lia]]. split.
  - apply Forall_app. split; [by apply Forall_take|].
    constructor; [discriminate | by apply Forall_drop].
  - rewrite length_app. simpl. rewrite length_take, length_drop. lia.
Qed.

Lemma build_arena_messages_content model_id evaluation_id first processed : forall i,
  Forall has_content processed ->
  exists body, build_arena_messages uuid4 model_id evaluation_id first i processed = Ok body.
Proof.
  induction processed as [|msg rest IH]; intros i Hall; simpl; [by eexists|].
  apply Forall_cons in Hall as [Hmsg Hrest]. unfold has_content in Hmsg.
  destruct (dict_get msg "content") as [c|]; [|done].
  destruct (IH (S i) Hrest) as [more ->]. simpl. by eexists.
Qed.

(** X8. A request for a registered model whose messages are all dicts
    with a content that is not a multimodal array (a string, or no
    content at all, or any other value) is always translated: no
    exception is raised, and the payload holds the client messages, the
    closing placeholder, and at most one inserted message. *)
Theorem text_only_request_is_translated registry req name info msgs :
  dict_get req "model" = Some (JStr name) ->
  registry !! name = Some info ->
  dict_get req "messages" = Some (JList msgs) ->
  Forall text_only msgs ->
  exists payload files,
    create_lmarena_request_body uuid4 registry req = Ok (payload, files)
    /\ (length msgs + 1 <= length (messages payload) <= length msgs + 2)%nat.
Proof.
  intros Hm Hr Hq Hall. unfold create_lmarena_request_body. rewrite Hm, Hr, Hq.
  cbn [py_iter].
  destruct (process_messages_text_only msgs 1 Hall) as (processed & fs & n & -> & Hp & Hlen).
  simpl.
  destruct (insert_empty_user_message_content
              (dict_get_default info "type" (JStr "chat")) processed Hp) as [Hins Hbound].
  destruct (build_arena_messages_content (dict_get_default info "id" (JStr name))
              (uuid4 0) n _ 0 Hins) as [body Hb].
  rewrite Hb. simpl. eexists _, _. split; [reflexivity|]. simpl.
  apply build_arena_messages_lookup in Hb as [Hbody _].
  rewrite length_app, Hbody. simpl. lia.
Qed.

End TextOnly.

Lemma text_only_request_is_translated_witness :
  exists payload files,
    create_lmarena_request_body scenario_uuid scenario_registry scenario_prefill
    = Ok (payload, files)
    /\ (2 + 1 <= length (messages payload) <= 2 + 2)%nat.
Proof.
  eapply (text_only_request_is_translated scenario_uuid scenario_registry scenario_prefill
            "M" _ [JDict [("role", JStr "user"); ("content", JStr "hi")];
                   JDict [("role", JStr "assistant"); ("content", JStr "yo")]]).
  - reflexivity.
  - vm_compute. reflexivity.
  - reflexivity.
  - repeat constructor; eexists; (split; [reflexivity|]); intros parts; discriminate.
Defined.

End Conversation.

(** ** More on the server: whole runs *)

Module Runs.

Import Lifecycle.

(** No queue holds more than [BACKPRESSURE_QUEUE_SIZE] entries. *)
Definition bounded (s : server) : Prop :=
  forall q, (length (queue_at s q) <= BACKPRESSURE_QUEUE_SIZE)%nat.

(** [s'] has the queues of [s]. *)
Definition same_queues (s s' : server) : Prop := queues s' = queues s.

Lemma bounded_same s s' : same_queues s s' -> bounded s -> bounded s'.
Proof. intros Hq Hb q. unfold queue_at. rewrite Hq. apply Hb. Qed.

Lemma bounded_insert s q items :
  (length items <= BACKPRESSURE_QUEUE_SIZE)%nat -> bounded s ->
  bounded (with_queues s (<[q := items]> (queues s))).
Proof.
  intros Hlen Hb q'. unfold queue_at. simpl. destruct (decide (q = q')) as [->|Hne].
  - by rewrite lookup_total_insert_eq.
  - rewrite lookup_total_insert_ne by done. apply Hb.
Qed.

Lemma queue_put_bounded s q item s' :
  queue_put s q item = Some s' -> bounded s -> bounded s'.
Proof.
  unfold queue_put. destruct (Nat.ltb_spec (length (queue_at s q)) BACKPRESSURE_QUEUE_SIZE);
    [|discriminate].
  intros [= <-] Hb. apply bounded_insert; [|exact Hb]. rewrite length_app. simpl. lia.
Qed.

Lemma update_status_queues s id st now : same_queues s (update_status s id st now).
Proof. unfold update_status. by destruct (active_requests s !! id). Qed.

Lemma complete_request_queues s id : same_queues s (complete_request s id).
Proof. unfold complete_request. by destruct (active_requests s !! id). Qed.

Lemma mark_sent_to_browser_queues s id now : same_queues s (mark_sent_to_browser s id now).
Proof.
  unfold mark_sent_to_browser. destruct (active_requests s !! id); [|done].
  unfold update_status. simpl. by destruct (active_requests s !! id).
Qed.

Lemma timeout_request_bounded s id s' :
  timeout_request s id = Some s' -> bounded s -> bounded s'.
Proof.
  unfold timeout_request. destruct (active_requests s !! id) as [l|]; [|by intros [= <-]].
  destruct (queue_put _ _ _) as [s2|] eqn:Hput; [|discriminate]. simpl.
  intros [= <-] Hb. apply (queue_put_bounded _ _ _ _ Hput) in Hb. exact Hb.
Qed.

Lemma timeout_all_bounded ids : forall s s',
  timeout_all s ids = Some s' -> bounded s -> bounded s'.
Proof.
  induction ids as [|id rest IH]; intros s s'; simpl; [by intros [= <-]|].
  destruct (timeout_request s id) as [s1|] eqn:Ht; [|discriminate]. simpl.
  intros Hrest Hb. eapply IH; [exact Hrest|]. by eapply timeout_request_bounded.
Qed.

Lemma watch_all_bounded items : forall s s',
  watch_all s items = Some s' -> bounded s -> bounded s'.
Proof.
  induction items as [|[id l] rest IH]; intros s s'; simpl; [by intros [= <-]|].
  destruct (watch_one s id l) as [s1|] eqn:Hw; [|discriminate]. simpl.
  intros Hrest Hb. eapply IH; [exact Hrest|].
  revert Hw. unfold watch_one. destruct (get_request s id); [|by intros [= <-]].
  destruct (is_pending _); [|by intros [= <-]].
  intros Ht. by eapply timeout_request_bounded.
Qed.

Lemma notify_orphans_bounded channels : forall s s',
  notify_orphans s channels = Some s' -> bounded s -> bounded s'.
Proof.
  induction channels as [|[id q] rest IH]; intros s s'; simpl; [by intros [= <-]|].
  destruct (get_request s id); [apply IH|].
  destruct (queue_put s q _) as [s1|] eqn:Hput; [|discriminate]. simpl.
  intros Hrest Hb. eapply IH; [exact Hrest|]. by eapply queue_put_bounded.
Qed.

Lemma websocket_disconnect_bounded s s' :
  websocket_disconnect s = Some s' -> bounded s -> bounded s'.
Proof.
  unfold websocket_disconnect.
  destruct (handle_browser_disconnect _) as [s1|] eqn:Hd; [|discriminate]. simpl.
  destruct (notify_orphans s1 _) as [s2|] eqn:Hn; [|discriminate]. simpl.
  intros [= <-] Hb. apply (bounded_same s2); [done|].
  eapply notify_orphans_bounded; [exact Hn|].
  revert Hd. unfold handle_browser_disconnect. case_decide; [by intros [= <-]|].
  simpl. destruct (SHUTTING_DOWN s).
  - intros Ht. eapply timeout_all_bounded; [exact Ht | exact Hb].
  - by intros [= <-].
Qed.

Lemma route_frame_bounded s rid data now s' :
  route_frame s rid data now = Some s' -> bounded s -> bounded s'.
Proof.
  unfold route_frame. intros Hr Hb.
  set (s1 := match rid with
             | Some id => if String.eqb id "" then s else update_status s id PROCESSING now
             | None => s
             end) in *.
  assert (Hb1 : bounded s1).
  { subst s1. destruct rid as [id|]; [|exact Hb]. destruct (String.eqb id ""); [exact Hb|].
    eapply bounded_same; [apply update_status_queues | exact Hb]. }
  destruct rid as [id|]; [|by injection Hr as <-].
  destruct (response_channels s1 !! id) as [q|].
  - destruct (queue_put s1 q data) as [s2|] eqn:Hput; [|discriminate]. simpl in Hr.
    injection Hr as <-. apply (queue_put_bounded _ _ _ _ Hput) in Hb1.
    destruct (is_str data "[DONE]"); [|exact Hb1].
    eapply bounded_same; [apply complete_request_queues | exact Hb1].
  - destruct (get_request s1 id) as [l|]; [|by injection Hr as <-].
    destruct (queue_put _ _ data) as [s3|] eqn:Hput; [|discriminate]. simpl in Hr.
    injection Hr as <-.
    assert (Hb3 : bounded s3).
    { eapply queue_put_bounded; [exact Hput|]. by eapply bounded_same; [|exact Hb1]. }
    assert (Hb4 : bounded (update_status s3 id PROCESSING now)).
    { eapply bounded_same; [apply update_status_queues | exact Hb3]. }
    destruct (is_str data "[DONE]"); [|exact Hb4].
    eapply bounded_same; [apply complete_request_queues | exact Hb4].
Qed.

Lemma on_message_bounded s message now s' :
  on_message s message now = Some s' -> bounded s -> bounded s'.
Proof.
  destruct message as [| |pending_request_ids|models|rid data]; cbn [on_message].
  - apply websocket_disconnect_bounded.
  - by intros [= <-].
  - destruct (py_iter pending_request_ids) as [items|]; [|apply websocket_disconnect_bounded].
    destruct (ids_until_unhashable items) as [ids unhashable].
    pose proof (restore_channels_same ids s now 0) as [_ Hq].
    destruct (restore_channels s ids now 0) as [s1 n]. simpl in Hq.
    destruct unhashable.
    + intros Hd Hb. eapply websocket_disconnect_bounded; [exact Hd|]. by apply (bounded_same s).
    + intros [= <-]. by apply bounded_same.
  - intros [= <-]. apply bounded_same. unfold update_model_registry.
    by destruct models as [| | | | |[|item items]].
  - destruct rid; first [apply websocket_disconnect_bounded | apply route_frame_bounded].
Qed.

Section AnyServer.

Variable uuid4 : nat -> string.
Variable py_str : json -> string.
Variable exn_text : Translator.exn -> string.
Variable payload_json : Translator.arena_payload -> json.

Lemma chat_completions_bounded s req uuid now :
  bounded s -> bounded (chat_completions py_str s req uuid now).1.
Proof.
  intros Hb. unfold chat_completions. destruct (browser_ws s); [|exact Hb].
  destruct (dict_get req "model") as [[| | |name| |]|]; try exact Hb.
  destruct (MODEL_REGISTRY s !! name) as [[|field fields]|]; try exact Hb.
  set (s1 := with_response_channels _ _).
  assert (Hb1 : bounded s1).
  { subst s1. apply (bounded_same (with_queues s (<[fresh (dom (queues s)) := []]> (queues s))));
      [done|]. apply bounded_insert; [simpl; lia | exact Hb]. }
  unfold add_request.
  destruct (MAX_CONCURRENT_REQUESTS <=? size (active_requests s1))%nat; [exact Hb1|].
  simpl. by apply (bounded_same s1).
Qed.

Lemma send_to_browser_task_bounded s id req now s' :
  send_to_browser_task uuid4 exn_text payload_json s id req now = Some s' ->
  bounded s -> bounded s'.
Proof.
  unfold send_to_browser_task. destruct (browser_ws s).
  - destruct (Translator.create_lmarena_request_body _ _ _) as [[payload files]|e].
    + intros [= <-] Hb. eapply bounded_same; [apply mark_sent_to_browser_queues|].
      by apply (bounded_same s).
    + intros Hs Hb.
      destruct (match response_channels s !! id with
                | Some queue => queue_put s queue _
                | None => Some s
                end) as [s1|] eqn:H1; [|discriminate].
      assert (Hb1 : bounded s1).
      { destruct (response_channels s !! id) as [q|].
        - by eapply queue_put_bounded.
        - by injection H1 as <-. }
      simpl in Hs. destruct (get_request s1 id) as [l|]; [|by injection Hs as <-].
      destruct (queue_put s1 _ _) as [s2|] eqn:H2; [|discriminate]. simpl in Hs.
      injection Hs as <-. eapply bounded_same; [apply update_status_queues|].
      by eapply queue_put_bounded.
  - destruct (get_request s id) as [l|]; [|by intros [= <-]].
    apply queue_put_bounded.
Qed.

Lemma step_bounded s ev s' :
  step uuid4 py_str exn_text payload_json s ev = Some s' -> bounded s -> bounded s'.
Proof.
  destruct ev as [req uuid now|id req now|id|id|id|ws|message now| |k|]; simpl.
  - intros [= <-]. apply chat_completions_bounded.
  - apply send_to_browser_task_bounded.
  - intros [= <-]. apply bounded_same. unfold generator_starts.
    destruct (response_channels s !! id); [done|]. by destruct (get_request s id).
  - destruct (consumers s !! id) as [q|]; [|by intros [= <-]].
    unfold queue_get. destruct (queue_at s q) as [|item rest] eqn:Hq; [by intros [= <-]|].
    intros [= <-] Hb. apply bounded_insert; [|exact Hb].
    specialize (Hb q). rewrite Hq in Hb. simpl in Hb. lia.
  - intros [= <-] Hb. eapply bounded_same; [apply complete_request_queues|].
    by apply (bounded_same s).
  - intros [= <-]. apply bounded_same. unfold websocket_accept. by case_decide.
  - apply on_message_bounded.
  - apply websocket_disconnect_bounded.
  - destruct (watchers s !! k) as [w|]; [|by intros [= <-]].
    intros Hw Hb. eapply watch_all_bounded; [exact Hw|]. by apply (bounded_same s).
  - intros [= <-]. by apply bounded_same.
Qed.

Lemma run_bounded events : forall s s',
  run uuid4 py_str exn_text payload_json s events = Some s' -> bounded s -> bounded s'.
Proof.
  induction events as [|ev rest IH]; intros s s'; simpl; [by intros [= <-]|].
  destruct (step _ _ _ _ s ev) as [s1|] eqn:Hs; [|discriminate]. simpl.
  intros Hr Hb. eapply IH; [exact Hr|]. by eapply step_bounded.
Qed.

(** X9. Whatever the clients, the agent and the watchers do, in every
    state a run of the server reaches from its initial state: at most
    [MAX_CONCURRENT_REQUESTS] = 20 requests are in the registry, every
    registry entry is filed under the id of its request object, no two
    request objects share a queue, and no queue holds more than
    [BACKPRESSURE_QUEUE_SIZE] = 5 entries. *)
Theorem server_runs_keep_their_bounds events s :
  run uuid4 py_str exn_text payload_json initial events = Some s ->
  (size (active_requests s) <= 20)%nat
  /\ wf s
  /\ forall q, (length (queue_at s q) <= 5)%nat.
Proof.
  intros Hr.
  destruct (run_invariant uuid4 py_str exn_text payload_json events initial s) as [Hwf Hcap].
  - apply wf_initial.
  - vm_compute. lia.
  - exact Hr.
  - split; [exact Hcap|]. split; [exact Hwf|].
    apply (run_bounded events initial s Hr). intros q. vm_compute. lia.
Qed.

End AnyServer.

Lemma server_runs_keep_their_bounds_witness :
  exists s,
    scenario_run_from initial scenario_disconnected = Some s
    /\ size (active_requests s) = 1%nat
    /\ (size (active_requests s) <= 20)%nat
    /\ wf s
    /\ forall q, (length (queue_at s q) <= 5)%nat.
Proof.
  eexists. split; [vm_compute; reflexivity|]. split; [vm_compute; reflexivity|].
  eapply (server_runs_keep_their_bounds scenario_uuid scenario_str scenario_exn_text
            scenario_payload_json scenario_disconnected).
  vm_compute. reflexivity.
Defined.


(** *** Disconnect during shutdown *)

Section ShutDown.

Variables (id : string) (l q : nat).

(** [timeout_request] for another request. *)
Lemma timeout_request_other s id' Q :
  wf s -> room s -> id' <> id ->
  exists s', timeout_request s id' = Some s' /\ wf s' /\ room s'
             /\ (live id l q Q s -> live id l q Q s')
             /\ (forall st, settled id l q Q st s -> settled id l q Q st s').
Proof.
  intros Hwf Hroom Hne.
  destruct (active_requests s !! id') as [lc|] eqn:Hlc.
  2:{ exists s. unfold timeout_request. rewrite Hlc.
      split; [reflexivity|]. split; [exact Hwf|]. split; [exact Hroom|].
      split; [tauto | intros; assumption]. }
  pose proof (timeout_request_live s id' lc Hlc (Hroom id' lc Hlc)) as Ht.
  eexists. split; [exact Ht|].
  pose proof (evolves_timeout_request _ _ _ Ht) as Hev.
  split; [eapply wf_evolves; eauto|]. split; [eapply timeout_request_room; eauto|].
  split.
  - intros (Ha & Hp & Hq & HQ).
    destruct (wf_distinct s id' id lc l Hwf Hne Hlc Ha) as [Hll Hqq].
    unfold live. simpl. rewrite lookup_delete_ne by done. split; [exact Ha|].
    unfold request_at in *. simpl. rewrite lookup_total_alter_ne by done.
    split; [exact Hp|]. split; [exact Hq|].
    unfold queue_at in *. simpl. rewrite lookup_total_insert_ne; [exact HQ | congruence].
  - intros st (Ha & HQ & Hst & Hothers).
    destruct (Hothers id' lc Hlc) as [Hll Hqq].
    unfold settled. simpl. split; [by apply lookup_delete_None; right|].
    unfold queue_at in *. simpl. rewrite lookup_total_insert_ne by done. split; [exact HQ|].
    unfold request_at in *. simpl. rewrite lookup_total_alter_ne by done. split; [exact Hst|].
    intros id2 l2 H2. destruct (decide (id' = id2)) as [<-|Hn2].
    + by rewrite lookup_delete_eq in H2.
    + rewrite lookup_delete_ne in H2 by done. destruct (Hothers id2 l2 H2) as [Ha2 Hb2].
      split; [exact Ha2|].
      pose proof (evolves_queue_of _ _ l2 Hev) as Hq2. unfold request_at in Hq2.
      simpl in Hq2. rewrite Hq2. exact Hb2.
Qed.

(** [timeout_request] for the request itself. *)
Lemma timeout_request_target s Q :
  wf s -> room s -> live id l q Q s ->
  exists s', timeout_request s id = Some s' /\ wf s' /\ room s'
             /\ settled id l q (Q ++ [timeout_entry]) TIMEOUT s'.
Proof.
  intros Hwf Hroom Hlive.
  destruct (watch_one_target id l q s Q Hwf Hroom Hlive) as (s' & Hw & Hrest).
  exists s'. split; [|exact Hrest].
  destruct Hlive as (Ha & Hp & _). revert Hw. unfold watch_one, get_request.
  by rewrite Ha, Hp.
Qed.

Lemma timeout_all_settled ids : forall s Q st,
  wf s -> room s -> settled id l q Q st s ->
  exists s', timeout_all s ids = Some s' /\ wf s' /\ room s' /\ settled id l q Q st s'.
Proof.
  induction ids as [|id' rest IH]; intros s Q st Hwf Hroom Hs; simpl.
  - by exists s.
  - destruct (decide (id' = id)) as [->|Hne].
    + assert (Ht : timeout_request s id = Some s).
      { unfold timeout_request. by rewrite (proj1 Hs). }
      rewrite Ht. simpl. by apply IH.
    + destruct (timeout_request_other s id' Q Hwf Hroom Hne) as (s1 & H1 & Hwf1 & Hr1 & _ & Hk).
      rewrite H1. simpl. apply IH; [exact Hwf1 | exact Hr1 | by apply Hk].
Qed.

Lemma timeout_all_live ids : forall s Q,
  wf s -> room s -> live id l q Q s -> id ∈ ids ->
  exists s', timeout_all s ids = Some s' /\ wf s' /\ room s'
             /\ settled id l q (Q ++ [timeout_entry]) TIMEOUT s'.
Proof.
  induction ids as [|id' rest IH]; intros s Q Hwf Hroom Hl Hin; simpl.
  - by apply elem_of_nil in Hin.
  - destruct (decide (id' = id)) as [->|Hne].
    + destruct (timeout_request_target s Q Hwf Hroom Hl) as (s1 & H1 & Hwf1 & Hr1 & Hs1).
      rewrite H1. simpl. by apply timeout_all_settled.
    + destruct (timeout_request_other s id' Q Hwf Hroom Hne) as (s1 & H1 & Hwf1 & Hr1 & Hk & _).
      rewrite H1. simpl. apply IH; [exact Hwf1 | exact Hr1 | by apply Hk |].
      apply elem_of_cons in Hin as [->|Hin]; [done | exact Hin].
Qed.

End ShutDown.

Lemma timeout_all_watchers ids : forall s s',
  timeout_all s ids = Some s' -> watchers s' = watchers s.
Proof.
  induction ids as [|id rest IH]; intros s s'; simpl; [by intros [= <-]|].
  destruct (timeout_request s id) as [s1|] eqn:Ht; [|discriminate]. simpl.
  intros Hrest. rewrite (IH _ _ Hrest). revert Ht. unfold timeout_request.
  destruct (active_requests s !! id) as [l|]; [|by intros [= <-]].
  unfold queue_put. destruct (_ <? _)%nat; [|discriminate]. simpl. by intros [= <-].
Qed.

(** X10. When the link drops while the server is shutting down, no
    watcher is started: every request then in SENT_TO_BROWSER or
    PROCESSING (in a well-formed state, with a free slot in every queue)
    is timed out before the disconnect handler returns. It gets exactly
    one more entry on its queue, the error with the timeout message, is
    marked TIMEOUT and leaves the registry. *)
Theorem shutdown_disconnect_times_out_at_once s id l :
  wf s -> room s ->
  SHUTTING_DOWN s = true ->
  active_requests s !! id = Some l ->
  is_pending (status (request_at s l)) = true ->
  exists s',
    handle_browser_disconnect s = Some s'
    /\ watchers s' = watchers s
    /\ active_requests s' !! id = None
    /\ status (request_at s' l) = TIMEOUT
    /\ queue_at s' (response_queue (request_at s l))
       = queue_at s (response_queue (request_at s l))
         ++ [JDict [("error",
                     JStr "Request timed out after 180 seconds. Browser may have disconnected during Cloudflare challenge.")]].
Proof.
  intros Hwf Hroom Hsd Ha Hp.
  assert (Hin : get_pending_requests s !! id = Some l).
  { unfold get_pending_requests. apply map_lookup_filter_Some. by split. }
  unfold handle_browser_disconnect.
  case_decide as He; [by rewrite He, lookup_empty in Hin|]. rewrite Hsd.
  destruct (timeout_all_live id l (response_queue (request_at s l))
              (fst <$> map_to_list (get_pending_requests s)) s
              (queue_at s (response_queue (request_at s l))) Hwf Hroom)
    as (s' & Ht & _ & _ & Hs).
  - by repeat split.
  - apply list_elem_of_fmap. exists (id, l). split; [reflexivity|].
    by apply elem_of_map_to_list.
  - exists s'. split; [exact Ht|]. split; [by eapply timeout_all_watchers|].
    destruct Hs as (Hgone & HQ & Hst & _). by repeat split.
Qed.

Definition scenario_shutting_down : list event := scenario_dispatch ++ [Shutdown].

Lemma scenario_shutting_down_room : room (scenario_state scenario_shutting_down).
Proof. apply (bool_decide_unpack _). vm_compute. exact I. Qed.

Lemma shutdown_disconnect_times_out_at_once_witness :
  exists s',
    handle_browser_disconnect (scenario_state scenario_shutting_down) = Some s'
    /\ watchers s' = watchers (scenario_state scenario_shutting_down)
    /\ active_requests s' !! "R" = None
    /\ status (request_at s' 0) = TIMEOUT
    /\ queue_at s' (response_queue (request_at (scenario_state scenario_shutting_down) 0))
       = queue_at (scenario_state scenario_shutting_down)
           (response_queue (request_at (scenario_state scenario_shutting_down) 0))
         ++ [JDict [("error",
                     JStr "Request timed out after 180 seconds. Browser may have disconnected during Cloudflare challenge.")]].
Proof.
  apply (shutdown_disconnect_times_out_at_once (scenario_state scenario_shutting_down) "R" 0).
  - apply scenario_state_wf. eexists. vm_compute. reflexivity.
  - exact scenario_shutting_down_room.
  - vm_compute. reflexivity.
  - vm_compute. reflexivity.
  - vm_compute. reflexivity.
Defined.


(** *** Refusals and failures of one request *)

Section Endpoint.

Variable uuid4 : nat -> string.
Variable py_str : json -> string.
Variable exn_text : Translator.exn -> string.
Variable payload_json : Translator.arena_payload -> json.

(** X11. A request refused because the registry is full gets status 503
    and leaves the registry and the request objects as they were, but
    not the channels: the queue created for it, empty, stays bound under
    its id in [response_channels], where the endpoint leaves it. *)
Theorem refused_request_leaves_its_channel s req uuid now ws name field fields :
  browser_ws s = Some ws ->
  dict_get req "model" = Some (JStr name) ->
  MODEL_REGISTRY s !! name = Some (field :: fields) ->
  (MAX_CONCURRENT_REQUESTS <= size (active_requests s))%nat ->
  exists s' q,
    chat_completions py_str s req uuid now
    = (s', inl (HTTPException 503 "Too many concurrent requests"))
    /\ active_requests s' = active_requests s
    /\ requests s' = requests s
    /\ queues s !! q = None
    /\ queues s' !! q = Some []
    /\ response_channels s' !! uuid = Some q.
Proof.
  intros Hws Hm Hr Hfull. unfold chat_completions. rewrite Hws, Hm, Hr. cbv zeta.
  rewrite add_request_at_cap by exact Hfull.
  eexists _, (fresh (dom (queues s))). split; [reflexivity|]. simpl.
  split; [reflexivity|]. split; [reflexivity|].
  split; [apply not_elem_of_dom, is_fresh|].
  split; apply lookup_insert_eq.
Qed.

Lemma queue_put_room s q item :
  (length (queue_at s q) < BACKPRESSURE_QUEUE_SIZE)%nat ->
  queue_put s q item = Some (with_queues s (<[q := queue_at s q ++ [item]]> (queues s))).
Proof.
  intros H. unfold queue_put.
  by destruct (Nat.ltb_spec (length (queue_at s q)) BACKPRESSURE_QUEUE_SIZE); [|lia].
Qed.

(** The error entry of a failed translation. *)
Definition translation_failure (e : Translator.exn) : json :=
  JDict [("error", JStr ("Failed to process request: " +:+ exn_text e))].

(** X12. When the translation of an admitted request raises, the
    background task reports the failure on the channel's queue and on
    the request's queue, which are one and the same object: the
    generator's queue receives the same error entry twice. Nothing is
    sent to the agent, and the request stays in the registry, marked
    ERROR. *)
Theorem failed_translation_is_reported_twice s req uuid now later s1 r e :
  chat_completions py_str s req uuid now = (s1, inr r) ->
  Translator.create_lmarena_request_body uuid4 (MODEL_REGISTRY s) req = Translator.Raises e ->
  exists s2 q l,
    send_to_browser_task uuid4 exn_text payload_json s1 uuid req later = Some s2
    /\ response_channels s2 !! uuid = Some q
    /\ active_requests s2 !! uuid = Some l
    /\ response_queue (request_at s2 l) = q
    /\ status (request_at s2 l) = ERROR
    /\ queue_at s2 q = [translation_failure e; translation_failure e]
    /\ sent s2 = sent s.
Proof.
  unfold chat_completions. destruct (browser_ws s) as [ws|] eqn:Hws; [|discriminate].
  destruct (dict_get req "model") as [[| | |name| |]|]; try discriminate.
  destruct (MODEL_REGISTRY s !! name) as [[|field fields]|]; try discriminate.
  cbv zeta. unfold add_request.
  destruct (MAX_CONCURRENT_REQUESTS <=? _)%nat; [discriminate|].
  cbv zeta. intros [= <- _] Hraise.
  set (q := fresh (dom (queues s))). set (l := fresh (dom (requests s))).
  set (o := {| request_id := uuid |}).
  set (s1 := with_active_requests _ _).
  assert (Hq1 : queue_at s1 q = []).
  { unfold queue_at. subst s1. simpl. apply lookup_total_insert_eq. }
  assert (Hput1 := queue_put_room s1 q (translation_failure e)).
  rewrite Hq1 in Hput1. specialize (Hput1 ltac:(unfold BACKPRESSURE_QUEUE_SIZE; simpl; lia)).
  set (s2 := with_queues s1 _) in Hput1.
  assert (Ho2 : request_at s2 l = o).
  { unfold request_at. subst s2 s1. simpl. apply lookup_total_insert_eq. }
  assert (Hq2 : queue_at s2 q = [translation_failure e]).
  { unfold queue_at. subst s2. simpl. apply lookup_total_insert_eq. }
  assert (Hput2 := queue_put_room s2 q (translation_failure e)).
  rewrite Hq2 in Hput2. specialize (Hput2 ltac:(unfold BACKPRESSURE_QUEUE_SIZE; simpl; lia)).
  set (s3 := with_queues s2 _) in Hput2.
  exists (update_status s3 uuid ERROR later), q, l.
  assert (Ha3 : active_requests s3 !! uuid = Some l) by apply lookup_insert_eq.
  split.
  { unfold send_to_browser_task.
    replace (browser_ws s1) with (Some ws) by (symmetry; exact Hws).
    replace (MODEL_REGISTRY s1) with (MODEL_REGISTRY s) by reflexivity.
    rewrite Hraise.
    replace (response_channels s1 !! uuid) with (Some q)
      by (symmetry; apply lookup_insert_eq).
    fold (translation_failure e). rewrite Hput1. cbn [mbind option_bind].
    unfold get_request. replace (active_requests s2 !! uuid) with (Some l) by (symmetry; exact Ha3).
    rewrite Ho2. subst o. cbn [response_queue]. rewrite Hput2. reflexivity. }
  unfold update_status. rewrite Ha3.
  split; [apply lookup_insert_eq|]. split; [exact Ha3|].
  unfold request_at, queue_at. simpl.
  rewrite lookup_total_alter_eq, !lookup_total_insert_eq, lookup_insert_eq.
  by repeat split.
Qed.

End Endpoint.

(** Twenty requests admitted on a live link. *)
Definition scenario_crowd : list event :=
  scenario_connect
  ++ ((fun n => PostChat scenario_request ("r" +:+ decimal n) 0) <$> seq 0 20).

Lemma refused_request_leaves_its_channel_witness :
  size (active_requests (scenario_state scenario_crowd)) = 20%nat
  /\ exists s' q,
       chat_completions scenario_str (scenario_state scenario_crowd) scenario_request
         "late" 5
       = (s', inl (HTTPException 503 "Too many concurrent requests"))
       /\ active_requests s' = active_requests (scenario_state scenario_crowd)
       /\ requests s' = requests (scenario_state scenario_crowd)
       /\ queues (scenario_state scenario_crowd) !! q = None
       /\ queues s' !! q = Some []
       /\ response_channels s' !! "late" = Some q.
Proof.
  split; [vm_compute; reflexivity|].
  eapply (refused_request_leaves_its_channel scenario_str (scenario_state scenario_crowd)
            scenario_request "late" 5 1 "M").
  - vm_compute. reflexivity.
  - reflexivity.
  - vm_compute. reflexivity.
  - vm_compute. lia.
Defined.

(** A request with no messages: the translator raises KeyError. *)
Definition scenario_no_messages : list (string * json) := [("model", JStr "M")].

Lemma failed_translation_is_reported_twice_witness :
  exists s2 q l,
    send_to_browser_task scenario_uuid scenario_exn_text scenario_payload_json
      (chat_completions scenario_str (scenario_state scenario_connect) scenario_no_messages
         "R" 1000).1
      "R" scenario_no_messages 1010 = Some s2
    /\ response_channels s2 !! "R" = Some q
    /\ active_requests s2 !! "R" = Some l
    /\ response_queue (request_at s2 l) = q
    /\ status (request_at s2 l) = ERROR
    /\ queue_at s2 q = [translation_failure scenario_exn_text Translator.KeyError;
                        translation_failure scenario_exn_text Translator.KeyError]
    /\ sent s2 = sent (scenario_state scenario_connect).
Proof.
  eapply (failed_translation_is_reported_twice scenario_uuid scenario_str scenario_exn_text
            scenario_payload_json (scenario_state scenario_connect) scenario_no_messages
            "R" 1000 1010).
  - vm_compute. reflexivity.
  - vm_compute. reflexivity.
Defined.


(** *** Frames of one request, from the link to the queue *)

Lemma route_frame_channels s id data now s' :
  route_frame s (Some id) data now = Some s' ->
  is_Some (response_channels s !! id) ->
  response_channels s' = response_channels s.
Proof.
  unfold route_frame.
  set (s1 := if String.eqb id "" then s else update_status s id PROCESSING now).
  assert (Hc1 : response_channels s1 = response_channels s).
  { subst s1. destruct (String.eqb id ""); [done|].
    unfold update_status. by destruct (active_requests s !! id). }
  intros Hr [q Hq]. rewrite Hc1, Hq in Hr.
  unfold queue_put in Hr. destruct (_ <? _)%nat; [|discriminate]. simpl in Hr.
  injection Hr as <-. destruct (is_str data "[DONE]"); [|exact Hc1].
  unfold complete_request. simpl. by destruct (active_requests s1 !! id).
Qed.

(** The frames of one request as the handler receives them. *)
Definition frames_for (id : string) (frames : list (json * Z)) : list event :=
  (fun f => Receive (RequestFrame (JStr id) f.1) f.2) <$> frames.

Section Delivery.

Variable uuid4 : nat -> string.
Variable py_str : json -> string.
Variable exn_text : Translator.exn -> string.
Variable payload_json : Translator.arena_payload -> json.

(** X13. While the channel of a request is bound and its queue has room
    for them, the frames the agent sends for it reach that queue one by
    one, in the order of arrival, after what the queue held: none is
    dropped, doubled or reordered, whatever they hold (a [DONE] among
    them included), and the channel stays bound. *)
Theorem frames_reach_the_queue_in_order frames : forall s id q,
  response_channels s !! id = Some q ->
  (length (queue_at s q) + length frames <= BACKPRESSURE_QUEUE_SIZE)%nat ->
  exists s',
    run uuid4 py_str exn_text payload_json s (frames_for id frames) = Some s'
    /\ queue_at s' q = queue_at s q ++ frames.*1
    /\ response_channels s' !! id = Some q.
Proof.
  induction frames as [|[data now] rest IH]; intros s id q Hch Hroom.
  - exists s. split; [reflexivity|]. split; [by rewrite app_nil_r | exact Hch].
  - simpl in Hroom. cbn [frames_for fmap list_fmap run step on_message fst snd].
    destruct (route_frame_delivers s id q data now Hch) as (s1 & Hr & Hq1); [lia|].
    rewrite Hr. cbn [mbind option_bind].
    assert (Hch1 : response_channels s1 !! id = Some q).
    { rewrite (route_frame_channels _ _ _ _ _ Hr); [exact Hch | by eexists]. }
    destruct (IH s1 id q Hch1) as (s' & Hrun & Hq' & Hch').
    { rewrite Hq1, length_app. simpl. lia. }
    exists s'. split; [exact Hrun|]. split; [|exact Hch'].
    rewrite Hq', Hq1, <- app_assoc. reflexivity.
Qed.

End Delivery.

Lemma frames_reach_the_queue_in_order_witness :
  exists s',
    scenario_run_from (scenario_state scenario_dispatch)
      (frames_for "R" [(JStr "a0:one", 1020); (JStr "[DONE]", 1030); (JStr "a0:two", 1040)])
    = Some s'
    /\ queue_at s' 0
       = queue_at (scenario_state scenario_dispatch) 0
         ++ [JStr "a0:one"; JStr "[DONE]"; JStr "a0:two"]
    /\ response_channels s' !! "R" = Some 0%nat.
Proof.
  apply (frames_reach_the_queue_in_order scenario_uuid scenario_str scenario_exn_text
           scenario_payload_json
           [(JStr "a0:one", 1020); (JStr "[DONE]", 1030); (JStr "a0:two", 1040)]
           (scenario_state scenario_dispatch) "R" 0).
  - vm_compute. reflexivity.
  - vm_compute. lia.
Defined.

(** *** The handshake's count *)

(** The ids of a handshake that the registry knows. *)
Definition known_ids (s : server) (ids : list string) : list string :=
  List.filter (fun id => bool_decide (is_Some (active_requests s !! id))) ids.

Lemma restore_channels_count ids : forall s now n,
  (restore_channels s ids now n).2 = (n + length (known_ids s ids))%nat.
Proof.
  induction ids as [|id rest IH]; intros s now n; simpl; [lia|].
  unfold get_request. destruct (active_requests s !! id) as [l|] eqn:Ha.
  - rewrite bool_decide_eq_true_2 by eauto. rewrite IH. simpl.
    replace (known_ids _ rest) with (known_ids s rest); [lia|].
    unfold known_ids. apply List.filter_ext. intros id'.
    unfold update_status. simpl. by rewrite Ha.
  - rewrite bool_decide_eq_false_2 by (intros [? ?]; discriminate). apply IH.
Qed.

Lemma restore_channels_sent ids : forall s now n,
  sent (restore_channels s ids now n).1 = sent s.
Proof.
  induction ids as [|id rest IH]; intros s now n; simpl; [done|].
  destruct (get_request s id) as [l|]; [|apply IH].
  rewrite IH. unfold update_status. simpl. by destruct (active_requests s !! id).
Qed.

(** The strings among the items of a handshake. *)
Definition listed_ids (items : list json) : list string :=
  omap (fun item => match item with JStr id => Some id | _ => None end) items.

Lemma ids_until_unhashable_hashable items :
  forallb hashable items = true -> ids_until_unhashable items = (listed_ids items, false).
Proof.
  induction items as [|item rest IH]; [reflexivity|]. cbn [forallb].
  intros [Hh Hrest]%andb_true_iff. specialize (IH Hrest).
  destruct item; try discriminate; cbn [ids_until_unhashable listed_ids omap list_omap];
    try exact IH.
  fold (listed_ids rest). by rewrite IH.
Qed.

Lemma ids_until_unhashable_stops before bad after :
  forallb hashable before = true -> hashable bad = false ->
  ids_until_unhashable (before ++ bad :: after) = (listed_ids before, true).
Proof.
  intros Hbefore Hbad. induction before as [|item rest IH].
  - by destruct bad.
  - cbn [forallb] in Hbefore. apply andb_true_iff in Hbefore as [Hh Hrest].
    specialize (IH Hrest).
    destruct item; try discriminate;
      cbn [app ids_until_unhashable listed_ids omap list_omap]; try exact IH.
    fold (listed_ids rest). by rewrite IH.
Qed.

(** [s'] has the link and the frames sent of [s]. *)
Definition same_link (s s' : server) : Prop :=
  sent s' = sent s /\ browser_ws s' = browser_ws s.

Lemma queue_put_link s q item s' : queue_put s q item = Some s' -> same_link s s'.
Proof. unfold queue_put. destruct (_ <? _)%nat; [|discriminate]. by intros [= <-]. Qed.

Lemma timeout_request_link s id s' : timeout_request s id = Some s' -> same_link s s'.
Proof.
  unfold timeout_request. destruct (active_requests s !! id) as [l|]; [|by intros [= <-]].
  destruct (queue_put _ _ _) as [s2|] eqn:Hput; [|discriminate]. simpl.
  intros [= <-]. by apply queue_put_link in Hput as [? ?].
Qed.

Lemma timeout_all_link ids : forall s s', timeout_all s ids = Some s' -> same_link s s'.
Proof.
  induction ids as [|id rest IH]; intros s s'; simpl; [by intros [= <-]|].
  destruct (timeout_request s id) as [s1|] eqn:Ht; [|discriminate]. simpl.
  intros [Hs Hw]%IH. apply timeout_request_link in Ht as [Hs1 Hw1].
  split; congruence.
Qed.

Lemma notify_orphans_link channels : forall s s',
  notify_orphans s channels = Some s' -> same_link s s'.
Proof.
  induction channels as [|[id q] rest IH]; intros s s'; simpl; [by intros [= <-]|].
  destruct (get_request s id); [apply IH|].
  destruct (queue_put s q _) as [s1|] eqn:Hput; [|discriminate]. simpl.
  intros [Hs Hw]%IH. apply queue_put_link in Hput as [Hs1 Hw1].
  split; congruence.
Qed.

(** The [finally] block sends nothing to the agent, gives up the link
    and unbinds every channel. *)
Lemma websocket_disconnect_gives_up s s' :
  websocket_disconnect s = Some s' ->
  sent s' = sent s /\ browser_ws s' = None /\ response_channels s' = ∅.
Proof.
  unfold websocket_disconnect.
  destruct (handle_browser_disconnect _) as [s1|] eqn:Hd; [|discriminate]. simpl.
  destruct (notify_orphans s1 _) as [s2|] eqn:Hn; [|discriminate]. simpl.
  intros [= <-]. simpl. apply notify_orphans_link in Hn as [Hs2 Hw2].
  assert (H1 : same_link (with_browser_ws s None) s1).
  { revert Hd. unfold handle_browser_disconnect. case_decide; [by intros [= <-]|].
    destruct (SHUTTING_DOWN _); [apply timeout_all_link | by intros [= <-]]. }
  destruct H1 as [Hs1 Hw1]. simpl in Hs1, Hw1.
  split; [congruence|]. split; [congruence | reflexivity].
Qed.

(** X14. A handshake whose [pending_request_ids] can be iterated and
    holds no list and no dict is answered with one [restoration_ack]
    frame after whatever was sent before; its [restored_count] is the
    number of listed strings that the registry knows, one listed twice
    counting twice, and it changes neither the registry's keys nor any
    queue. A handshake whose [pending_request_ids] is null, a number or
    a boolean is not answered: [len()] raises and the handler leaves
    through its [finally] block. So does a handshake that holds a list
    or a dict, once the ids listed before that item have been restored.
    Leaving that way sends nothing to the agent, gives up the link and
    unbinds every channel. *)
Theorem handshake_ack_counts_known_ids s pending_request_ids now :
  (forall items,
     py_iter pending_request_ids = Some items ->
     forallb hashable items = true ->
     exists s' message,
       on_message s (ReconnectionHandshake pending_request_ids) now = Some s'
       /\ sent s' = sent s
                    ++ [JDict [("type", JStr "restoration_ack");
                               ("restored_count",
                                JNum (Z.of_nat (length (known_ids s (listed_ids items)))));
                               ("message", message)]]
       /\ active_requests s' = active_requests s
       /\ queues s' = queues s)
  /\ (py_iter pending_request_ids = None ->
      on_message s (ReconnectionHandshake pending_request_ids) now = websocket_disconnect s)
  /\ (forall before bad after,
        py_iter pending_request_ids = Some (before ++ bad :: after) ->
        forallb hashable before = true ->
        hashable bad = false ->
        on_message s (ReconnectionHandshake pending_request_ids) now
        = websocket_disconnect (restore_channels s (listed_ids before) now 0).1)
  /\ (forall s',
        (py_iter pending_request_ids = None
         \/ exists items, py_iter pending_request_ids = Some items
                          /\ forallb hashable items = false) ->
        on_message s (ReconnectionHandshake pending_request_ids) now = Some s' ->
        sent s' = sent s /\ browser_ws s' = None /\ response_channels s' = ∅).
Proof.
  split; [|split; [|split]].
  - intros items Hit Hh. cbn [on_message]. rewrite Hit, (ids_until_unhashable_hashable items Hh).
    pose proof (restore_channels_count (listed_ids items) s now 0) as Hn.
    pose proof (restore_channels_same (listed_ids items) s now 0) as [Ha Hq].
    pose proof (restore_channels_sent (listed_ids items) s now 0) as Hs.
    destruct (restore_channels s (listed_ids items) now 0) as [s1 n]. simpl in *. subst n.
    eexists _, _. split; [reflexivity|]. simpl. rewrite Hs. by repeat split.
  - intros Hit. cbn [on_message]. by rewrite Hit.
  - intros before bad after Hit Hbefore Hbad. cbn [on_message].
    rewrite Hit, (ids_until_unhashable_stops before bad after Hbefore Hbad).
    by destruct (restore_channels s (listed_ids before) now 0).
  - intros s' Hcase. cbn [on_message].
    destruct Hcase as [Hit|(items & Hit & Hh)]; rewrite Hit.
    + apply websocket_disconnect_gives_up.
    + destruct (ids_until_unhashable items) as [ids unhashable] eqn:Hids.
      pose proof (restore_channels_sent ids s now 0) as Hs.
      destruct (restore_channels s ids now 0) as [s1 n]. simpl in Hs.
      destruct unhashable.
      * intros Hd. apply websocket_disconnect_gives_up in Hd as (H1 & H2 & H3).
        split; [congruence|]. by split.
      * exfalso. clear -Hh Hids. revert ids Hids.
        induction items as [|item rest IH]; intros ids Hids; [discriminate|].
        cbn [forallb] in Hh. apply andb_false_iff in Hh as [Hh|Hh].
        -- by destruct item.
        -- destruct item; simpl in Hids; try discriminate; try by eapply IH.
           destruct (ids_until_unhashable rest) as [ids' met]. injection Hids as _ ->.
           by eapply IH.
Qed.

(** A handshake that lists R twice, a number and an id the registry
    does not know. *)
Definition scenario_listed : list json := [JStr "R"; JNum 3; JStr "R"; JStr "x"].

Example scenario_listed_known :
  length (known_ids (scenario_state scenario_reconnected) (listed_ids scenario_listed)) = 2%nat.
Proof. vm_compute. reflexivity. Qed.

Lemma handshake_ack_counts_known_ids_witness :
  (exists s' message,
     on_message (scenario_state scenario_reconnected)
       (ReconnectionHandshake (JList scenario_listed)) 60000 = Some s'
     /\ sent s' = sent (scenario_state scenario_reconnected)
                  ++ [JDict [("type", JStr "restoration_ack");
                             ("restored_count",
                              JNum (Z.of_nat
                                      (length (known_ids (scenario_state scenario_reconnected)
                                                 (listed_ids scenario_listed)))));
                             ("message", message)]]
     /\ active_requests s' = active_requests (scenario_state scenario_reconnected)
     /\ queues s' = queues (scenario_state scenario_reconnected))
  /\ on_message (scenario_state scenario_reconnected) (ReconnectionHandshake JNull) 60000
     = websocket_disconnect (scenario_state scenario_reconnected)
  /\ on_message (scenario_state scenario_reconnected)
       (ReconnectionHandshake (JList [JStr "R"; JDict []; JStr "x"])) 60000
     = websocket_disconnect
         (restore_channels (scenario_state scenario_reconnected) (listed_ids [JStr "R"])
            60000 0).1.
Proof.
  destruct (handshake_ack_counts_known_ids (scenario_state scenario_reconnected)
              (JList scenario_listed) 60000) as (Hack & _).
  destruct (handshake_ack_counts_known_ids (scenario_state scenario_reconnected)
              JNull 60000) as (_ & Hnull & _).
  destruct (handshake_ack_counts_known_ids (scenario_state scenario_reconnected)
              (JList [JStr "R"; JDict []; JStr "x"]) 60000) as (_ & _ & Hstop & _).
  split; [exact (Hack scenario_listed eq_refl eq_refl)|].
  split; [exact (Hnull eq_refl)|].
  exact (Hstop [JStr "R"] (JDict []) [JStr "x"] eq_refl eq_refl eq_refl).
Defined.


(** *** The model registry *)

Lemma infer_model_type_cases model_info :
  infer_model_type model_info = "chat"
  \/ infer_model_type model_info = "image"
  \/ infer_model_type model_info = "video".
Proof.
  unfold infer_model_type.
  destruct (dict_get_default model_info "capabilities" (JDict [])); auto.
  destruct (dict_get_default fields "outputCapabilities" (JDict [])); auto.
  destruct (dict_has fields0 "image"); auto. destruct (dict_has fields0 "video"); auto.
Qed.

(** The entry stored for a model. *)
Definition processed_info (model_info : list (string * json)) : list (string * json) :=
  dict_set model_info "type" (JStr (infer_model_type model_info)).

Lemma build_registry_lookup items : forall acc name info,
  build_registry items acc !! name = Some info ->
  (exists model_info, (name, JDict model_info) ∈ items /\ info = processed_info model_info)
  \/ acc !! name = Some info.
Proof.
  induction items as [|[public_name v] rest IH]; intros acc name info; simpl; [auto|].
  destruct v as [| | | | |model_info];
    try (intros H; apply IH in H as [(mi & Hin & ->)|H]; [left|by right];
         exists mi; split; [by apply list_elem_of_further | reflexivity]).
  intros H. apply IH in H as [(mi & Hin & ->)|H].
  - left. exists mi. split; [by apply list_elem_of_further | reflexivity].
  - destruct (decide (public_name = name)) as [->|Hne].
    + rewrite lookup_insert_eq in H. injection H as <-. left.
      exists model_info. split; [apply list_elem_of_here | reflexivity].
    + rewrite lookup_insert_ne in H by done. by right.
Qed.

Lemma build_registry_known items : forall acc name,
  (is_Some (acc !! name) \/ exists model_info, (name, JDict model_info) ∈ items) ->
  is_Some (build_registry items acc !! name).
Proof.
  induction items as [|[public_name v] rest IH]; intros acc name; simpl.
  - intros [H|(mi & Hin)]; [exact H | by apply elem_of_nil in Hin].
  - intros [H|(mi & Hin)].
    + destruct v; try (apply IH; by left).
      apply IH. left. destruct (decide (public_name = name)) as [->|Hne].
      * rewrite lookup_insert_eq. by eexists.
      * by rewrite lookup_insert_ne.
    + apply elem_of_cons in Hin as [[= -> <-]|Hin].
      * apply IH. left. rewrite lookup_insert_eq. by eexists.
      * destruct v; apply IH; right; by exists mi.
Qed.

(** X15. A report of models that is a non-empty dict replaces the
    registry: afterwards the registry knows exactly the reported names
    whose description is a dict, each entry being a description reported
    under that name with its [type] set, and the type of every entry is
    chat, image or video, so that every model is either a chat model or
    a media model for the generator. *)
Theorem registry_update_types_every_model s item items :
  let s' := update_model_registry s (JDict (item :: items)) in
  (forall name info,
     MODEL_REGISTRY s' !! name = Some info ->
     (exists model_info,
        (name, JDict model_info) ∈ item :: items /\ info = processed_info model_info)
     /\ (model_type_of info = "chat" \/ model_type_of info = "image"
         \/ model_type_of info = "video")
     /\ is_chat (model_type_of info) || is_media (model_type_of info) = true)
  /\ (forall name model_info,
        (name, JDict model_info) ∈ item :: items -> is_Some (MODEL_REGISTRY s' !! name)).
Proof.
  cbn [update_model_registry with_MODEL_REGISTRY MODEL_REGISTRY]. split.
  - intros name info H. apply build_registry_lookup in H as [(mi & Hin & ->)|H];
      [|by rewrite lookup_empty in H].
    split; [by exists mi|].
    assert (Ht : model_type_of (processed_info mi) = infer_model_type mi).
    { unfold model_type_of, processed_info, dict_get_default. by rewrite dict_get_set_eq. }
    rewrite Ht. split; [apply infer_model_type_cases|].
    destruct (infer_model_type_cases mi) as [->|[->| ->]]; reflexivity.
  - intros name mi Hin. apply build_registry_known. right. by exists mi.
Qed.

End Runs.

(** ** Request details: [RequestDetailsStorage] *)

Module Storage.

(** Times and durations in milliseconds. *)
Record RequestDetails : Type := {
  request_id : string;
  timestamp : Z;
  model : string;
  status : string;
  duration : Z;
  input_tokens : Z;
  output_tokens : Z;
  error : option string;
  request_params : json;
  request_messages : json;
  response_content : string;
  headers : json
}.

(** The dict [details] and the deque [order] with its [maxlen]. *)
Record RequestDetailsStorage : Type := {
  details : gmap string RequestDetails;
  order : list string;
  maxlen : nat
}.

(** [RequestDetailsStorage(max_size)]. *)
Definition new (max_size : nat) : RequestDetailsStorage :=
  {| details := ∅; order := []; maxlen := max_size |}.

(** [deque.append] on a deque with [maxlen]: items fall off the left. *)
Definition deque_append (maxlen : nat) (items : list string) (x : string) : list string :=
  drop (length (items ++ [x]) - maxlen) (items ++ [x]).

(** [add]: [None] is the IndexError of [self.order[0]] on an empty
    deque. *)
Definition add (s : RequestDetailsStorage) (d : RequestDetails)
  : option RequestDetailsStorage :=
  if decide (is_Some (details s !! request_id d)) then Some s
  else if (maxlen s <=? length (order s))%nat then
    match order s with
    | [] => None
    | oldest_id :: _ =>
        Some {| details := <[request_id d := d]> (delete oldest_id (details s));
                order := deque_append (maxlen s) (order s) (request_id d);
                maxlen := maxlen s |}
    end
  else
    Some {| details := <[request_id d := d]> (details s);
            order := deque_append (maxlen s) (order s) (request_id d);
            maxlen := maxlen s |}.

Definition get (s : RequestDetailsStorage) (id : string) : option RequestDetails :=
  details s !! id.

(** [items[-limit:]]: the last [limit] items for a positive [limit],
    everything from index [-limit] on otherwise, so that [items[-0:]]
    is the whole list. *)
Definition last_items {A} (items : list A) (limit : Z) : list A :=
  if 0 <? limit then drop (length items - Z.to_nat limit) items
  else drop (Z.to_nat (- limit)) items.

Definition get_recent (s : RequestDetailsStorage) (limit : Z) : list RequestDetails :=
  omap (fun id => details s !! id) (reverse (last_items (order s) limit)).

(** A run of [add] calls. *)
Fixpoint add_all (s : RequestDetailsStorage) (ds : list RequestDetails)
  : option RequestDetailsStorage :=
  match ds with
  | [] => Some s
  | d :: rest => s' ← add s d; add_all s' rest
  end.

(** *** Facts *)

(** The deque holds each stored id once and nothing else, within its
    capacity. *)
Record consistent (s : RequestDetailsStorage) : Prop := {
  order_nodup : NoDup (order s);
  order_bound : (length (order s) <= maxlen s)%nat;
  order_dom : forall id, is_Some (details s !! id) <-> id ∈ order s;
  details_ids : forall id d, details s !! id = Some d -> request_id d = id
}.

Lemma consistent_new max_size : consistent (new max_size).
Proof.
  split; simpl.
  - constructor.
  - lia.
  - intros id. rewrite lookup_empty. split; [by intros [? ?] | by intros ?%elem_of_nil].
  - intros id d. by rewrite lookup_empty.
Qed.

Lemma deque_append_room n items x :
  (length items < n)%nat -> deque_append n items x = items ++ [x].
Proof.
  intros H. unfold deque_append. rewrite length_app. simpl.
  replace (length items + 1 - n)%nat with 0%nat by lia. reflexivity.
Qed.

Lemma deque_append_full n oldest rest x :
  length (oldest :: rest) = n -> deque_append n (oldest :: rest) x = rest ++ [x].
Proof.
  intros H. unfold deque_append. rewrite length_app. simpl in *.
  replace (S (length rest + 1) - n)%nat with 1%nat by lia. reflexivity.
Qed.

(** What one [add] of a new id does. *)
Lemma add_new s d :
  consistent s -> (0 < maxlen s)%nat -> details s !! request_id d = None ->
  exists s',
    add s d = Some s' /\ consistent s' /\ maxlen s' = maxlen s
    /\ get s' (request_id d) = Some d
    /\ ((length (order s) < maxlen s)%nat ->
        order s' = order s ++ [request_id d]
        /\ forall id, id <> request_id d -> get s' id = get s id)
    /\ ((length (order s) = maxlen s)%nat ->
        exists oldest rest,
          order s = oldest :: rest
          /\ order s' = rest ++ [request_id d]
          /\ get s' oldest = None
          /\ forall id, id <> oldest -> id <> request_id d -> get s' id = get s id).
Proof.
  intros [Hnd Hb Hdom Hids] Hpos Hnew. unfold add.
  assert (Hnotin : request_id d ∉ order s).
  { intros Hin. apply Hdom in Hin as [? Hin]. congruence. }
  destruct (decide (is_Some (details s !! request_id d))) as [[? Hs]|_]; [congruence|].
  destruct (Nat.leb_spec (maxlen s) (length (order s))) as [Hfull|Hroom].
  - destruct (order s) as [|oldest rest] eqn:Ho; [simpl in Hfull; lia|].
    assert (Hlen : length (oldest :: rest) = maxlen s) by lia.
    apply NoDup_cons in Hnd as [Hold Hnd]. apply not_elem_of_cons in Hnotin as [Hne Hnotin].
    eexists. split; [reflexivity|]. unfold get. simpl.
    rewrite (deque_append_full _ _ _ _ Hlen).
    split; [split; simpl|].
    + apply NoDup_app. split; [exact Hnd|]. split; [|apply NoDup_singleton].
      intros x Hx ->%list_elem_of_singleton. done.
    + rewrite length_app. simpl in *. lia.
    + intros id. rewrite elem_of_app, list_elem_of_singleton.
      destruct (decide (id = request_id d)) as [->|Hid].
      * rewrite lookup_insert_eq. split; [by right | by eexists].
      * rewrite lookup_insert_ne by done. destruct (decide (id = oldest)) as [->|Hio].
        -- rewrite lookup_delete_eq. split; [by intros [? ?] | intros [?|?]; done].
        -- rewrite lookup_delete_ne by done. rewrite Hdom, elem_of_cons. tauto.
    + intros id d'. destruct (decide (id = request_id d)) as [->|Hid].
      * rewrite lookup_insert_eq. by intros [= <-].
      * rewrite lookup_insert_ne by done. intros H%lookup_delete_Some. apply Hids, H.
    + split; [reflexivity|]. split; [apply lookup_insert_eq|].
      split; [intros Hlt; exfalso; simpl in *; lia|].
      intros _. exists oldest, rest. split; [reflexivity|]. split; [reflexivity|].
      split.
      * rewrite lookup_insert_ne by done. apply lookup_delete_eq.
      * intros id Hio Hid. rewrite lookup_insert_ne by done. by rewrite lookup_delete_ne.
  - eexists. split; [reflexivity|]. unfold get. simpl.
    rewrite (deque_append_room _ _ _ Hroom).
    split; [split; simpl|].
    + apply NoDup_app. split; [exact Hnd|]. split; [|apply NoDup_singleton].
      intros x Hx ->%list_elem_of_singleton. done.
    + rewrite length_app. simpl. lia.
    + intros id. rewrite elem_of_app, list_elem_of_singleton.
      destruct (decide (id = request_id d)) as [->|Hid].
      * rewrite lookup_insert_eq. split; [by right | by eexists].
      * rewrite lookup_insert_ne by done. rewrite Hdom. tauto.
    + intros id d'. destruct (decide (id = request_id d)) as [->|Hid].
      * rewrite lookup_insert_eq. by intros [= <-].
      * rewrite lookup_insert_ne by done. apply Hids.
    + split; [reflexivity|]. split; [apply lookup_insert_eq|]. split; [|lia].
      intros _. split; [reflexivity|]. intros id Hid. by rewrite lookup_insert_ne.
Qed.

(** The first details stored under an id stay. *)
Lemma add_known s d : is_Some (details s !! request_id d) -> add s d = Some s.
Proof. intros H. unfold add. by rewrite decide_True. Qed.

Lemma add_consistent s d :
  consistent s -> (0 < maxlen s)%nat ->
  exists s', add s d = Some s' /\ consistent s' /\ maxlen s' = maxlen s.
Proof.
  intros Hc Hpos. destruct (details s !! request_id d) as [d0|] eqn:Hd.
  - exists s. split; [apply add_known; by eexists | by split].
  - destruct (add_new s d Hc Hpos Hd) as (s' & Ha & Hc' & Hm & _). by exists s'.
Qed.

Lemma add_all_consistent ds : forall s,
  consistent s -> (0 < maxlen s)%nat ->
  exists s', add_all s ds = Some s' /\ consistent s' /\ maxlen s' = maxlen s.
Proof.
  induction ds as [|d rest IH]; intros s Hc Hpos; simpl; [by exists s|].
  destruct (add_consistent s d Hc Hpos) as (s1 & -> & Hc1 & Hm1). simpl.
  destruct (IH s1 Hc1) as (s' & Hs' & Hc' & Hm'); [lia|].
  exists s'. split; [exact Hs'|]. split; [exact Hc' | congruence].
Qed.

(** X16. A storage created with room for at least one entry never fails
    and never outgrows its capacity: after any sequence of [add] calls
    the deque holds at most [max_size] ids, each once, and the dict
    holds details for exactly the ids of the deque. *)
Theorem storage_stays_within_capacity max_size ds :
  (0 < max_size)%nat ->
  exists s,
    add_all (new max_size) ds = Some s
    /\ (length (order s) <= max_size)%nat
    /\ NoDup (order s)
    /\ (forall id, is_Some (get s id) <-> id ∈ order s)
    /\ size (details s) = length (order s).
Proof.
  intros Hpos.
  destruct (add_all_consistent ds (new max_size) (consistent_new max_size) Hpos)
    as (s & Hs & [Hnd Hb Hdom _] & Hm).
  simpl in Hm. exists s. split; [exact Hs|]. split; [lia|]. split; [exact Hnd|]. split; [exact Hdom|].
  rewrite <- size_dom.
  assert (Heq : dom (details s) = list_to_set (order s)).
  { apply set_eq. intros id. rewrite elem_of_dom, elem_of_list_to_set. apply Hdom. }
  rewrite Heq. by apply size_list_to_set.
Qed.

(** X17. On a full storage, adding details under a new id evicts the
    details stored first and nothing else, and the new details can be
    read back; adding under an id that is already stored changes
    nothing, the details stored first under an id stay. *)
Theorem full_storage_evicts_the_oldest s d :
  consistent s -> (0 < maxlen s)%nat -> length (order s) = maxlen s ->
  (is_Some (get s (request_id d)) -> add s d = Some s)
  /\ (get s (request_id d) = None ->
      exists s' oldest rest,
        add s d = Some s'
        /\ order s = oldest :: rest
        /\ order s' = rest ++ [request_id d]
        /\ get s' (request_id d) = Some d
        /\ get s' oldest = None
        /\ forall id, id <> oldest -> id <> request_id d -> get s' id = get s id).
Proof.
  intros Hc Hpos Hfull. split; [apply add_known|].
  intros Hnew. destruct (add_new s d Hc Hpos Hnew) as (s' & Ha & _ & _ & Hget & _ & Hev).
  destruct (Hev Hfull) as (oldest & rest & Ho & Ho' & Hgone & Hkept).
  by exists s', oldest, rest.
Qed.

(** Details of a finished request, for the literal runs. *)
Definition scenario_details (id : string) : RequestDetails :=
  {| request_id := id; timestamp := 0; model := "M"; status := "success";
     duration := 1200; input_tokens := 3; output_tokens := 5; error := None;
     request_params := JDict []; request_messages := JList [];
     response_content := "Hello"; headers := JDict [] |}.

Definition scenario_storage : RequestDetailsStorage :=
  default (new 2) (add_all (new 2) [scenario_details "a"; scenario_details "b"]).

Lemma storage_stays_within_capacity_witness :
  exists s,
    add_all (new 2) [scenario_details "a"; scenario_details "b"; scenario_details "a";
                     scenario_details "c"]
    = Some s
    /\ order s = ["b"; "c"]
    /\ (length (order s) <= 2)%nat
    /\ NoDup (order s)
    /\ (forall id, is_Some (get s id) <-> id ∈ order s)
    /\ size (details s) = length (order s).
Proof.
  destruct (storage_stays_within_capacity 2
              [scenario_details "a"; scenario_details "b"; scenario_details "a";
               scenario_details "c"]) as (s & Hs & H); [lia|].
  exists s. split; [exact Hs|]. split; [|exact H].
  vm_compute in Hs. injection Hs as <-. reflexivity.
Defined.

Lemma scenario_storage_consistent : consistent scenario_storage.
Proof.
  destruct (add_all_consistent [scenario_details "a"; scenario_details "b"] (new 2)
              (consistent_new 2)) as (s & Hs & Hc & _); [simpl; lia|].
  unfold scenario_storage. rewrite Hs. exact Hc.
Qed.

Lemma full_storage_evicts_the_oldest_witness :
  order scenario_storage = ["a"; "b"]
  /\ (is_Some (get scenario_storage "b") ->
      add scenario_storage (scenario_details "b") = Some scenario_storage)
  /\ (get scenario_storage "c" = None ->
      exists s' oldest rest,
        add scenario_storage (scenario_details "c") = Some s'
        /\ order scenario_storage = oldest :: rest
        /\ order s' = rest ++ ["c"]
        /\ get s' "c" = Some (scenario_details "c")
        /\ get s' oldest = None
        /\ forall id, id <> oldest -> id <> "c" -> get s' id = get scenario_storage id).
Proof.
  split; [vm_compute; reflexivity|]. split.
  - apply (proj1 (full_storage_evicts_the_oldest scenario_storage (scenario_details "b")
                    scenario_storage_consistent ltac:(vm_compute; lia) eq_refl)).
  - apply (proj2 (full_storage_evicts_the_oldest scenario_storage (scenario_details "c")
                    scenario_storage_consistent ltac:(vm_compute; lia) eq_refl)).
Defined.

Lemma omap_lookup_known (m : gmap string RequestDetails) (ids : list string) :
  (forall id, id ∈ ids -> exists d, m !! id = Some d /\ request_id d = id) ->
  request_id <$> omap (fun id => m !! id) ids = ids.
Proof.
  induction ids as [|id rest IH]; intros H; simpl; [reflexivity|].
  destruct (H id) as (d & -> & Hid); [apply list_elem_of_here|]. simpl.
  f_equal; [exact Hid|]. apply IH. intros id' Hin. apply H. by apply list_elem_of_further.
Qed.

(** X18. [get_recent(limit)] lists stored details newest first: for a
    positive [limit], those of the last [limit] ids added (of all of
    them when fewer are stored), so at most [limit] entries; for
    [limit] 0, where the slice [-0:] is the whole deque, all the
    details stored rather than none. *)
Theorem get_recent_is_newest_first s limit :
  consistent s ->
  request_id <$> get_recent s limit = reverse (last_items (order s) limit)
  /\ (0 < limit ->
      length (get_recent s limit) = Nat.min (Z.to_nat limit) (length (order s)))
  /\ (limit = 0 -> request_id <$> get_recent s limit = reverse (order s)).
Proof.
  intros [Hnd Hb Hdom Hids].
  assert (Hall : request_id <$> get_recent s limit = reverse (last_items (order s) limit)).
  { unfold get_recent. apply omap_lookup_known. intros id Hin.
    rewrite elem_of_reverse in Hin.
    assert (Hin' : id ∈ order s).
    { revert Hin. unfold last_items. destruct (0 <? limit); intros H; eapply subseteq_drop; exact H. }
    apply Hdom in Hin' as [d Hd]. exists d. split; [exact Hd | by eapply Hids]. }
  split; [exact Hall|]. split.
  - intros Hpos. rewrite <- (length_fmap request_id), Hall, length_reverse.
    unfold last_items. destruct (Z.ltb_spec 0 limit); [|lia]. rewrite length_drop. lia.
  - intros ->. rewrite Hall. reflexivity.
Qed.

Lemma get_recent_is_newest_first_witness :
  request_id <$> get_recent scenario_storage 1 = ["b"]
  /\ request_id <$> get_recent scenario_storage 0 = ["b"; "a"]
  /\ request_id <$> get_recent scenario_storage 1
     = reverse (last_items (order scenario_storage) 1)
  /\ (0 < 1 ->
      length (get_recent scenario_storage 1)
      = Nat.min (Z.to_nat 1) (length (order scenario_storage)))
  /\ (1 = 0 -> request_id <$> get_recent scenario_storage 1
               = reverse (order scenario_storage)).
Proof.
  split; [vm_compute; reflexivity|]. split; [vm_compute; reflexivity|].
  exact (get_recent_is_newest_first scenario_storage 1 scenario_storage_consistent).
Defined.

End Storage.

(** ** Dynamic configuration: [ConfigManager] *)

Module Settings.

(** The loop of [get] over the keys of a path. *)
Fixpoint get_path (value : json) (keys : list string) (default : json) : json :=
  match keys with
  | [] => value
  | key :: rest =>
      match value with
      | JDict fields =>
          match dict_get fields key with
          | Some v => get_path v rest default
          | None => default
          end
      | _ => default
      end
  end.

(** [get(path, default)] on [dynamic_config]. *)
Definition get (dynamic_config : json) (path : string) (default : json) : json :=
  get_path dynamic_config (Translator.split_all "." path) default.

(** The loop of [set] and its last assignment, as the config after the
    call. [None] is the exception raised when a value on the way is not
    a dict ([key not in target] or the item assignment fails), or when
    there is no key at all; nothing has been written then. *)
Fixpoint set_path (target : json) (keys : list string) (value : json) : option json :=
  match keys with
  | [] => None
  | [key] =>
      match target with
      | JDict fields => Some (JDict (dict_set fields key value))
      | _ => None
      end
  | key :: rest =>
      match target with
      | JDict fields =>
          child ← set_path (default (JDict []) (dict_get fields key)) rest value;
          Some (JDict (dict_set fields key child))
      | _ => None
      end
  end.

(** [set(path, value)], without the write to disk. *)
Definition set (dynamic_config : json) (path : string) (value : json) : option json :=
  set_path dynamic_config (Translator.split_all "." path) value.

(** [get_display_ip], with [local_ip] the result of [get_local_ip()]. *)
Definition get_display_ip (dynamic_config : json) (local_ip : json) : json :=
  if truthy (get dynamic_config "network.manual_ip" JNull)
  then get dynamic_config "network.manual_ip" JNull
  else if truthy (get dynamic_config "network.auto_detect_ip" (JBool true)) then local_ip
  else JStr "localhost".

(** [_deep_merge(target, source)] for a [source] that is a dict, as the
    target after the call: the items of [source] are visited in order. *)
Fixpoint merge_json (source : json) (target : list (string * json)) {struct source}
  : list (string * json) :=
  match source with
  | JDict fields =>
      (fix items (fs : list (string * json)) (target : list (string * json)) {struct fs}
         : list (string * json) :=
         match fs with
         | [] => target
         | (key, value) :: rest =>
             items rest
               (match dict_get target key, value with
                | Some (JDict t), JDict _ => dict_set target key (JDict (merge_json value t))
                | _, _ => dict_set target key value
                end)
         end) fields target
  | _ => target
  end.

Definition _deep_merge (target source : list (string * json)) : list (string * json) :=
  merge_json (JDict source) target.

(** *** Facts *)

(** One turn of the loop of [_deep_merge]. *)
Definition merge_item (target : list (string * json)) (item : string * json)
  : list (string * json) :=
  match dict_get target item.1, item.2 with
  | Some (JDict t), JDict s => dict_set target item.1 (JDict (_deep_merge t s))
  | _, _ => dict_set target item.1 item.2
  end.

Lemma _deep_merge_items source : forall target,
  _deep_merge target source = fold_left merge_item source target.
Proof.
  unfold _deep_merge. induction source as [|[key value] rest IH]; intros target; simpl;
    [reflexivity|].
  rewrite <- IH. simpl. unfold merge_item. simpl.
  destruct (dict_get target key) as [[]|]; try reflexivity.
  destruct value; reflexivity.
Qed.

Lemma split_all_cons sep s : exists first others, Translator.split_all sep s = first :: others.
Proof.
  induction s as [|c s IH]; simpl; [by eexists _, _|].
  destruct (Ascii.eqb c sep); [by eexists _, _|].
  destruct IH as (first & others & ->). by eexists _, _.
Qed.

Lemma get_path_empty keys d : keys <> [] -> get_path (JDict []) keys d = d.
Proof. by destruct keys. Qed.

Lemma set_path_cons key key2 rest fields value :
  set_path (JDict fields) (key :: key2 :: rest) value
  = child ← set_path (default (JDict []) (dict_get fields key)) (key2 :: rest) value;
    Some (JDict (dict_set fields key child)).
Proof. reflexivity. Qed.

(** Whatever [set] has written, the target is a dict where the first key
    is bound. *)
Lemma set_path_shape key rest target value target' :
  set_path target (key :: rest) value = Some target' ->
  exists fields child,
    target = JDict fields /\ target' = JDict (dict_set fields key child)
    /\ match rest with
       | [] => child = value
       | _ => set_path (default (JDict []) (dict_get fields key)) rest value = Some child
       end.
Proof.
  destruct target as [| | | | |fields]; try (destruct rest; discriminate).
  destruct rest as [|key2 rest].
  - intros [= <-]. by eexists _, _.
  - rewrite set_path_cons.
    destruct (set_path _ (key2 :: rest) value) as [child|] eqn:Hc; [|discriminate].
    intros [= <-]. by eexists _, _.
Qed.

Lemma set_path_get_path keys : forall target value target' d,
  set_path target keys value = Some target' -> get_path target' keys d = value.
Proof.
  induction keys as [|key rest IH]; intros target value target' d; [discriminate|].
  intros (fields & child & -> & -> & Hrest)%set_path_shape.
  cbn [get_path]. rewrite dict_get_set_eq. destruct rest as [|key2 rest].
  - by subst.
  - by eapply IH.
Qed.

(** Two paths part ways: after a common beginning, each goes on with a
    key of its own. *)
Definition diverge (keys keys' : list string) : Prop :=
  exists common k rest k' rest',
    keys = common ++ k :: rest /\ keys' = common ++ k' :: rest' /\ k <> k'.

Lemma set_path_frame common : forall k rest k' rest' target value target' d,
  k <> k' ->
  set_path target (common ++ k :: rest) value = Some target' ->
  get_path target' (common ++ k' :: rest') d = get_path target (common ++ k' :: rest') d.
Proof.
  induction common as [|c common IH]; intros k rest k' rest' target value target' d Hne.
  - simpl app. intros (fields & child & -> & -> & _)%set_path_shape.
    cbn [get_path]. by rewrite Translator.dict_get_set_ne.
  - simpl app. intros (fields & child & -> & -> & Hrest)%set_path_shape.
    cbn [get_path]. rewrite dict_get_set_eq.
    assert (Hc : set_path (default (JDict []) (dict_get fields c)) (common ++ k :: rest) value
                 = Some child).
    { by destruct common. }
    rewrite (IH _ _ _ rest' _ _ _ d Hne Hc).
    destruct (dict_get fields c) as [v|]; [reflexivity|]. simpl.
    apply get_path_empty. by destruct common.
Qed.

(** X19. What [set] writes is what [get] reads: after a [set] that
    returns, [get] of the same path gives the value written, whatever
    the default, and [get] of any path that parts ways with it (after a
    common beginning, a different key) gives what it gave before. *)
Theorem config_set_then_get dynamic_config path value dynamic_config' :
  set dynamic_config path value = Some dynamic_config' ->
  (forall d, get dynamic_config' path d = value)
  /\ (forall path' d,
        diverge (Translator.split_all "." path) (Translator.split_all "." path') ->
        get dynamic_config' path' d = get dynamic_config path' d).
Proof.
  unfold set, get. intros Hset. split.
  - intros d. by eapply set_path_get_path.
  - intros path' d (common & k & rest & k' & rest' & Hp & Hp' & Hne).
    rewrite Hp in Hset. rewrite Hp'. by eapply set_path_frame.
Qed.

(** [dynamic_config] as [__init__] builds it, before any saved file is
    merged in. *)
Definition initial_fields : list (string * json) :=
  [("network", JDict [("manual_ip", JNull);
                            ("port", JNum 9080);
                            ("auto_detect_ip", JBool true)]);
         ("request", JDict [("timeout_seconds", JNum 180);
                            ("max_concurrent_requests", JNum 20);
                            ("backpressure_queue_size", JNum 5)]);
         ("quick_links",
          JList [JDict [("name", JStr "监控面板"); ("url", JStr "/monitor");
                        ("icon", JStr "📊")];
                 JDict [("name", JStr "健康检查"); ("url", JStr "/health");
                        ("icon", JStr "🏥")];
                 JDict [("name", JStr "Prometheus"); ("url", JStr "/metrics");
                        ("icon", JStr "📈")];
                 JDict [("name", JStr "API文档"); ("url", JStr "/monitor#api-docs");
                        ("icon", JStr "📚")]])].

Definition initial_config : json := JDict initial_fields.

Lemma config_set_then_get_witness :
  exists dynamic_config',
    set initial_config "network.port" (JNum 8000) = Some dynamic_config'
    /\ (forall d, get dynamic_config' "network.port" d = JNum 8000)
    /\ (forall path' d,
          diverge (Translator.split_all "." "network.port") (Translator.split_all "." path') ->
          get dynamic_config' path' d = get initial_config path' d).
Proof.
  eexists. split; [vm_compute; reflexivity|].
  apply (config_set_then_get initial_config "network.port" (JNum 8000)).
  vm_compute. reflexivity.
Defined.

(** X20. The address shown follows the manual setting: once
    [network.manual_ip] has been set, [get_display_ip] returns the value
    set when it is truthy; when it is not (null, an empty string), the
    detected address if [network.auto_detect_ip], left as it was, is
    truthy or missing, and ["localhost"] otherwise. *)
Theorem manual_ip_is_displayed dynamic_config value dynamic_config' local_ip :
  set dynamic_config "network.manual_ip" value = Some dynamic_config' ->
  get_display_ip dynamic_config' local_ip
  = if truthy value then value
    else if truthy (get dynamic_config "network.auto_detect_ip" (JBool true)) then local_ip
    else JStr "localhost".
Proof.
  unfold set, get_display_ip, get.
  change (Translator.split_all "." "network.manual_ip") with ["network"; "manual_ip"].
  change (Translator.split_all "." "network.auto_detect_ip")
    with ["network"; "auto_detect_ip"].
  intros Hset. rewrite (set_path_get_path _ _ _ _ JNull Hset).
  pose proof (set_path_frame ["network"] "manual_ip" [] "auto_detect_ip" []
                dynamic_config value dynamic_config' (JBool true)) as Hframe.
  simpl app in Hframe. by rewrite Hframe.
Qed.

Lemma manual_ip_is_displayed_witness :
  exists dynamic_config',
    set initial_config "network.manual_ip" (JStr "192.168.0.7") = Some dynamic_config'
    /\ get_display_ip initial_config (JStr "10.0.0.2") = JStr "10.0.0.2"
    /\ get_display_ip dynamic_config' (JStr "10.0.0.2") = JStr "192.168.0.7".
Proof.
  eexists. split; [vm_compute; reflexivity|]. split; [vm_compute; reflexivity|].
  apply (manual_ip_is_displayed initial_config (JStr "192.168.0.7") _ (JStr "10.0.0.2")).
  vm_compute. reflexivity.
Defined.

(** *** Merging a posted or saved config *)

(** [key] is bound once in [fields], to [v]. *)
Definition bound_once (fields : list (string * json)) (key : string) (v : json) : Prop :=
  exists pre post,
    fields = pre ++ (key, v) :: post /\ (key ∉ fst <$> pre) /\ (key ∉ fst <$> post).

(** [source] holds [v], which is not a dict, at the end of the path
    [keys], each key of the path being bound once where it is looked up. *)
Inductive leaf_at : list (string * json) -> list string -> json -> Prop :=
| leaf_here fields key v :
    bound_once fields key v -> (forall f, v <> JDict f) -> leaf_at fields [key] v
| leaf_below fields key sub rest v :
    bound_once fields key (JDict sub) -> leaf_at sub rest v ->
    leaf_at fields (key :: rest) v.

Lemma dict_get_bound_once fields key v :
  bound_once fields key v -> dict_get fields key = Some v.
Proof.
  intros (pre & post & -> & Hpre & _). induction pre as [|[k w] pre IH]; simpl.
  - by rewrite String.eqb_refl.
  - simpl in Hpre. apply not_elem_of_cons in Hpre as [Hne Hpre].
    destruct (String.eqb_spec k key); [congruence | by apply IH].
Qed.

Lemma leaf_at_get_path fields keys v d :
  leaf_at fields keys v -> get_path (JDict fields) keys d = v.
Proof.
  induction 1 as [fields key v Hb Hv|fields key sub rest v Hb Hl IH]; cbn [get_path];
    by rewrite (dict_get_bound_once _ _ _ Hb).
Qed.

Lemma merge_item_other target item key :
  item.1 <> key -> dict_get (merge_item target item) key = dict_get target key.
Proof.
  intros Hne. unfold merge_item.
  destruct (dict_get target item.1) as [[]|]; try by apply Translator.dict_get_set_ne.
  destruct item.2; by apply Translator.dict_get_set_ne.
Qed.

Lemma merge_items_other items : forall target key,
  key ∉ (fst <$> items) ->
  dict_get (fold_left merge_item items target) key = dict_get target key.
Proof.
  induction items as [|item rest IH]; intros target key Hnot; simpl; [reflexivity|].
  simpl in Hnot. apply not_elem_of_cons in Hnot as [Hne Hnot].
  rewrite IH by exact Hnot. by apply merge_item_other.
Qed.

(** What [_deep_merge] leaves under a key that [source] binds once. *)
Lemma _deep_merge_bound_once target source key v :
  bound_once source key v ->
  dict_get (_deep_merge target source) key
  = Some match dict_get target key, v with
         | Some (JDict t), JDict s => JDict (_deep_merge t s)
         | _, _ => v
         end.
Proof.
  intros (pre & post & -> & Hpre & Hpost).
  rewrite _deep_merge_items, fold_left_app. simpl.
  rewrite merge_items_other by exact Hpost.
  unfold merge_item at 1. simpl.
  rewrite (merge_items_other pre target key Hpre).
  destruct (dict_get target key) as [[]|]; try by rewrite dict_get_set_eq.
  destruct v; by rewrite dict_get_set_eq.
Qed.

(** X21. After [_deep_merge(target, source)], every value of [source]
    that is not a dict is read back from the target at its path,
    whatever the target held there or on the way; and a key of the
    target that [source] does not bind keeps its value. *)
Theorem merged_values_are_read_back source keys v :
  leaf_at source keys v ->
  forall target,
    (forall d, get_path (JDict (_deep_merge target source)) keys d = v)
    /\ (forall key, key ∉ (fst <$> source) ->
          dict_get (_deep_merge target source) key = dict_get target key).
Proof.
  intros Hleaf target. split.
  - intros d. revert target.
    induction Hleaf as [fields key v Hb Hv|fields key sub rest v Hb Hl IH]; intros target;
      cbn [get_path]; rewrite (_deep_merge_bound_once _ _ _ _ Hb).
    + destruct (dict_get target key) as [[]|]; try reflexivity.
      destruct v; try reflexivity. by destruct (Hv fields1).
    + destruct (dict_get target key) as [[| | | | |t]|]; try by apply leaf_at_get_path.
      apply IH.
  - intros key Hnot. rewrite _deep_merge_items. by apply merge_items_other.
Qed.

(** A posted config that changes the timeout and nothing else. *)
Definition scenario_posted : list (string * json) :=
  [("request", JDict [("timeout_seconds", JNum 60)])].

Lemma scenario_posted_leaf : leaf_at scenario_posted ["request"; "timeout_seconds"] (JNum 60).
Proof.
  eapply leaf_below.
  - exists [], []. repeat split; simpl; by intros ?%elem_of_nil.
  - apply leaf_here; [|discriminate].
    exists [], []. repeat split; simpl; by intros ?%elem_of_nil.
Qed.

Lemma merged_values_are_read_back_witness :
  get (JDict (_deep_merge initial_fields scenario_posted)) "request.timeout_seconds" JNull
  = JNum 60
  /\ get (JDict (_deep_merge initial_fields scenario_posted))
       "request.max_concurrent_requests" JNull = JNum 20
  /\ (forall d, get_path (JDict (_deep_merge initial_fields scenario_posted))
                  ["request"; "timeout_seconds"] d = JNum 60)
  /\ (forall key, key ∉ (fst <$> scenario_posted) ->
        dict_get (_deep_merge initial_fields scenario_posted) key
        = dict_get initial_fields key).
Proof.
  split; [vm_compute; reflexivity|]. split; [vm_compute; reflexivity|].
  exact (merged_values_are_read_back scenario_posted ["request"; "timeout_seconds"] (JNum 60)
           scenario_posted_leaf initial_fields).
Defined.

End Settings.

(** ** The link's heartbeat: [WebSocketHeartbeat] *)

Module Heartbeat.

(** Times in milliseconds. *)
Record WebSocketHeartbeat : Type := {
  interval : Z;
  last_ping : Z;
  last_pong : Z;
  missed_pongs : nat;
  max_missed_pongs : nat
}.

(** [WebSocketHeartbeat()] at clock reading [now]. *)
Definition new (now : Z) : WebSocketHeartbeat :=
  {| interval := 30000; last_ping := now; last_pong := now;
     missed_pongs := 0; max_missed_pongs := 3 |}.

(** [handle_pong] at clock reading [now]. *)
Definition handle_pong (h : WebSocketHeartbeat) (now : Z) : WebSocketHeartbeat :=
  {| interval := interval h; last_ping := last_ping h; last_pong := now;
     missed_pongs := 0; max_missed_pongs := max_missed_pongs h |}.

(** One turn of the loop of [start_heartbeat] at clock reading
    [current_time], on a live link outside shutdown: the object after
    the turn, and the ping sent, or [None] for the [break]. *)
Definition beat (h : WebSocketHeartbeat) (current_time : Z)
  : WebSocketHeartbeat * option json :=
  let ping := JDict [("type", JStr "ping"); ("timestamp", JNum current_time)] in
  if interval h * 2 <? current_time - last_pong h then
    let missed := S (missed_pongs h) in
    if (max_missed_pongs h <=? missed)%nat then
      ({| interval := interval h; last_ping := last_ping h; last_pong := last_pong h;
          missed_pongs := missed; max_missed_pongs := max_missed_pongs h |}, None)
    else
      ({| interval := interval h; last_ping := current_time; last_pong := last_pong h;
          missed_pongs := missed; max_missed_pongs := max_missed_pongs h |}, Some ping)
  else
    ({| interval := interval h; last_ping := current_time; last_pong := last_pong h;
        missed_pongs := missed_pongs h; max_missed_pongs := max_missed_pongs h |},
     Some ping).

(** What happens to one heartbeat object: a turn of its loop, or a pong
    from the agent. *)
Inductive moment : Type :=
| Beat (current_time : Z)
| PongAt (now : Z).

(** The task and its object over time: [running] is false once the loop
    has left by [break]; [pings] are the clock readings of the pings
    sent, oldest first. A pong still reaches the object then. *)
Fixpoint start_heartbeat (h : WebSocketHeartbeat) (running : bool) (moments : list moment)
  : WebSocketHeartbeat * bool * list Z :=
  match moments with
  | [] => (h, running, [])
  | PongAt now :: rest => start_heartbeat (handle_pong h now) running rest
  | Beat current_time :: rest =>
      if running then
        match beat h current_time with
        | (h', Some _) =>
            let '(h'', r, pings) := start_heartbeat h' true rest in (h'', r, current_time :: pings)
        | (h', None) => start_heartbeat h' false rest
        end
      else start_heartbeat h false rest
  end.

(** *** Facts *)

(** Every turn of the loop comes at most [limit] after the last pong
    (the creation of the object, to begin with). *)
Fixpoint answered (limit : Z) (since : Z) (moments : list moment) : Prop :=
  match moments with
  | [] => True
  | Beat current_time :: rest => current_time - since <= limit /\ answered limit since rest
  | PongAt now :: rest => answered limit now rest
  end.

(** The clock readings of the turns of the loop. *)
Fixpoint beats (moments : list moment) : list Z :=
  match moments with
  | [] => []
  | Beat current_time :: rest => current_time :: beats rest
  | PongAt _ :: rest => beats rest
  end.

(** X22. A link whose agent answers in time is never given up: if every
    turn of the heartbeat loop comes at most two intervals (60 seconds
    for the interval of 30) after the last pong, or after the creation
    of the heartbeat when there was none, the loop is still running at
    the end, it has sent a ping at every turn, and no pong has been
    counted as missed. *)
Theorem answered_heartbeat_keeps_running moments : forall h,
  answered (interval h * 2) (last_pong h) moments ->
  exists h',
    start_heartbeat h true moments = (h', true, beats moments)
    /\ (missed_pongs h = 0%nat -> missed_pongs h' = 0%nat).
Proof.
  induction moments as [|[current_time|now] rest IH]; intros h Hans.
  - exists h. by split.
  - destruct Hans as [Hin Hans]. cbn [start_heartbeat beats]. unfold beat.
    destruct (Z.ltb_spec (interval h * 2) (current_time - last_pong h)); [lia|].
    set (h1 := Build_WebSocketHeartbeat _ _ _ _ _).
    destruct (IH h1 Hans) as (h' & -> & Hzero). exists h'.
    split; [reflexivity | exact Hzero].
  - cbn [start_heartbeat beats]. destruct (IH (handle_pong h now) Hans) as (h' & -> & Hzero).
    exists h'. split; [reflexivity|]. intros _. by apply Hzero.
Qed.

Lemma answered_heartbeat_keeps_running_witness :
  exists h',
    start_heartbeat (new 0) true [Beat 0; Beat 30000; PongAt 31000; Beat 60000; Beat 90000]
    = (h', true, [0; 30000; 60000; 90000])
    /\ (missed_pongs (new 0) = 0%nat -> missed_pongs h' = 0%nat).
Proof.
  apply (answered_heartbeat_keeps_running
           [Beat 0; Beat 30000; PongAt 31000; Beat 60000; Beat 90000] (new 0)).
  simpl. lia.
Defined.

Lemma live_stopped moments : forall h, exists h', start_heartbeat h false moments = (h', false, []).
Proof.
  induction moments as [|[current_time|now] rest IH]; intros h; cbn [start_heartbeat].
  - by exists h.
  - apply IH.
  - apply IH.
Qed.

(** X23. A silent link is given up at the check that brings the count
    of missed pongs to [max_missed_pongs]: when each of the next turns
    of the loop, as many as are left before that count, comes more than
    two intervals after the last pong, with no pong in between, the
    loop sends a ping at each of them but the last, leaves at the last
    one, and sends nothing afterwards, whatever comes next. For a new
    heartbeat this is the third such turn, after two more pings. *)
Theorem silent_link_is_given_up ts : forall h rest,
  (missed_pongs h < max_missed_pongs h)%nat ->
  length ts = (max_missed_pongs h - missed_pongs h)%nat ->
  Forall (fun current_time => interval h * 2 < current_time - last_pong h) ts ->
  exists h',
    start_heartbeat h true ((Beat <$> ts) ++ rest) = (h', false, take (length ts - 1) ts).
Proof.
  induction ts as [|t ts IH]; intros h rest Hlt Hlen Hlate; [simpl in Hlen; lia|].
  apply Forall_cons in Hlate as [Ht Hlate]. cbn [fmap list_fmap app start_heartbeat]. unfold beat.
  destruct (Z.ltb_spec (interval h * 2) (t - last_pong h)); [|lia].
  simpl in Hlen.
  destruct (Nat.leb_spec (max_missed_pongs h) (S (missed_pongs h))) as [Hstop|Hgo].
  - assert (ts = []) as -> by (destruct ts; [done | simpl in Hlen; lia]).
    simpl. apply live_stopped.
  - set (h1 := Build_WebSocketHeartbeat _ _ _ _ _).
    destruct (IH h1 rest) as (h' & Hlive).
    + simpl. lia.
    + simpl. lia.
    + exact Hlate.
    + fold (fmap (M:=list) Beat ts). rewrite Hlive. exists h'.
      destruct ts as [|t2 ts]; [simpl in Hlen; lia|].
      simpl. by rewrite Nat.sub_0_r.
Qed.

Lemma silent_link_is_given_up_witness :
  exists h',
    start_heartbeat (new 0) true ((Beat <$> [90000; 120000; 150000]) ++ [Beat 180000; PongAt 181000])
    = (h', false, take (length [90000; 120000; 150000] - 1) [90000; 120000; 150000]).
Proof.
  apply (silent_link_is_given_up [90000; 120000; 150000] (new 0)
           [Beat 180000; PongAt 181000]).
  - simpl. lia.
  - reflexivity.
  - repeat constructor; simpl; lia.
Defined.

End Heartbeat.

(** ** Reading the request log: [LogManager.read_request_logs] *)

Module Logs.

Section Reading.

(** [json.loads]: [None] is a JSONDecodeError. *)
Variable json_loads : string -> option json.

(** [model and log.get('model') != model] for the optional filter. *)
Definition filtered_out (model : option string) (log : list (string * json)) : bool :=
  match model with
  | Some m =>
      negb (String.eqb m "") && negb (is_str (dict_get_default log "model" JNull) m)
  | None => false
  end.

(** The loop over [reversed(all_lines)], with the list [logs] built so
    far: the list at the end of the loop, or [None] for the
    AttributeError of [log.get] on a line that decodes to something
    other than a dict. *)
Fixpoint scan (limit offset : nat) (model : option string) (lines : list string)
    (logs : list json) : option (list json) :=
  match lines with
  | [] => Some logs
  | line :: rest =>
      match json_loads (strip line) with
      | None => scan limit offset model rest logs
      | Some (JDict log) =>
          if is_str (dict_get_default log "type" JNull) "request_end" then
            if filtered_out model log then scan limit offset model rest logs
            else if (limit + offset <=? length (logs ++ [JDict log]))%nat
                 then Some (logs ++ [JDict log])
                 else scan limit offset model rest (logs ++ [JDict log])
          else scan limit offset model rest logs
      | Some _ => None
      end
  end.

(** [read_request_logs(limit, offset, model)] on the lines of the log
    file (none when the file does not exist), for a [limit] and an
    [offset] that are not negative. *)
Definition read_request_logs (all_lines : list string) (limit offset : nat)
    (model : option string) : option (list json) :=
  logs ← scan limit offset model (reverse all_lines) [];
  Some (take limit (drop offset logs)).

(** *** Facts *)

(** The entry a line stands for, when it is the end of a request that
    passes the filter. *)
Definition finished (model : option string) (line : string) : option json :=
  match json_loads (strip line) with
  | Some (JDict log) =>
      if is_str (dict_get_default log "type" JNull) "request_end"
         && negb (filtered_out model log)
      then Some (JDict log) else None
  | _ => None
  end.

(** A line the server can have written, or a damaged one: it decodes to
    a dict or not at all. *)
Definition readable (line : string) : Prop :=
  match json_loads (strip line) with
  | Some (JDict _) | None => True
  | Some _ => False
  end.

Lemma take_drop_app_long {A} (l more : list A) limit offset :
  (limit + offset <= length l)%nat ->
  take limit (drop offset (l ++ more)) = take limit (drop offset l).
Proof.
  intros H. rewrite drop_app_le by lia. rewrite take_app_le; [reflexivity|].
  rewrite length_drop. lia.
Qed.

Lemma scan_page limit offset model lines : forall logs,
  Forall readable lines ->
  exists found,
    scan limit offset model lines logs = Some found
    /\ take limit (drop offset found)
       = take limit (drop offset (logs ++ omap (finished model) lines)).
Proof.
  induction lines as [|line rest IH]; intros logs Hall; cbn [scan omap list_omap].
  - exists logs. by rewrite app_nil_r.
  - apply Forall_cons in Hall as [Hline Hrest]. unfold readable in Hline.
    unfold finished at 1.
    destruct (json_loads (strip line)) as [[| | | | |log]|]; try done; [|by apply IH].
    destruct (is_str (dict_get_default log "type" JNull) "request_end"); [|by apply IH].
    destruct (filtered_out model log); [by apply IH|]. simpl.
    set (more := omap (finished model) rest).
    assert (E : logs ++ JDict log :: more = (logs ++ [JDict log]) ++ more)
      by (by rewrite <- app_assoc).
    rewrite E.
    destruct (Nat.leb_spec (limit + offset) (length (logs ++ [JDict log]))) as [Hfull|Hmore].
    + eexists. split; [reflexivity|]. symmetry. by apply take_drop_app_long.
    + destruct (IH (logs ++ [JDict log]) Hrest) as (found & -> & Hpage).
      exists found. split; [reflexivity | exact Hpage].
Qed.

(** X24. Paging through the request log: when every line of the file
    decodes to a dict or fails to decode, [read_request_logs] returns,
    and what it returns is the page it was asked for, the entries from
    [offset] on, at most [limit] of them, of the list of all finished
    requests that pass the model filter, newest first; leaving the loop
    as soon as [limit + offset] entries are found loses nothing. *)
Theorem request_log_page_is_exact all_lines limit offset model :
  Forall readable all_lines ->
  read_request_logs all_lines limit offset model
  = Some (take limit (drop offset (omap (finished model) (reverse all_lines)))).
Proof.
  intros Hall. unfold read_request_logs.
  destruct (scan_page limit offset model (reverse all_lines) [])
    as (found & -> & Hpage); [by apply Forall_reverse|].
  simpl. by rewrite Hpage.
Qed.

End Reading.

(** A log of three finished requests, a start entry and a damaged line. *)
Definition scenario_lines : list string :=
  ["start r1"; "end r1 M"; "end r2 N"; "{damaged"; "end r3 M "].

Definition scenario_entry (id model : string) : json :=
  JDict [("type", JStr "request_end"); ("request_id", JStr id); ("model", JStr model)].

Definition scenario_decode (line : string) : option json :=
  if String.eqb line "start r1"
  then Some (JDict [("type", JStr "request_start"); ("request_id", JStr "r1")])
  else if String.eqb line "end r1 M" then Some (scenario_entry "r1" "M")
  else if String.eqb line "end r2 N" then Some (scenario_entry "r2" "N")
  else if String.eqb line "end r3 M" then Some (scenario_entry "r3" "M")
  else None.

Lemma request_log_page_is_exact_witness :
  read_request_logs scenario_decode scenario_lines 1 1 (Some "M")
  = Some [scenario_entry "r1" "M"]
  /\ read_request_logs scenario_decode scenario_lines 1 1 (Some "M")
     = Some (take 1 (drop 1 (omap (finished scenario_decode (Some "M"))
                               (reverse scenario_lines)))).
Proof.
  split; [vm_compute; reflexivity|].
  apply (request_log_page_is_exact scenario_decode scenario_lines 1 1 (Some "M")).
  repeat constructor.
Defined.

End Logs.
